(** * ringserver: the server core of src/ringserver.c

    A shallow embedding of the listener admission policy and accept loop
    ([ListenThread]), the IP matcher ([MatchIP], [ClientIPCount]), the
    per-client statistics ([CalcStats]), the protocol description
    ([GenProtocolString]), the signal handling ([SignalThread]), the ring
    start-up with auto recovery, the watchdog loop and the exit path of
    [main], and the client list both as a sequence and as linked nodes in
    memory, followed by the properties proved about them.

    Conventions.  C integers are carried as [Z]; where the C type wraps
    (unsigned arithmetic, narrowing stores) the wrap is written out with
    [u32], [u16] and [u64].  The structure declarations live in headers
    that are not part of the sources at hand (ringserver.h, clients.h,
    ring.h); field widths follow the format strings and local variable
    declarations of ringserver.c: the configured caps and the client
    timeout are unsigned 32-bit (printed with percent-u), [clientcount] is
    an [int] (printed with percent-d), offsets and times are [int64_t],
    packet and byte counters are [uint64_t], rates are [double].
    Doubles are Rocq's primitive binary64 floats. *)

From Stdlib Require Import ZArith List Bool Lia Ascii String DecimalString Floats.
Import ListNotations.
Open Scope Z_scope.

(** ** Machine integers *)

Definition u16 (z : Z) : Z := z mod 2 ^ 16.
Definition u32 (z : Z) : Z := z mod 2 ^ 32.
Definition u64 (z : Z) : Z := z mod 2 ^ 64.

Definition INT_MAX : Z := 2 ^ 31 - 1.
Definition INT_MIN : Z := - 2 ^ 31.
Definition INT64_MAX : Z := 2 ^ 63 - 1.
Definition INT64_MIN : Z := - 2 ^ 63.

(** A signed result that does not fit is undefined behaviour: [None]. *)
Definition in_int64 (z : Z) : option Z :=
  if (INT64_MIN <=? z) && (z <=? INT64_MAX) then Some z else None.

(** ** Socket addresses and policy lists *)

(** Address families, with their Linux values. *)
Definition AF_INET : Z := 2.
Definition AF_INET6 : Z := 10.

(** [struct sockaddr] seen through its three casts: the family tag, the
    IPv4 view [sin_addr.s_addr] and the IPv6 view [sin6_addr.s6_addr]. *)
Record sockaddr := mkSockaddr {
  sa_family : Z;
  s_addr : Z;
  s6_addr : list Z
}.

(** [IPNet]: family tag, the network and netmask unions in both views,
    and the optional limit pattern.  The [next] pointer is the list. *)
Record IPNet := mkIPNet {
  family : Z;
  network_in : Z;
  netmask_in : Z;
  network_in6 : list Z;
  netmask_in6 : list Z;
  limitstr : option string
}.

Definition octet (a : list Z) (i : nat) : Z := nth i a 0.

(** One conjunct of the IPv6 comparison of [MatchIP]. *)
Definition octet_match (test mask net : list Z) (i : nat) : bool :=
  Z.land (octet test i) (octet mask i) =? octet net i.

(** The body of the [while (net)] loop of [MatchIP] for one entry. *)
Definition entry_matches (addr : sockaddr) (net : IPNet) : bool :=
  if (sa_family addr =? AF_INET) && (family net =? AF_INET) then
    Z.land (s_addr addr) (netmask_in net) =? network_in net
  else if (sa_family addr =? AF_INET6) && (family net =? AF_INET6) then
    forallb (octet_match (s6_addr addr) (netmask_in6 net) (network_in6 net))
            (seq 0 16)
  else false.

Fixpoint MatchIP_loop (net : list IPNet) (addr : sockaddr) : option IPNet :=
  match net with
  | [] => None
  | n :: next => if entry_matches addr n then Some n else MatchIP_loop next addr
  end.

(** [MatchIP]: [None] is the C function's NULL. *)
Definition MatchIP (list : list IPNet) (addr : sockaddr) : option IPNet :=
  match list with
  | [] => None
  | _ =>
      if negb (sa_family addr =? AF_INET) && negb (sa_family addr =? AF_INET6)
      then None
      else MatchIP_loop list addr
  end.

Definition matched (r : option IPNet) : bool :=
  match r with Some _ => true | None => false end.

(** ** Threads, clients and the process-wide state *)

Inductive td_state_t :=
| TDS_SPAWNING | TDS_ACTIVE | TDS_CLOSE | TDS_CLOSING | TDS_CLOSED.

Definition td_state_eqb (a b : td_state_t) : bool :=
  match a, b with
  | TDS_SPAWNING, TDS_SPAWNING | TDS_ACTIVE, TDS_ACTIVE | TDS_CLOSE, TDS_CLOSE
  | TDS_CLOSING, TDS_CLOSING | TDS_CLOSED, TDS_CLOSED => true
  | _, _ => false
  end.

(** [RingReader]: the reader's packet id and offset. *)
Record RingReader := mkReader {
  pktid : Z;
  pktoffset : Z
}.

(** The fields of [ClientInfo] that ringserver.c reads or writes.  The
    two-slot counter arrays are spelled [x0] (current) and [x1] (history).
    [percentlag] is [None] where the C conversion that computes it is
    undefined, so that the stored [int] is indeterminate. *)
Record ClientInfo := mkClientInfo {
  addr : sockaddr;
  writeperm : bool;
  trusted : bool;
  climitstr : option string;
  conntime : Z;
  lastxchange : Z;
  reader : option RingReader;
  percentlag : option Z;
  ratetime : Z;
  txpackets0 : Z; txpackets1 : Z;
  txbytes0 : Z; txbytes1 : Z;
  rxpackets0 : Z; rxpackets1 : Z;
  rxbytes0 : Z; rxbytes1 : Z;
  txpacketrate : float;
  txbyterate : float;
  rxpacketrate : float;
  rxbyterate : float
}.

(** [struct cthread]: the thread's state and its private [ClientInfo]. *)
Record cthread := mkCthread {
  ctd_state : td_state_t;
  cinfo : ClientInfo
}.

(** The fields of [config] used by the listener and the watchdog. *)
Record config_s := mkConfig {
  maxclients : Z;
  maxclientsperip : Z;
  clienttimeout : Z;
  limitips : list IPNet;
  matchips : list IPNet;
  rejectips : list IPNet;
  writeips : list IPNet;
  trustedips : list IPNet
}.

Definition RESERVECONNECTIONS : Z := 10.

(** ** Per-source connection count *)

Definition same_address (query : sockaddr) (c : cthread) : bool :=
  let a := addr (cinfo c) in
  if sa_family a =? sa_family query then
    if sa_family query =? AF_INET then s_addr a =? s_addr query
    else if sa_family query =? AF_INET6 then
      forallb (fun i => octet (s6_addr a) i =? octet (s6_addr query) i) (seq 0 16)
    else false
  else false.

Fixpoint ClientIPCount (cthreads : list cthread) (query : sockaddr) : Z :=
  match cthreads with
  | [] => 0
  | ctp :: next =>
      (if same_address query ctp then 1 else 0) + ClientIPCount next query
  end.

(** ** The admission policy of [ListenThread] *)

Inductive admission :=
| RejectNonMatching
| RejectListed
| RejectTooManyFromIP
| RejectMaxClients
| AllowReserve
| Allow.

Definition accepted (a : admission) : bool :=
  match a with AllowReserve | Allow => true | _ => false end.

(** [config.writeips && MatchIP (config.writeips, paddr)] *)
Definition write_listed (cfg : config_s) (paddr : sockaddr) : bool :=
  matched (MatchIP (writeips cfg) paddr).

(** The four policy checks between [accept] and the allocation of the
    [ClientInfo], in the order of the source.  [clientcount] is an [int]
    compared against unsigned values, hence the [u32] conversions. *)
Definition ListenThread_policy (cfg : config_s) (clientcount : Z) (cthreads : list cthread)
    (paddr : sockaddr) : admission :=
  if match matchips cfg with [] => false | _ => true end
     && negb (matched (MatchIP (matchips cfg) paddr))
  then RejectNonMatching
  else if match rejectips cfg with [] => false | _ => true end
          && matched (MatchIP (rejectips cfg) paddr)
  then RejectListed
  else if negb (maxclientsperip cfg =? 0)
          && negb (write_listed cfg paddr)
          && (maxclientsperip cfg <=? u32 (ClientIPCount cthreads paddr))
  then RejectTooManyFromIP
  else if negb (maxclients cfg =? 0) && (maxclients cfg <=? u32 clientcount)
  then
    if write_listed cfg paddr
       && (u32 clientcount <=? u32 (maxclients cfg + RESERVECONNECTIONS))
    then AllowReserve
    else RejectMaxClients
  else Allow.

(** [ListenPortParams] and the server thread list.  [struct sthread]
    carries a type tag and an untyped [params] pointer; the tag decides
    how [params] is read, which the constructors of [sthread_params]
    record.  [std] is the [td] pointer: [None] is NULL (no thread). *)
Record ListenPortParams := mkLpp {
  portstr : string;
  protocols : Z;
  options : Z;
  socket : Z
}.

Inductive sthread_params :=
| LISTEN_THREAD (lpp : ListenPortParams)
| MSEEDSCAN_THREAD (dirname : string)
| OTHER_THREAD (type : Z).

Record sthread := mkSthread {
  sparams : sthread_params;
  std : option td_state_t
}.

(** The fields of [param] that the listener and the watchdog share. *)
Record param_s := mkParam {
  clientcount : Z;
  shutdownsig : Z;
  sthreads : list sthread;
  cthreads : list cthread
}.

(** The initial value of [param] in ringserver.c, given the server
    threads that the configuration declared. *)
Definition param_init (servers : list sthread) : param_s :=
  mkParam 0 0 servers [].

(** ** Doubles *)

(** Conversion of an integer to [double], rounding to nearest even. *)
Definition double_of_Z (z : Z) : float :=
  SF2Prim (binary_normalize prec emax z 0 false).

(** Truncation of a [double] toward zero; [None] for NaN and infinities. *)
Definition double_trunc (f : float) : option Z :=
  match Prim2SF f with
  | S754_zero _ => Some 0
  | S754_finite s m e =>
      let mag := if 0 <=? e then Z.shiftl (Zpos m) e
                 else Z.shiftr (Zpos m) (- e) in
      Some (if s then - mag else mag)
  | S754_infinity _ | S754_nan => None
  end.

(** The C conversion [(int) f]: undefined when the truncated value is
    not representable in [int]. *)
Definition double_to_int (f : float) : option Z :=
  match double_trunc f with
  | Some z => if (INT_MIN <=? z) && (z <=? INT_MAX) then Some z else None
  | None => None
  end.

(** Nanoseconds per second, [NSTMODULUS] of libmseed. *)
Definition NSTMODULUS : Z := 1000000000.

(** [RingParams]: the offsets read by [CalcStats] and the aggregate
    rates written by the watchdog loop. *)
Record RingParams := mkRing {
  latestoffset : Z;
  earliestoffset : Z;
  maxoffset : Z;
  ring_txpacketrate : float;
  ring_txbyterate : float;
  ring_rxpacketrate : float;
  ring_rxbyterate : float
}.

Definition obind {A B : Type} (o : option A) (k : A -> option B) : option B :=
  match o with Some a => k a | None => None end.

Notation "x <- e ;; k" := (obind e (fun x => k))
  (at level 61, e at next level, right associativity).

Section Server.

(** The largest valid packet id, [RINGID_MAXIMUM] of ring.h. *)
Variable RINGID_MAXIMUM : Z.

(** [WriteTLog (cinfo, 1)] of clients.c: writes the transfer log rows of
    one client and returns the client record as it leaves it. *)
Variable WriteTLog : ClientInfo -> ClientInfo.

(** ** CalcStats *)

(** The unwrapping of one offset: [offset + maxoffset] when the offset
    is below the earliest offset. *)
Definition unwrapped (rp : RingParams) (offset : Z) : option Z :=
  if offset <? earliestoffset rp then in_int64 (offset + maxoffset rp)
  else Some offset.

(** The value stored in [cinfo->percentlag]. *)
Definition CalcStats_percentlag (rp : RingParams) (c : ClientInfo) : option Z :=
  match reader c with
  | Some rd =>
      if pktid rd <=? RINGID_MAXIMUM then
        latestoffset_unwrapped <- unwrapped rp (latestoffset rp) ;;
        readeroffset_unwrapped <- unwrapped rp (pktoffset rd) ;;
        num <- in_int64 (latestoffset_unwrapped - readeroffset_unwrapped) ;;
        den <- in_int64 (latestoffset_unwrapped - earliestoffset rp) ;;
        double_to_int (double_of_Z num / double_of_Z den * double_of_Z 100)%float
      else Some 0
  | None => Some 0
  end.

(** [deltasec]; times are non-negative [int64_t] nanoseconds, so their
    difference is representable. *)
Definition CalcStats_deltasec (nsnow : Z) (c : ClientInfo) : float :=
  if ratetime c =? 0 then 1%float
  else (double_of_Z (nsnow - ratetime c) / double_of_Z NSTMODULUS)%float.

(** A rate: the unsigned counter difference over [deltasec]. *)
Definition rate (current history : Z) (deltasec : float) : float :=
  (double_of_Z (u64 (current - history)) / deltasec)%float.

(** [CalcStats (cinfo)] for a non-NULL [cinfo], with the clock reading
    [nsnow] that [NSnow ()] returned. *)
Definition CalcStats (rp : RingParams) (nsnow : Z) (c : ClientInfo) : ClientInfo :=
  let deltasec := CalcStats_deltasec nsnow c in
  let tx := 0 <? txpackets0 c in
  let rx := 0 <? rxpackets0 c in
  {| addr := addr c;
     writeperm := writeperm c;
     trusted := trusted c;
     climitstr := climitstr c;
     conntime := conntime c;
     lastxchange := lastxchange c;
     reader := reader c;
     percentlag := CalcStats_percentlag rp c;
     ratetime := nsnow;
     txpackets0 := txpackets0 c;
     txpackets1 := if tx then txpackets0 c else txpackets1 c;
     txbytes0 := txbytes0 c;
     txbytes1 := if tx then txbytes0 c else txbytes1 c;
     rxpackets0 := rxpackets0 c;
     rxpackets1 := if rx then rxpackets0 c else rxpackets1 c;
     rxbytes0 := rxbytes0 c;
     rxbytes1 := if rx then rxbytes0 c else rxbytes1 c;
     txpacketrate :=
       if tx then rate (txpackets0 c) (txpackets1 c) deltasec else txpacketrate c;
     txbyterate :=
       if tx then rate (txbytes0 c) (txbytes1 c) deltasec else txbyterate c;
     rxpacketrate :=
       if rx then rate (rxpackets0 c) (rxpackets1 c) deltasec else rxpacketrate c;
     rxbyterate :=
       if rx then rate (rxbytes0 c) (rxbytes1 c) deltasec else rxbyterate c |}.

(** ** ListenThread: one accepted connection *)

(** What the environment decides for one accepted connection: the peer
    address, the clock reading taken for the connect time, and whether
    the allocations before [pthread_create], the thread creation and the
    allocation of the list node succeed. *)
Record connection := mkConn {
  paddr : sockaddr;
  conn_now : Z;
  alloc_ok : bool;
  create_ok : bool;
  node_ok : bool
}.

Inductive loop_ctl := Continue | Break.

(** The [ClientInfo] built for an accepted connection ([calloc] zeroes
    every field that is not set explicitly). *)
Definition new_client (cfg : config_s) (conn : connection) : ClientInfo :=
  {| addr := paddr conn;
     writeperm := matched (MatchIP (writeips cfg) (paddr conn));
     trusted := matched (MatchIP (trustedips cfg) (paddr conn));
     climitstr := match MatchIP (limitips cfg) (paddr conn) with
                  | Some ipnet => limitstr ipnet
                  | None => None
                  end;
     conntime := conn_now conn;
     lastxchange := conn_now conn;
     reader := None;
     percentlag := Some 0;
     ratetime := 0;
     txpackets0 := 0; txpackets1 := 0;
     txbytes0 := 0; txbytes1 := 0;
     rxpackets0 := 0; rxpackets1 := 0;
     rxbytes0 := 0; rxbytes1 := 0;
     txpacketrate := 0%float;
     txbyterate := 0%float;
     rxpacketrate := 0%float;
     rxbyterate := 0%float |}.

(** The body of the dispatch loop from the policy checks to the
    increment of [param.clientcount].  [None] is the undefined overflow
    of the [int] counter. *)
Definition ListenThread_dispatch (cfg : config_s) (p : param_s)
    (conn : connection) : option (param_s * loop_ctl) :=
  if accepted (ListenThread_policy cfg (clientcount p) (cthreads p) (paddr conn))
  then
    if negb (alloc_ok conn) then Some (p, Break)
    else if negb (create_ok conn) then Some (p, Continue)
    else if negb (node_ok conn) then Some (p, Break)
    else if clientcount p <? INT_MAX then
      Some ({| clientcount := clientcount p + 1;
               shutdownsig := shutdownsig p;
               sthreads := sthreads p;
               cthreads := mkCthread TDS_SPAWNING (new_client cfg conn)
                           :: cthreads p |},
            Continue)
    else None
  else Some (p, Continue).

(** ** The watchdog loop of main *)

(** The shutdown request for one server thread.  The second component
    lists the descriptors passed to [shutdown] and [close]. *)
Definition request_server_shutdown (stp : sthread) : sthread * list Z :=
  match sparams stp with
  | LISTEN_THREAD lpp =>
      if 0 <? socket lpp then
        (mkSthread (LISTEN_THREAD (mkLpp (portstr lpp) (protocols lpp)
                                         (options lpp) (-1)))
                   (std stp),
         [socket lpp])
      else (stp, [])
  | _ =>
      match std stp with
      | Some st =>
          if negb (td_state_eqb st TDS_CLOSING) && negb (td_state_eqb st TDS_CLOSED)
          then (mkSthread (sparams stp) (Some TDS_CLOSE), [])
          else (stp, [])
      | None => (stp, [])
      end
  end.

Fixpoint request_servers_shutdown (loopstp : list sthread)
  : list sthread * list Z :=
  match loopstp with
  | [] => ([], [])
  | stp :: next =>
      let '(stp', fds) := request_server_shutdown stp in
      let '(next', fds') := request_servers_shutdown next in
      (stp' :: next', fds ++ fds')
  end.

Definition request_client_shutdown (ctp : cthread) : cthread :=
  if negb (td_state_eqb (ctd_state ctp) TDS_CLOSING)
     && negb (td_state_eqb (ctd_state ctp) TDS_CLOSED)
  then mkCthread TDS_CLOSE (cinfo ctp)
  else ctp.

Fixpoint request_clients_shutdown (loopctp : list cthread) : list cthread :=
  match loopctp with
  | [] => []
  | ctp :: next => request_client_shutdown ctp :: request_clients_shutdown next
  end.

(** The loop variables of the watchdog besides [param]: the throttle
    [timereq.tv_nsec], the ring parameters, [tlogwrite], whether a
    transfer log directory is configured, and the descriptors closed so
    far. *)
Record watchdog := mkWatchdog {
  wd_param : param_s;
  tv_nsec : Z;
  ringparams : RingParams;
  tlogwrite : bool;
  tlogbasedir : bool;
  closed_fds : list Z
}.

(** What the environment decides during one pass of the loop. *)
Record pass_env := mkPassEnv {
  hpcurtime : Z;
  stats_clock : nat -> Z;
  spawn_ok : sthread_params -> bool;
  window_passed : bool;
  config_changed : bool;
  calcintwin_ok : bool
}.

Inductive loop_exit :=
| ShutdownStalled
| ShutdownComplete
| IntervalError.

(** The block guarded by [param.shutdownsig == 1]. *)
Definition begin_shutdown (w : watchdog) : watchdog :=
  if shutdownsig (wd_param w) =? 1 then
    let '(servers, fds) := request_servers_shutdown (sthreads (wd_param w)) in
    {| wd_param := {| clientcount := clientcount (wd_param w);
                      shutdownsig := 2;
                      sthreads := servers;
                      cthreads := request_clients_shutdown (cthreads (wd_param w)) |};
       tv_nsec := 100000000;
       ringparams := ringparams w;
       tlogwrite := tlogwrite w;
       tlogbasedir := tlogbasedir w;
       closed_fds := closed_fds w ++ fds |}
  else w.

(** The block guarded by [param.shutdownsig > 1]: the safety valve.
    [None] is the [break]. *)
Definition shutdown_valve (sig : Z) : option Z :=
  if 1 <? sig then
    if 100 <=? sig then None else Some (sig + 1)
  else Some sig.

(** One server thread in the monitoring pass: the thread counted, a
    CLOSED thread joined and freed, a missing thread started. *)
Definition watch_server (sig : Z) (env : pass_env) (stp : sthread)
  : sthread * Z :=
  let counted := match std stp with Some _ => 1 | None => 0 end in
  match sparams stp with
  | OTHER_THREAD _ => (stp, counted)
  | _ =>
      let joined := match std stp with
                    | Some TDS_CLOSED => None
                    | td => td
                    end in
      let td := match joined with
                | None =>
                    if (sig =? 0) && spawn_ok env (sparams stp)
                    then Some TDS_SPAWNING else None
                | td => td
                end in
      (mkSthread (sparams stp) td, counted)
  end.

Fixpoint watch_servers (sig : Z) (env : pass_env) (loopstp : list sthread)
  : list sthread * Z :=
  match loopstp with
  | [] => ([], 0)
  | stp :: next =>
      let '(stp', n) := watch_server sig env stp in
      let '(next', servercount) := watch_servers sig env next in
      (stp' :: next', n + servercount)
  end.

(** The idle check at the end of the client branch. *)
Definition close_if_idle (cfg : config_s) (now : Z) (ctp : cthread) : cthread :=
  if negb (clienttimeout cfg =? 0)
     && (clienttimeout cfg * NSTMODULUS <? now - lastxchange (cinfo ctp))
  then
    if negb (td_state_eqb (ctd_state ctp) TDS_CLOSE)
       && negb (td_state_eqb (ctd_state ctp) TDS_CLOSING)
       && negb (td_state_eqb (ctd_state ctp) TDS_CLOSED)
    then mkCthread TDS_CLOSE (cinfo ctp)
    else ctp
  else ctp.

(** The [else] branch of the client pass for a client that is not
    CLOSED: statistics, transfer log, idle check. *)
Definition watch_client (cfg : config_s) (rp : RingParams) (env : pass_env)
    (write_tlog : bool) (i : nat) (ctp : cthread) : cthread :=
  let c := CalcStats rp (stats_clock env i) (cinfo ctp) in
  let c := if write_tlog then WriteTLog c else c in
  close_if_idle cfg (hpcurtime env) (mkCthread (ctd_state ctp) c).

(** The four sums of the client pass. *)
Record rates := mkRates {
  sum_txpacketrate : float;
  sum_txbyterate : float;
  sum_rxpacketrate : float;
  sum_rxbyterate : float
}.

(** The client pass, from the list node [loopctp] on: the remaining
    list, the client count and the sums. *)
Fixpoint watch_clients (cfg : config_s) (rp : RingParams) (env : pass_env)
    (write_tlog : bool) (i : nat) (loopctp : list cthread)
    (count : Z) (acc : rates) : list cthread * Z * rates :=
  match loopctp with
  | [] => ([], count, acc)
  | ctp :: next =>
      if td_state_eqb (ctd_state ctp) TDS_CLOSED then
        watch_clients cfg rp env write_tlog i next
          (if 0 <? count then count - 1 else count) acc
      else
        let c := CalcStats rp (stats_clock env i) (cinfo ctp) in
        let acc' := {| sum_txpacketrate := sum_txpacketrate acc + txpacketrate c;
                       sum_txbyterate := sum_txbyterate acc + txbyterate c;
                       sum_rxpacketrate := sum_rxpacketrate acc + rxpacketrate c;
                       sum_rxbyterate := sum_rxbyterate acc + rxbyterate c |}%float in
        let '(next', count', acc'') :=
          watch_clients cfg rp env write_tlog (S i) next count acc' in
        (watch_client cfg rp env write_tlog i ctp :: next', count', acc'')
  end.

(** One pass of the [for (;;)] loop, up to the throttle.  The second
    component is [Some] when the pass leaves the loop. *)
Definition watchdog_pass (cfg : config_s) (env : pass_env) (w : watchdog)
  : watchdog * option loop_exit :=
  let w1 := begin_shutdown w in
  match shutdown_valve (shutdownsig (wd_param w1)) with
  | None => (w1, Some ShutdownStalled)
  | Some sig =>
      let write_tlog :=
        if tlogbasedir w1 && (sig =? 0) then window_passed env
        else tlogwrite w1 in
      let '(servers, servercount) :=
        watch_servers sig env (sthreads (wd_param w1)) in
      let '(clients, count, sums) :=
        watch_clients cfg (ringparams w1) env write_tlog 0
          (cthreads (wd_param w1)) (clientcount (wd_param w1))
          (mkRates 0 0 0 0) in
      let rp := {| latestoffset := latestoffset (ringparams w1);
                   earliestoffset := earliestoffset (ringparams w1);
                   maxoffset := maxoffset (ringparams w1);
                   ring_txpacketrate := sum_txpacketrate sums;
                   ring_txbyterate := sum_txbyterate sums;
                   ring_rxpacketrate := sum_rxpacketrate sums;
                   ring_rxbyterate := sum_rxbyterate sums |} in
      let reset :=
        tlogbasedir w1 && (sig =? 0) && (write_tlog || config_changed env) in
      let w2 := {| wd_param := {| clientcount := count;
                                  shutdownsig := sig;
                                  sthreads := servers;
                                  cthreads := clients |};
                   tv_nsec := tv_nsec w1;
                   ringparams := rp;
                   tlogwrite := if reset then false else write_tlog;
                   tlogbasedir := tlogbasedir w1;
                   closed_fds := closed_fds w1 |} in
      if reset && negb (calcintwin_ok env) then (w2, Some IntervalError)
      else if (2 <=? sig) && (count =? 0) && (servercount =? 0)
      then (w2, Some ShutdownComplete)
      else (w2, None)
  end.

Definition with_param (w : watchdog) (p : param_s) : watchdog :=
  {| wd_param := p;
     tv_nsec := tv_nsec w;
     ringparams := ringparams w;
     tlogwrite := tlogwrite w;
     tlogbasedir := tlogbasedir w;
     closed_fds := closed_fds w |}.

(** The loop over a schedule: each entry gives the environment of one
    pass and what the other threads do to [param] while the watchdog
    sleeps after it.  The result is the state reached and, when the loop
    was left, the reason and the number of the pass that left it. *)
Fixpoint watchdog_loop (cfg : config_s)
    (schedule : list (pass_env * (param_s -> param_s)))
    (n : nat) (w : watchdog) : watchdog * option (loop_exit * nat) :=
  match schedule with
  | [] => (w, None)
  | (env, others) :: rest =>
      match watchdog_pass cfg env w with
      | (w', Some e) => (w', Some (e, S n))
      | (w', None) =>
          watchdog_loop cfg rest (S n) (with_param w' (others (wd_param w')))
      end
  end.

(** ** The process as a transition system *)

(** The steps that change [param]: a listener handles a connection, the
    watchdog makes a pass, the signal thread records a termination
    signal, or a worker thread changes the state of the units, which
    leaves the client count alone. *)
Inductive step (cfg : config_s) : param_s -> param_s -> Prop :=
| step_listen : forall p conn p' ctl,
    ListenThread_dispatch cfg p conn = Some (p', ctl) ->
    step cfg p p'
| step_watchdog : forall env w w' e,
    watchdog_pass cfg env w = (w', e) ->
    step cfg (wd_param w) (wd_param w')
| step_signal : forall p,
    step cfg p (mkParam (clientcount p) 1 (sthreads p) (cthreads p))
| step_workers : forall p servers clients,
    List.length clients = List.length (cthreads p) ->
    step cfg p (mkParam (clientcount p) (shutdownsig p) servers clients).

Inductive reachable (cfg : config_s) (servers : list sthread) : param_s -> Prop :=
| reach_init : reachable cfg servers (param_init servers)
| reach_step : forall p p',
    reachable cfg servers p -> step cfg p p' -> reachable cfg servers p'.

End Server.

(** ** Ring initialization with auto recovery (the start of main) *)

(** What the start-up does to the outside world, in order. *)
Inductive event :=
| EvRingInitialize (ringfile streamfile : string)
| EvClose (fd : Z)
| EvRename (from to : string)
| EvUnlink (path : string)
| EvLoadBufferV1 (backup : string).

(** The result of a system call: success, or failure with [errno]. *)
Inductive sysresult := SysOk | SysErr (errno : Z).

Definition ENOENT : Z := 2.

(** [call && errno != ENOENT] *)
Definition fails (r : sysresult) : bool :=
  match r with
  | SysOk => false
  | SysErr errno => negb (errno =? ENOENT)
  end.

(** The start-up parameters of [config], and what the ring engine, the
    file system and the version-1 loader answer. *)
Record startup_env := mkStartupEnv {
  ringdir : option string;
  volatilering : bool;
  autorecovery : Z;
  first_ringinit : Z;
  first_ringfd : Z;
  rename_result : string -> string -> sysresult;
  unlink_result : string -> sysresult;
  second_ringinit : Z;
  loaded_packets : string -> Z
}.

(** A computation of the start-up: the events so far, and either the
    value computed or [None] once main has returned 1. *)
Definition startup (A : Type) : Type := list event * option A.

Definition ret {A : Type} (a : A) : startup A := ([], Some a).

Definition return_1 {A : Type} : startup A := ([], None).

Definition emit (e : event) : startup unit := ([e], Some tt).

Definition sbind {A B : Type} (m : startup A) (k : A -> startup B) : startup B :=
  match m with
  | (log, Some a) => let '(log', r) := k a in (log ++ log', r)
  | (log, None) => (log, None)
  end.

Notation "m >> k" := (sbind m (fun _ => k))
  (at level 62, right associativity).

(** [printf]'s percent-d. *)
Definition decimal (z : Z) : string := NilZero.string_of_int (Z.to_int z).

Definition ringfilename (env : startup_env) : string :=
  match ringdir env with
  | Some dir => if volatilering env then "" else dir ++ "/packetbuf"
  | None => ""
  end.

Definition streamfilename (env : startup_env) : string :=
  match ringdir env with
  | Some dir => if volatilering env then "" else dir ++ "/streamidx"
  | None => ""
  end.

(** The suffix of the backup files for the first [ringinit]. *)
Definition backup_suffix (ringinit : Z) : string :=
  if ringinit =? -1 then ".corrupt" else ".version" ++ decimal ringinit.

Definition ringfile_backup (env : startup_env) : string :=
  ringfilename env ++ backup_suffix (first_ringinit env).

Definition streamfile_backup (env : startup_env) : string :=
  streamfilename env ++ backup_suffix (first_ringinit env).

(** [convert_version] is a [uint16_t] assigned from the [int] result, and
    stays 0 unless a positive version was reported in rename mode. *)
Definition convert_version (env : startup_env) : Z :=
  if (autorecovery env =? 1) && (0 <? first_ringinit env)
  then u16 (first_ringinit env) else 0.

(** A call whose failure (other than ENOENT) makes main return 1. *)
Definition must (e : event) (r : sysresult) : startup unit :=
  emit e >> if fails r then return_1 else ret tt.

(** Moving or removing the ring files, by [autorecovery]. *)
Definition set_aside (env : startup_env) : startup unit :=
  let ringinit := first_ringinit env in
  if (autorecovery env =? 1) && ((ringinit =? -1) || (0 <? ringinit)) then
    must (EvRename (ringfilename env) (ringfile_backup env))
         (rename_result env (ringfilename env) (ringfile_backup env)) >>
    must (EvRename (streamfilename env) (streamfile_backup env))
         (rename_result env (streamfilename env) (streamfile_backup env))
  else if autorecovery env =? 2 then
    must (EvUnlink (ringfilename env)) (unlink_result env (ringfilename env)) >>
    must (EvUnlink (streamfilename env)) (unlink_result env (streamfilename env))
  else return_1.

(** The conversion of the backup after the second initialization. *)
Definition convert_backup (env : startup_env) : startup unit :=
  if (autorecovery env =? 1) && (0 <? convert_version env) then
    if convert_version env =? 1 then
      emit (EvLoadBufferV1 (ringfile_backup env)) >>
      if 0 <=? loaded_packets env (ringfile_backup env) then
        must (EvUnlink (ringfile_backup env))
             (unlink_result env (ringfile_backup env)) >>
        must (EvUnlink (streamfile_backup env))
             (unlink_result env (streamfile_backup env))
      else ret tt
    else return_1
  else ret tt.

(** The block of main under "Init ring parameters": [Some tt] when main
    goes on to the watchdog loop, [None] when it returns 1.  Path
    truncation to PATH_MAX is not modelled. *)
Definition ring_startup (env : startup_env) : startup unit :=
  match ringdir env, volatilering env with
  | None, false => return_1
  | _, _ =>
      emit (EvRingInitialize (ringfilename env) (streamfilename env)) >>
      if first_ringinit env =? 0 then ret tt
      else if (first_ringinit env =? -2) || (autorecovery env =? 0) then return_1
      else
        (if 0 <? first_ringfd env then emit (EvClose (first_ringfd env))
         else ret tt) >>
        set_aside env >>
        emit (EvRingInitialize (ringfilename env) (streamfilename env)) >>
        if negb (second_ringinit env =? 0) then return_1
        else convert_backup env
  end.

(** ** The listener, from accept to the new client thread *)

(** [errno] values of Linux that the accept loop tests. *)
Definition EINTR : Z := 4.
Definition ECONNABORTED : Z := 103.

(** The return of [accept]: a descriptor, or -1 with [errno]. *)
Inductive accept_result :=
| AcceptSocket (clientsocket : Z)
| AcceptErrno (errno : Z).

(** What the environment decides for one turn of the accept loop: the
    return of [accept] and the peer address it stores through [paddr],
    the result of [getnameinfo], the clock reading, and the success of
    each allocation and of [pthread_create], in the order of the source:
    the [ClientInfo], the copy of the address, the miniSEED write
    parameters, the thread data, the thread, the list node. *)
Record arrival := mkArrival {
  accept_r : accept_result;
  peer : sockaddr;
  nameinfo_ok : bool;
  arrival_now : Z;
  cinfo_ok : bool;
  addr_ok : bool;
  mswrite_ok : bool;
  tdata_ok : bool;
  thread_ok : bool;
  cnode_ok : bool
}.

(** What the listener does to descriptors and threads. *)
Inductive listen_event :=
| LClose (fd : Z)
| LClientThread (fd : Z).

Record listen_turn := mkTurn {
  turn_param : param_s;
  turn_storage : sockaddr;
  turn_events : list listen_event;
  turn_ctl : loop_ctl
}.

(** [if (clientsocket) close (clientsocket)] *)
Definition close_nonzero (clientsocket : Z) : list listen_event :=
  if clientsocket =? 0 then [] else [LClose clientsocket].

Section Protocols.

(** The bits of [ListenProtocols] and [ListenOptions], declared in
    ringserver.h. *)
Variables PROTO_DATALINK PROTO_SEEDLINK PROTO_HTTP : Z.
Variables ENCRYPTION_TLS FAMILY_IPv4 FAMILY_IPv6 FAMILY_UNIX : Z.

(** [bits & flag] as a condition. *)
Definition has_flag (bits flag : Z) : bool := negb (Z.land bits flag =? 0).

(** One turn of the [while (!param.shutdownsig)] loop of [ListenThread].
    [addr_storage] is the thread's address buffer: [accept] writes it
    on an IP listener, and on a UNIX listener the peer goes to a buffer
    of its own, so that [paddr] still points at the old contents.
    [None] is the undefined overflow of [param.clientcount]. *)
Definition ListenThread_turn (cfg : config_s) (mseedarchive : bool)
    (lpp : ListenPortParams) (addr_storage : sockaddr) (p : param_s)
    (a : arrival) : option listen_turn :=
  match accept_r a with
  | AcceptErrno errno =>
      Some (mkTurn p addr_storage []
              (if (errno =? ECONNABORTED) || (errno =? EINTR)
               then Continue else Break))
  | AcceptSocket clientsocket =>
      let unix := has_flag (options lpp) FAMILY_UNIX in
      let storage := if unix then addr_storage else peer a in
      if negb unix && negb (nameinfo_ok a) then
        Some (mkTurn p storage [LClose clientsocket] Continue)
      else if negb (accepted (ListenThread_policy cfg (clientcount p)
                                (cthreads p) storage)) then
        Some (mkTurn p storage [LClose clientsocket] Continue)
      else if negb (cinfo_ok a) then
        Some (mkTurn p storage [LClose clientsocket] Break)
      else if negb (addr_ok a) then
        Some (mkTurn p storage [LClose clientsocket] Break)
      else if mseedarchive && negb (mswrite_ok a) then
        Some (mkTurn p storage (close_nonzero clientsocket) Break)
      else if negb (tdata_ok a) then
        Some (mkTurn p storage (close_nonzero clientsocket) Break)
      else if negb (thread_ok a) then
        Some (mkTurn p storage (close_nonzero clientsocket) Continue)
      else if negb (cnode_ok a) then
        Some (mkTurn p storage
                (LClientThread clientsocket :: close_nonzero clientsocket)
                Break)
      else if clientcount p <? INT_MAX then
        Some (mkTurn
                {| clientcount := clientcount p + 1;
                   shutdownsig := shutdownsig p;
                   sthreads := sthreads p;
                   cthreads :=
                     mkCthread TDS_SPAWNING
                       (new_client cfg (mkConn storage (arrival_now a)
                                          true true true))
                     :: cthreads p |}
                storage [LClientThread clientsocket] Continue)
      else None
  end.

(** The accept loop: each entry of [arrivals] is one turn, followed by
    what the other threads do to [param] before the next test of
    [param.shutdownsig].  The result is the state when the loop was left
    or the arrivals ran out, the events, and whether the loop was left. *)
Fixpoint ListenThread_loop (cfg : config_s) (mseedarchive : bool)
    (lpp : ListenPortParams)
    (arrivals : list (arrival * (param_s -> param_s)))
    (addr_storage : sockaddr) (p : param_s)
  : option (param_s * list listen_event * bool) :=
  if negb (shutdownsig p =? 0) then Some (p, [], true)
  else
    match arrivals with
    | [] => Some (p, [], false)
    | (a, others) :: rest =>
        t <- ListenThread_turn cfg mseedarchive lpp addr_storage p a ;;
        match turn_ctl t with
        | Break => Some (turn_param t, turn_events t, true)
        | Continue =>
            r <- ListenThread_loop cfg mseedarchive lpp rest (turn_storage t)
                   (others (turn_param t)) ;;
            let '(p', events, over) := r in
            Some (p', turn_events t ++ events, over)
        end
    end.

(** ** GenProtocolString *)

Definition protocol_family (options : Z) : string :=
  if has_flag options FAMILY_IPv4 then "IPv4"
  else if has_flag options FAMILY_IPv6 then "IPv6"
  else if has_flag options FAMILY_UNIX then "UNIX"
  else "Unknown family?".

(** The text that the format of [GenProtocolString] produces. *)
Definition protocol_text (protocols options : Z) : string :=
  protocol_family options ++ ": "
  ++ (if has_flag protocols PROTO_DATALINK then "DataLink " else "")
  ++ (if has_flag protocols PROTO_SEEDLINK then "SeedLink " else "")
  ++ (if has_flag protocols PROTO_HTTP then "HTTP " else "")
  ++ (if has_flag options ENCRYPTION_TLS then "over TLS " else "").

(** [snprintf (result, maxlength, ...)] for the text that the format
    produces: the string in [result] afterwards and the value returned.
    With [maxlength] 0 nothing is written. *)
Definition snprintf (result : string) (maxlength : Z) (text : string)
  : string * Z :=
  (if maxlength =? 0 then result
   else substring 0 (Z.to_nat (maxlength - 1)) text,
   Z.of_nat (String.length text)).

(** A [size_t] returned as [int]: reduced modulo 2^32 into the range of
    [int]. *)
Definition int_of_size (z : Z) : Z :=
  let r := u64 z mod 2 ^ 32 in
  if r <? 2 ^ 31 then r else r - 2 ^ 32.

(** [GenProtocolString (protocols, options, result, maxlength)]:
    [result] is [None] for a NULL pointer and otherwise the string in the
    buffer; [maxlength] is a [size_t].  The comparisons of [length] with
    [maxlength] are unsigned, and [length] is never negative. *)
Definition GenProtocolString (protocols options : Z) (result : option string)
    (maxlength : Z) : option string * Z :=
  match result with
  | None => (None, 0)
  | Some buffer =>
      let '(written, length) :=
        snprintf buffer maxlength (protocol_text protocols options) in
      let stripped :=
        if (length <? maxlength)
           && match get (Z.to_nat (length - 1)) written with
              | Some c => Ascii.eqb c " "%char
              | None => false
              end
        then substring 0 (Z.to_nat (length - 1)) written
        else written in
      (Some stripped,
       if maxlength <? length then int_of_size (maxlength - 1) else length)
  end.

End Protocols.

(** ** SignalThread *)

(** Signal numbers of Linux. *)
Definition SIGINT : Z := 2.
Definition SIGUSR1 : Z := 10.
Definition SIGSEGV : Z := 11.
Definition SIGTERM : Z := 15.

(** What the [switch] of [SignalThread] does with one signal: [param]
    afterwards, or the exit status of the process. *)
Inductive signal_outcome :=
| SigHandled (p : param_s) (printed : bool)
| SigExit (status : Z).

Definition SignalThread_switch (sig : Z) (p : param_s) : signal_outcome :=
  if (sig =? SIGINT) || (sig =? SIGTERM) then
    SigHandled (mkParam (clientcount p) 1 (sthreads p) (cthreads p)) false
  else if sig =? SIGUSR1 then SigHandled p true
  else if sig =? SIGSEGV then SigExit 1
  else SigHandled p false.

(** The [for (;;)] loop of [SignalThread] over the returns of [sigwait]:
    [inl rc] is a failure, which is logged and skipped, [inr sig] a
    signal.  [printed] tells whether [PrintHandler] has been called. *)
Fixpoint SignalThread (waits : list (Z + Z)) (p : param_s) (printed : bool)
  : signal_outcome :=
  match waits with
  | [] => SigHandled p printed
  | inl _ :: rest => SignalThread rest p printed
  | inr sig :: rest =>
      match SignalThread_switch sig p with
      | SigHandled p' printed' => SignalThread rest p' (printed || printed')
      | SigExit status => SigExit status
      end
  end.

(** ** main, from the first line to the last *)

(** What main does besides the ring start-up, in order. *)
Inductive main_event :=
| MStartup (e : event)
| MSignalThread
| MWatchdog (passes : nat)
| MRingShutdown
| MCancel
| MJoin.

(** The returns of the calls that main checks, and the run of the
    watchdog loop. *)
Record main_env := mkMainEnv {
  processparam_r : Z;
  sigfillset_r : Z;
  sigmask_r : Z;
  sigthread_r : Z;
  tcp_known : bool;
  main_startup : startup_env;
  tlog_configured : bool;
  first_calcintwin_r : Z;
  main_servers : list sthread;
  main_ring : RingParams;
  main_schedule : list (pass_env * (param_s -> param_s));
  ringshutdown_r : Z;
  cancel_r : Z;
  join_r : Z
}.

Section Main.

Variable RINGID_MAXIMUM : Z.
Variable WriteTLog : ClientInfo -> ClientInfo.

(** The watchdog as main enters the loop: a quarter of a second between
    ticks, [tlogwrite] 0. *)
Definition main_watchdog (env : main_env) : watchdog :=
  {| wd_param := param_init (main_servers env);
     tv_nsec := 250000000;
     ringparams := main_ring env;
     tlogwrite := false;
     tlogbasedir := tlog_configured env;
     closed_fds := [] |}.

(** The end of main, after the loop was left by [break]. *)
Definition main_finish (env : main_env) : list main_event * Z :=
  if negb (ringshutdown_r env =? 0) then ([MRingShutdown], 1)
  else if negb (cancel_r env =? 0) then ([MRingShutdown; MCancel], 1)
  else if negb (join_r env =? 0) then ([MRingShutdown; MCancel; MJoin], 1)
  else ([MRingShutdown; MCancel; MJoin], 0).

(** [main]: the events and the exit status, [None] while the watchdog
    loop has not been left at the end of the schedule.  The ring
    parameters are configured whenever the loop is reached, which is the
    condition of the call of [RingShutdown]. *)
Definition main (cfg : config_s) (env : main_env)
  : list main_event * option Z :=
  if processparam_r env <? 0 then ([], Some 1)
  else if negb (sigfillset_r env =? 0) then ([], Some 1)
  else if negb (sigmask_r env =? 0) then ([], Some 1)
  else if negb (sigthread_r env =? 0) then ([], Some 1)
  else if negb (tcp_known env) then ([MSignalThread], Some 1)
  else
    let '(log, started) := ring_startup (main_startup env) in
    let before := MSignalThread :: map MStartup log in
    match started with
    | None => (before, Some 1)
    | Some _ =>
        if tlog_configured env && negb (first_calcintwin_r env =? 0)
        then (before, Some 1)
        else
          match watchdog_loop RINGID_MAXIMUM WriteTLog cfg (main_schedule env)
                  0 (main_watchdog env) with
          | (_, None) => (before, None)
          | (_, Some (IntervalError, n)) =>
              (before ++ [MWatchdog n], Some 1)
          | (_, Some (_, n)) =>
              let '(events, status) := main_finish env in
              (before ++ MWatchdog n :: events, Some status)
          end
    end.

End Main.

(** ** Runs in which the recorded addresses stay *)


Section Runs.

Variable RINGID_MAXIMUM : Z.
Variable WriteTLog : ClientInfo -> ClientInfo.


End Runs.

(** ** The client list in memory *)

(** [struct cthread] as it lies in memory: the thread data and the two
    links.  A node is known by its address, a number; NULL is [None]. *)
Record cnode := mkCnode {
  c_td : cthread;
  c_prev : option nat;
  c_next : option nat
}.

(** The nodes allocated and the head pointer [param.cthreads]. *)
Record clist := mkClist {
  cl_nodes : nat -> option cnode;
  cl_head : option nat
}.

(** Writing the node at an address, and [free]. *)
Definition store (h : nat -> option cnode) (p : nat) (n : cnode)
  : nat -> option cnode :=
  fun q => if Nat.eqb q p then Some n else h q.

Definition release (h : nat -> option cnode) (p : nat) : nat -> option cnode :=
  fun q => if Nat.eqb q p then None else h q.

(** The end of [ListenThread]: the node [ctp] just allocated for the
    thread data [td] is put at the beginning of the list.  [None] is the
    access through a pointer to no node. *)
Definition link_first (cl : clist) (ctp : nat) (td : cthread) : option clist :=
  match cl_head cl with
  | Some first =>
      let h := store (cl_nodes cl) ctp (mkCnode td None (Some first)) in
      n <- h first ;;
      Some (mkClist (store h first (mkCnode (c_td n) (Some ctp) (c_next n)))
                    (Some ctp))
  | None =>
      Some (mkClist (store (cl_nodes cl) ctp (mkCnode td None None)) (Some ctp))
  end.

(** The four statements under "Unlink from the cthreads list" in main,
    and the [free] of the node that follows them. *)
Definition unlink_node (cl : clist) (ctp : nat) : option clist :=
  n <- cl_nodes cl ctp ;;
  let head1 := match c_prev n, c_next n with
               | None, None => None
               | _, _ => cl_head cl
               end in
  let head2 := match c_prev n, c_next n with
               | None, Some next => Some next
               | _, _ => head1
               end in
  h1 <- match c_prev n with
        | Some prev =>
            pn <- cl_nodes cl prev ;;
            Some (store (cl_nodes cl) prev
                    (mkCnode (c_td pn) (c_prev pn) (c_next n)))
        | None => Some (cl_nodes cl)
        end ;;
  n1 <- h1 ctp ;;
  h2 <- match c_next n1 with
        | Some next =>
            nn <- h1 next ;;
            Some (store h1 next (mkCnode (c_td nn) (c_prev n1) (c_next nn)))
        | None => Some h1
        end ;;
  Some (mkClist (release h2 ctp) head2).

Section ClientPass.

Variable RINGID_MAXIMUM : Z.
Variable WriteTLog : ClientInfo -> ClientInfo.

(** The loop over the client list in the watchdog, on the nodes in
    memory: the next pointer is read before the node is handled, a
    CLOSED node is unlinked and freed, any other node has its record
    updated in place.  [fuel] bounds the number of turns; [None] is the
    access through a pointer to no node, or the fuel used up. *)
Fixpoint client_pass (fuel : nat) (cfg : config_s) (rp : RingParams)
    (env : pass_env) (write_tlog : bool) (i : nat) (cl : clist)
    (loopctp : option nat) (count : Z) (acc : rates)
  : option (clist * Z * rates) :=
  match loopctp with
  | None => Some (cl, count, acc)
  | Some ctp =>
      match fuel with
      | O => None
      | S fuel' =>
          n <- cl_nodes cl ctp ;;
          let next := c_next n in
          if td_state_eqb (ctd_state (c_td n)) TDS_CLOSED then
            cl' <- unlink_node cl ctp ;;
            client_pass fuel' cfg rp env write_tlog i cl' next
              (if 0 <? count then count - 1 else count) acc
          else
            let c := CalcStats RINGID_MAXIMUM rp (stats_clock env i)
                       (cinfo (c_td n)) in
            let acc' :=
              {| sum_txpacketrate := sum_txpacketrate acc + txpacketrate c;
                 sum_txbyterate := sum_txbyterate acc + txbyterate c;
                 sum_rxpacketrate := sum_rxpacketrate acc + rxpacketrate c;
                 sum_rxbyterate := sum_rxbyterate acc + rxbyterate c |}%float in
            let td := watch_client RINGID_MAXIMUM WriteTLog cfg rp env
                        write_tlog i (c_td n) in
            let cl' := mkClist (store (cl_nodes cl) ctp
                                  (mkCnode td (c_prev n) (c_next n)))
                               (cl_head cl) in
            client_pass fuel' cfg rp env write_tlog (S i) cl' next count acc'
      end
  end.

End ClientPass.

(** [ClientIPCount] on the nodes in memory. *)
Fixpoint ClientIPCount_nodes (fuel : nat) (h : nat -> option cnode)
    (ctp : option nat) (query : sockaddr) : option Z :=
  match ctp with
  | None => Some 0
  | Some p =>
      match fuel with
      | O => None
      | S fuel' =>
          n <- h p ;;
          rest <- ClientIPCount_nodes fuel' h (c_next n) query ;;
          Some ((if same_address query (c_td n) then 1 else 0) + rest)
      end
  end.

(** ** What the specification says a match is *)

(** An address matches an entry: both IPv4 and the masked address is the
    network, or both IPv6 and every one of the 16 octets of the masked
    address is the octet of the network. *)
Definition ip_match (a : sockaddr) (n : IPNet) : Prop :=
  (sa_family a = AF_INET /\ family n = AF_INET /\
   Z.land (s_addr a) (netmask_in n) = network_in n)
  \/
  (sa_family a = AF_INET6 /\ family n = AF_INET6 /\
   forall i, (i < 16)%nat ->
     Z.land (octet (s6_addr a) i) (octet (netmask_in6 n) i)
     = octet (network_in6 n) i).

(** The four conditions of the policy, as the specification words them. *)
Definition outside_match_list (cfg : config_s) (a : sockaddr) : Prop :=
  matchips cfg <> [] /\ MatchIP (matchips cfg) a = None.

Definition on_reject_list (cfg : config_s) (a : sockaddr) : Prop :=
  exists n, MatchIP (rejectips cfg) a = Some n.

Definition over_ip_cap (cfg : config_s) (clients : list cthread) (a : sockaddr)
  : Prop :=
  maxclientsperip cfg <> 0 /\ write_listed cfg a = false /\
  maxclientsperip cfg <= u32 (ClientIPCount clients a).

Definition global_cap_reached (cfg : config_s) (count : Z) : Prop :=
  maxclients cfg <> 0 /\ maxclients cfg <= u32 count.


(** ** Scenarios *)

(** [n] connections in a row, each described by [conn], handled by one
    listener. *)
Fixpoint connect_n (cfg : config_s) (n : nat) (conn : connection) (p : param_s)
  : option param_s :=
  match n with
  | O => Some p
  | S n' =>
      match ListenThread_dispatch cfg p conn with
      | Some (p', _) => connect_n cfg n' conn p'
      | None => None
      end
  end.

(** The configuration of the global cap scenario: at most 5 clients,
    write permission for 10.0.0.0/8. *)
Definition net_10_8 : IPNet :=
  mkIPNet AF_INET 0x0A000000 0xFF000000 [] [] None.

Definition cfg_cap5 : config_s :=
  {| maxclients := 5; maxclientsperip := 0; clienttimeout := 3600;
     limitips := []; matchips := []; rejectips := [];
     writeips := [net_10_8]; trustedips := [] |}.

Definition from_192_0_2_1 : connection :=
  mkConn (mkSockaddr AF_INET 0xC0000201 []) 1700000000000000000 true true true.

Definition from_10_0_0_1 : connection :=
  mkConn (mkSockaddr AF_INET 0x0A000001 []) 1700000000000000000 true true true.

(** The global cap scenario: 5 connections from 192.0.2.1, then [n]
    connections from 10.0.0.1. *)
Definition scenario_cap (n : nat) : option param_s :=
  match connect_n cfg_cap5 5 from_192_0_2_1 (param_init []) with
  | Some p5 => connect_n cfg_cap5 n from_10_0_0_1 p5
  | None => None
  end.

(** The verdict on one more connection described by [conn]. *)
Definition verdict_on (cfg : config_s) (conn : connection) (p : param_s)
  : admission :=
  ListenThread_policy cfg (clientcount p) (cthreads p) (paddr conn).

(** The values used where a property is instantiated: the largest valid
    packet id as ring.h of the ringserver distribution defines it, and a
    transfer log writer that leaves the client record as it is. *)
Definition RINGID_MAXIMUM_v4 : Z := 2 ^ 64 - 11.

Definition WriteTLog_keep (c : ClientInfo) : ClientInfo := c.

(** A pass at clock reading [now] in which nothing else happens. *)
Definition quiet_pass (now : Z) : pass_env :=
  {| hpcurtime := now; stats_clock := fun _ => now;
     spawn_ok := fun _ => true; window_passed := false;
     config_changed := false; calcintwin_ok := true |}.

Definition idle_watchdog (p : param_s) : watchdog :=
  {| wd_param := p; tv_nsec := 250000000;
     ringparams := mkRing 0 0 0 0 0 0 0;
     tlogwrite := false; tlogbasedir := false; closed_fds := [] |}.

(** ** Percent lag, as the specification words it *)

(** An offset in unwrapped coordinates: the ring's max offset is added
    exactly when the offset is below the ring's earliest offset. *)
Definition unwrap_offset (rp : RingParams) (offset : Z) : Z :=
  if offset <? earliestoffset rp then offset + maxoffset rp else offset.

(** The formula of the specification,
    100 * (latest - reader) / (latest - earliest) over the unwrapped
    values, in exact integer arithmetic (the quotient rounded down). *)
Definition lag_percentage (rp : RingParams) (readeroffset : Z) : Z :=
  100 * (unwrap_offset rp (latestoffset rp) - unwrap_offset rp readeroffset)
  / (unwrap_offset rp (latestoffset rp) - earliestoffset rp).

(** The exact percentage is a whole number. *)
Definition whole_percentage (rp : RingParams) (readeroffset : Z) : Prop :=
  (100 * (unwrap_offset rp (latestoffset rp) - unwrap_offset rp readeroffset))
  mod (unwrap_offset rp (latestoffset rp) - earliestoffset rp) = 0.

(** ** The expression of [CalcStats], on its own *)

(** The expression [(int)(((double)num / den) * 100)] of [CalcStats]:
    the quotient is taken in double precision, scaled by 100 and
    truncated toward zero to an [int].  This is the computation of the
    code, not the formula of the specification. *)
Definition double_percent (num den : Z) : option Z :=
  double_to_int (double_of_Z num / double_of_Z den * double_of_Z 100)%float.

(** The same expression at the differences that [CalcStats] forms when
    no [int64_t] operation overflows. *)
Definition double_percent_lag (rp : RingParams) (readeroffset : Z) : option Z :=
  double_percent
    (unwrap_offset rp (latestoffset rp) - unwrap_offset rp readeroffset)
    (unwrap_offset rp (latestoffset rp) - earliestoffset rp).

(** Offsets of a ring of less than 2^62 bytes. *)
Definition ring_offset (z : Z) : Prop := 0 <= z < 2 ^ 62.

Definition ring_offsets (rp : RingParams) : Prop :=
  ring_offset (latestoffset rp) /\ ring_offset (earliestoffset rp) /\
  ring_offset (maxoffset rp).

(** Offsets of a ring of less than 2^52 bytes, which convert to
    [double] without rounding. *)
Definition short_offset (z : Z) : Prop := 0 <= z < 2 ^ 52.

Definition short_ring (rp : RingParams) : Prop :=
  short_offset (latestoffset rp) /\ short_offset (earliestoffset rp) /\
  short_offset (maxoffset rp).

(** The mantissa of the double 100, which is [M100] times 2^-46. *)
Definition M100 : positive := 7036874417766400.

(** A client record as [calloc] leaves it, with the given reader and tx
    counters. *)
Definition client_with (rd : option RingReader) (txp0 txp1 txb0 txb1 : Z)
  : ClientInfo :=
  {| addr := mkSockaddr AF_INET 0x0A000001 [];
     writeperm := false; trusted := false; climitstr := None;
     conntime := 1700000000000000000; lastxchange := 1700000000000000000;
     reader := rd; percentlag := Some 0; ratetime := 0;
     txpackets0 := txp0; txpackets1 := txp1;
     txbytes0 := txb0; txbytes1 := txb1;
     rxpackets0 := 0; rxpackets1 := 0; rxbytes0 := 0; rxbytes1 := 0;
     txpacketrate := 0; txbyterate := 0; rxpacketrate := 0; rxbyterate := 0 |}.

(** A ring that holds a single packet, at offset 4096. *)
Definition ring_one_packet : RingParams := mkRing 4096 4096 1048576 0 0 0 0.

(** A wrapped ring: the earliest packet at 524288, the latest at 8192. *)
Definition ring_wrapped : RingParams := mkRing 8192 524288 1048576 0 0 0 0.

(** ** The idle rule, as the specification words it *)

Definition live (ctp : cthread) : bool :=
  negb (td_state_eqb (ctd_state ctp) TDS_CLOSED).

(** The time since the last exchange exceeds the client timeout. *)
Definition timed_out (cfg : config_s) (now : Z) (ctp : cthread) : Prop :=
  clienttimeout cfg * NSTMODULUS < now - lastxchange (cinfo ctp).

Definition close_pending (ctp : cthread) : Prop :=
  ctd_state ctp = TDS_CLOSE \/ ctd_state ctp = TDS_CLOSING \/
  ctd_state ctp = TDS_CLOSED.

(** What a pass does to the state of a client [ctp], leaving [ctp']: a
    timed out client not yet closing is set to CLOSE, every other
    client keeps its state. *)
Definition idle_rule (cfg : config_s) (now : Z) (ctp ctp' : cthread) : Prop :=
  (timed_out cfg now ctp -> ~ close_pending ctp -> ctd_state ctp' = TDS_CLOSE) /\
  (timed_out cfg now ctp -> close_pending ctp -> ctd_state ctp' = ctd_state ctp) /\
  (~ timed_out cfg now ctp -> ctd_state ctp' = ctd_state ctp).

(** What a whole tick does to the state of a client, [sig] being the
    shutdown flag at the start of the tick: a client not yet closing is
    set to CLOSE when it has timed out or when the tick is the one that
    starts the shutdown ([sig] is 1); every other client keeps its
    state. *)
Definition tick_rule (cfg : config_s) (now sig : Z) (ctp ctp' : cthread)
  : Prop :=
  (sig = 1 \/ timed_out cfg now ctp -> ~ close_pending ctp ->
   ctd_state ctp' = TDS_CLOSE) /\
  (close_pending ctp -> ctd_state ctp' = ctd_state ctp) /\
  (sig <> 1 -> ~ timed_out cfg now ctp -> ctd_state ctp' = ctd_state ctp).

(** A client that exchanged data [idle] seconds before 1700000003 s. *)
Definition client_idle_for (idle : Z) : cthread :=
  mkCthread TDS_ACTIVE
    {| addr := mkSockaddr AF_INET 0x0A000001 [];
       writeperm := false; trusted := false; climitstr := None;
       conntime := 1700000000000000000;
       lastxchange := 1700000003000000000 - idle * NSTMODULUS;
       reader := None; percentlag := Some 0; ratetime := 0;
       txpackets0 := 0; txpackets1 := 0; txbytes0 := 0; txbytes1 := 0;
       rxpackets0 := 0; rxpackets1 := 0; rxbytes0 := 0; rxbytes1 := 0;
       txpacketrate := 0; txbyterate := 0; rxpacketrate := 0;
       rxbyterate := 0 |}.

(** The idle timeout scenario: a timeout of 2 seconds and one active
    client that last exchanged data 3 seconds before the pass. *)
Definition cfg_timeout2 : config_s :=
  {| maxclients := 10; maxclientsperip := 0; clienttimeout := 2;
     limitips := []; matchips := []; rejectips := [];
     writeips := []; trustedips := [] |}.

Definition idle_client : cthread :=
  mkCthread TDS_ACTIVE (client_with None 0 0 0 0).

(** ** The shutdown request, unit by unit *)

(** A listener has its listening socket closed when the descriptor is
    positive, and keeps its state; any other server thread is set to
    CLOSE unless it has no thread or is CLOSING or CLOSED. *)
Definition server_shutdown_rule (stp stp' : sthread) : Prop :=
  match sparams stp with
  | LISTEN_THREAD lpp =>
      std stp' = std stp /\
      sparams stp'
      = LISTEN_THREAD (mkLpp (portstr lpp) (protocols lpp) (options lpp)
                             (if 0 <? socket lpp then -1 else socket lpp))
  | _ =>
      sparams stp' = sparams stp /\
      std stp' = match std stp with
                 | Some TDS_CLOSING => Some TDS_CLOSING
                 | Some TDS_CLOSED => Some TDS_CLOSED
                 | Some _ => Some TDS_CLOSE
                 | None => None
                 end
  end.

(** A client is set to CLOSE unless it is CLOSING or CLOSED. *)
Definition client_shutdown_rule (ctp ctp' : cthread) : Prop :=
  cinfo ctp' = cinfo ctp /\
  ctd_state ctp' = match ctd_state ctp with
                   | TDS_CLOSING => TDS_CLOSING
                   | TDS_CLOSED => TDS_CLOSED
                   | _ => TDS_CLOSE
                   end.

(** The positive listening descriptors of the listeners, in list order. *)
Definition open_listener_sockets (l : list sthread) : list Z :=
  flat_map (fun stp => match sparams stp with
                       | LISTEN_THREAD lpp =>
                           if 0 <? socket lpp then [socket lpp] else []
                       | _ => []
                       end) l.

(** The other threads leave the shutdown flag alone during a schedule:
    no further termination signal arrives. *)
Definition no_further_signal (schedule : list (pass_env * (param_s -> param_s)))
  : Prop :=
  Forall (fun step => forall p, shutdownsig (snd step p) = shutdownsig p) schedule.

(** The graceful shutdown scenario in small: one listener on descriptor
    5, one directory scanner, one active client, and a termination
    signal just recorded. *)
Definition listener_18000 : sthread :=
  mkSthread (LISTEN_THREAD (mkLpp "18000" 7 1 5)) (Some TDS_ACTIVE).

Definition scanner : sthread :=
  mkSthread (MSEEDSCAN_THREAD "/data") (Some TDS_ACTIVE).

Definition shutdown_requested : watchdog :=
  idle_watchdog (mkParam 1 1 [listener_18000; scanner] [idle_client]).

(** A schedule of [n] quiet passes during which no thread does anything. *)
Definition stuck_schedule (n : nat) : list (pass_env * (param_s -> param_s)) :=
  repeat (quiet_pass 1700000003000000000, fun p => p) n.

(** ** Start-up scenarios *)

(** Every rename and unlink succeeds or finds no file. *)
Definition files_ok (env : startup_env) : Prop :=
  (forall a b, fails (rename_result env a b) = false) /\
  (forall a, fails (unlink_result env a) = false).

(** A ring directory "/ring" whose first initialization returns
    [ringinit] with the ring file open on descriptor 4; every file
    operation succeeds, the second initialization succeeds and the
    version-1 loader reports 1200 packets. *)
Definition startup_with (recovery ringinit : Z) : startup_env :=
  {| ringdir := Some "/ring"%string;
     volatilering := false;
     autorecovery := recovery;
     first_ringinit := ringinit;
     first_ringfd := 4;
     rename_result := fun _ _ => SysOk;
     unlink_result := fun _ => SysOk;
     second_ringinit := 0;
     loaded_packets := fun _ => 1200 |}.

(** The same with renames refused (EACCES), and with a loader that
    fails. *)
Definition rename_denied (env : startup_env) : startup_env :=
  {| ringdir := ringdir env; volatilering := volatilering env;
     autorecovery := autorecovery env; first_ringinit := first_ringinit env;
     first_ringfd := first_ringfd env;
     rename_result := fun _ _ => SysErr 13;
     unlink_result := unlink_result env;
     second_ringinit := second_ringinit env;
     loaded_packets := loaded_packets env |}.

Definition loader_fails (env : startup_env) : startup_env :=
  {| ringdir := ringdir env; volatilering := volatilering env;
     autorecovery := autorecovery env; first_ringinit := first_ringinit env;
     first_ringfd := first_ringfd env;
     rename_result := rename_result env;
     unlink_result := unlink_result env;
     second_ringinit := second_ringinit env;
     loaded_packets := fun _ => -1 |}.

(** ** Policy scenarios *)

Definition host (a : Z) : sockaddr := mkSockaddr AF_INET a [].

Definition net4 (network mask : Z) : IPNet :=
  mkIPNet AF_INET network mask [] [] None.

(** Per-address cap 2 with write permission for 127.0.0.1/32. *)
Definition cfg_per_ip : config_s :=
  {| maxclients := 600; maxclientsperip := 2; clienttimeout := 3600;
     limitips := []; matchips := []; rejectips := [];
     writeips := [net4 0x7F000001 0xFFFFFFFF]; trustedips := [] |}.

(** Match list 10.0.0.0/8 with reject list 10.0.0.5/32. *)
Definition cfg_match_reject : config_s :=
  {| maxclients := 600; maxclientsperip := 0; clienttimeout := 3600;
     limitips := []; matchips := [net4 0x0A000000 0xFF000000];
     rejectips := [net4 0x0A000005 0xFFFFFFFF];
     writeips := []; trustedips := [] |}.

Definition connection_from (a : sockaddr) : connection :=
  mkConn a 1700000000000000000 true true true.

(** An IPv6 policy list: 2001:db8::/32, then ::1/128. *)
Definition net6_doc : IPNet :=
  mkIPNet AF_INET6 0 0
    [0x20; 0x01; 0x0d; 0xb8; 0; 0; 0; 0; 0; 0; 0; 0; 0; 0; 0; 0]
    [0xff; 0xff; 0xff; 0xff; 0; 0; 0; 0; 0; 0; 0; 0; 0; 0; 0; 0]
    None.

Definition net6_loopback : IPNet :=
  mkIPNet AF_INET6 0 0
    [0; 0; 0; 0; 0; 0; 0; 0; 0; 0; 0; 0; 0; 0; 0; 1]
    (repeat 0xff 16)
    None.

Definition host6_doc : sockaddr :=
  mkSockaddr AF_INET6 0
    [0x20; 0x01; 0x0d; 0xb8; 0x12; 0x34; 0; 0; 0; 0; 0; 0; 0; 0; 0; 0x99].

(** ** Entries that can match, and addresses outside IP *)

(** The network of an entry lies within its netmask. *)
Definition normalised (n : IPNet) : Prop :=
  (family n = AF_INET /\
   Z.land (network_in n) (netmask_in n) = network_in n)
  \/
  (family n = AF_INET6 /\
   forall i, (i < 16)%nat ->
     Z.land (octet (network_in6 n) i) (octet (netmask_in6 n) i)
     = octet (network_in6 n) i).

(** The address of the network of an entry. *)
Definition network_address (n : IPNet) : sockaddr :=
  mkSockaddr (family n) (network_in n) (network_in6 n).

(** 192.168.1.5 with netmask 255.255.255.0: host bits are set. *)
Definition net_host_bits : IPNet := net4 0xC0A80105 0xFFFFFF00.

(** An address of family AF_UNIX. *)
Definition unix_peer : sockaddr := mkSockaddr 1 0 [].

(** No match list; the limit, reject, write and trusted lists hold the
    entry 0.0.0.0/0, which every IPv4 address matches; both caps set. *)
Definition cfg_all_lists : config_s :=
  {| maxclients := 5; maxclientsperip := 1; clienttimeout := 3600;
     limitips := [mkIPNet AF_INET 0 0 [] [] (Some "XX_*"%string)];
     matchips := []; rejectips := [net4 0 0];
     writeips := [net4 0 0]; trustedips := [net4 0 0] |}.

(** ** Server threads under the watchdog *)

(** A server thread of a type that the watchdog knows how to start. *)
Definition recognised (stp : sthread) : Prop :=
  match sparams stp with OTHER_THREAD _ => False | _ => True end.

(** The unit has a thread that has not ended. *)
Definition running (td : option td_state_t) : Prop :=
  exists st, td = Some st /\ st <> TDS_CLOSED.

(** What a pass in normal service does to one server thread: a running
    thread is left alone, and a recognised unit without a running thread
    gets a new thread when the creation succeeds and none otherwise. *)
Definition supervise_rule (env : pass_env) (stp stp' : sthread) : Prop :=
  sparams stp' = sparams stp /\
  (running (std stp) -> std stp' = std stp) /\
  (~ recognised stp -> std stp' = std stp) /\
  (recognised stp -> ~ running (std stp) ->
   std stp' = if spawn_ok env (sparams stp) then Some TDS_SPAWNING else None).

(** What a pass during shutdown does to one server thread: no thread is
    started, and a recognised unit whose thread has ended is joined. *)
Definition wind_down_rule (stp stp' : sthread) : Prop :=
  (forall st', std stp' = Some st' -> exists st, std stp = Some st) /\
  (recognised stp -> std stp' <> Some TDS_CLOSED).


(** A listener whose thread has ended and a scanner that never started,
    in normal service. *)
Definition servers_down : watchdog :=
  idle_watchdog
    (mkParam 0 0
       [mkSthread (LISTEN_THREAD (mkLpp "18000" 7 1 5)) (Some TDS_CLOSED);
        mkSthread (MSEEDSCAN_THREAD "/data") None]
       []).


(** ** Signals *)

(** What a termination signal does to [param], as the signal thread
    handles it between two passes of the watchdog. *)
Definition termination_signal (p : param_s) : param_s :=
  match SignalThread_switch SIGTERM p with
  | SigHandled p' _ => p'
  | SigExit _ => p
  end.

(** A schedule in which a termination signal arrives after every pass. *)
Definition signalled (envs : list pass_env)
  : list (pass_env * (param_s -> param_s)) :=
  map (fun env => (env, termination_signal)) envs.

(** The signal is the one that asks for the parameters to be printed. *)
Definition requests_print (w : Z + Z) : bool :=
  match w with
  | inr sig => sig =? SIGUSR1
  | inl _ => false
  end.

(** The signal is one of the two that request a shutdown. *)
Definition requests_shutdown (w : Z + Z) : bool :=
  match w with
  | inr sig => (sig =? SIGINT) || (sig =? SIGTERM)
  | inl _ => false
  end.

(** ** Transfer log scenarios *)

(** A watchdog with a transfer log directory configured. *)
Definition logging_watchdog (p : param_s) : watchdog :=
  {| wd_param := p; tv_nsec := 250000000;
     ringparams := mkRing 0 0 0 0 0 0 0;
     tlogwrite := false; tlogbasedir := true; closed_fds := [] |}.

(** A pass at the end of the log window. *)
Definition window_end_pass (now : Z) : pass_env :=
  {| hpcurtime := now; stats_clock := fun _ => now;
     spawn_ok := fun _ => true; window_passed := true;
     config_changed := false; calcintwin_ok := true |}.

(** A transfer log writer that sets the byte counts back to 0. *)
Definition WriteTLog_reset (c : ClientInfo) : ClientInfo :=
  {| addr := addr c; writeperm := writeperm c; trusted := trusted c;
     climitstr := climitstr c; conntime := conntime c;
     lastxchange := lastxchange c; reader := reader c;
     percentlag := percentlag c; ratetime := ratetime c;
     txpackets0 := txpackets0 c; txpackets1 := txpackets1 c;
     txbytes0 := 0; txbytes1 := txbytes1 c;
     rxpackets0 := rxpackets0 c; rxpackets1 := rxpackets1 c;
     rxbytes0 := 0; rxbytes1 := rxbytes1 c;
     txpacketrate := txpacketrate c; txbyterate := txbyterate c;
     rxpacketrate := rxpacketrate c; rxbyterate := rxbyterate c |}.

(** One active client that has sent 5 packets of 1000 bytes in all. *)
Definition sending_client : cthread :=
  mkCthread TDS_ACTIVE (client_with None 5 0 1000 0).

(** The sum of one rate over the client records, taken in list order
    from 0. *)
Definition rate_sum (r : ClientInfo -> float) (l : list cthread) : float :=
  fold_left (fun s ctp => (s + r (cinfo ctp))%float) l 0%float.

(** ** Rates at the edges of the elapsed time *)

(** A counter and its history as [CalcStats] expects them: the counter
    has not gone down, and is below 2^63. *)
Definition counter_pair (current history : Z) : Prop :=
  0 <= history <= current /\ current < 2 ^ 63.

(** The rate over an elapsed time of 0 seconds. *)
Definition stalled_rate (current history : Z) : float :=
  if current =? history then nan else infinity.

(** The client record with the rate timestamp [t]. *)
Definition stamped (t : Z) (c : ClientInfo) : ClientInfo :=
  {| addr := addr c; writeperm := writeperm c; trusted := trusted c;
     climitstr := climitstr c; conntime := conntime c;
     lastxchange := lastxchange c; reader := reader c;
     percentlag := percentlag c; ratetime := t;
     txpackets0 := txpackets0 c; txpackets1 := txpackets1 c;
     txbytes0 := txbytes0 c; txbytes1 := txbytes1 c;
     rxpackets0 := rxpackets0 c; rxpackets1 := rxpackets1 c;
     rxbytes0 := rxbytes0 c; rxbytes1 := rxbytes1 c;
     txpacketrate := txpacketrate c; txbyterate := txbyterate c;
     rxpacketrate := rxpacketrate c; rxbyterate := rxbyterate c |}.

(** ** Listener scenarios *)

(** The bits of the listener flags as the ringserver distribution
    declares them, used where a property is instantiated. *)
Definition PROTO_DATALINK_v4 : Z := 1.
Definition PROTO_SEEDLINK_v4 : Z := 2.
Definition PROTO_HTTP_v4 : Z := 4.
Definition ENCRYPTION_TLS_v4 : Z := 1.
Definition FAMILY_IPv4_v4 : Z := 2.
Definition FAMILY_IPv6_v4 : Z := 4.
Definition FAMILY_UNIX_v4 : Z := 8.

(** The allocations before the thread is created, taken together. *)
Definition allocations_ok (mseedarchive : bool) (a : arrival) : bool :=
  cinfo_ok a && addr_ok a && (negb mseedarchive || mswrite_ok a) && tdata_ok a.

(** A failure that ends the accept loop: an error of [accept] other
    than the two transient ones, or a failed allocation. *)
Definition hard_failure (mseedarchive : bool) (a : arrival) : Prop :=
  (exists errno, accept_r a = AcceptErrno errno /\
                 errno <> ECONNABORTED /\ errno <> EINTR) \/
  (exists fd, accept_r a = AcceptSocket fd /\
              (allocations_ok mseedarchive a = false \/ cnode_ok a = false)).

(** An IPv4 listener on port 18000, and a connection from 10.0.0.1 on
    descriptor 7 for which everything succeeds. *)
Definition lpp_18000 : ListenPortParams := mkLpp "18000" 7 2 5.

Definition arrival_from (a : sockaddr) (fd : Z) : arrival :=
  {| accept_r := AcceptSocket fd; peer := a; nameinfo_ok := true;
     arrival_now := 1700000000000000000;
     cinfo_ok := true; addr_ok := true; mswrite_ok := true;
     tdata_ok := true; thread_ok := true; cnode_ok := true |}.

(** The same with the list node not allocated. *)
Definition arrival_without_node (a : sockaddr) (fd : Z) : arrival :=
  {| accept_r := AcceptSocket fd; peer := a; nameinfo_ok := true;
     arrival_now := 1700000000000000000;
     cinfo_ok := true; addr_ok := true; mswrite_ok := true;
     tdata_ok := true; thread_ok := true; cnode_ok := false |}.

(** The address buffer of a listener before the first [accept]. *)
Definition blank_storage : sockaddr := mkSockaddr 0 0 [].

(** An [accept] that fails with [errno]. *)
Definition arrival_failed (errno : Z) : arrival :=
  {| accept_r := AcceptErrno errno; peer := mkSockaddr 0 0 [];
     nameinfo_ok := true; arrival_now := 1700000000000000000;
     cinfo_ok := true; addr_ok := true; mswrite_ok := true;
     tdata_ok := true; thread_ok := true; cnode_ok := true |}.

(** ** Start-up and exit *)

Definition is_init (e : event) : bool :=
  match e with EvRingInitialize _ _ => true | _ => false end.

(** The number of calls of [RingInitialize] among the events. *)
Definition init_calls (events : list event) : nat :=
  List.length (filter is_init events).

(** A start-up in which the stream index cannot be renamed (EACCES)
    after the ring file has been. *)
Definition stream_rename_denied (env : startup_env) : startup_env :=
  {| ringdir := ringdir env; volatilering := volatilering env;
     autorecovery := autorecovery env; first_ringinit := first_ringinit env;
     first_ringfd := first_ringfd env;
     rename_result := fun a _ => if String.eqb a (streamfilename env)
                                 then SysErr 13 else SysOk;
     unlink_result := unlink_result env;
     second_ringinit := second_ringinit env;
     loaded_packets := loaded_packets env |}.

(** A run of main in which every call succeeds, with the given start-up
    and schedule of the watchdog. *)
Definition main_with (start : startup_env) (tlog : bool)
    (servers : list sthread)
    (schedule : list (pass_env * (param_s -> param_s))) : main_env :=
  {| processparam_r := 0; sigfillset_r := 0; sigmask_r := 0;
     sigthread_r := 0; tcp_known := true;
     main_startup := start;
     tlog_configured := tlog; first_calcintwin_r := 0;
     main_servers := servers;
     main_ring := mkRing 0 0 0 0 0 0 0;
     main_schedule := schedule;
     ringshutdown_r := 0; cancel_r := 0; join_r := 0 |}.

(** A pass after which the signal thread records a termination signal,
    and a pass in which the interval window cannot be calculated. *)
Definition pass_then_signal : pass_env * (param_s -> param_s) :=
  (quiet_pass 1700000003000000000, termination_signal).

Definition pass_interval_error : pass_env * (param_s -> param_s) :=
  ({| hpcurtime := 1700000003000000000;
      stats_clock := fun _ => 1700000003000000000;
      spawn_ok := fun _ => true; window_passed := true;
      config_changed := false; calcintwin_ok := false |},
   fun p => p).

(** ** The client list in memory and the list it stands for *)

(** The nodes from [cur] on are those of [l], in order, each with its
    thread data, linked backward to [prev] and forward up to [stop]. *)
Fixpoint dllseg (h : nat -> option cnode) (prev cur : option nat)
    (l : list (nat * cthread)) (stop : option nat) : Prop :=
  match l with
  | [] => cur = stop
  | (p, td) :: rest =>
      cur = Some p /\
      exists next, h p = Some (mkCnode td prev next) /\
                   dllseg h (Some p) next rest stop
  end.

(** The memory holds the list [l] of nodes, each once. *)
Definition represents (cl : clist) (l : list (nat * cthread)) : Prop :=
  dllseg (cl_nodes cl) None (cl_head cl) l None /\ NoDup (map fst l).

(** The address of the last node of [l], or [prev] for no node. *)
Fixpoint last_ptr (prev : option nat) (l : list (nat * cthread))
  : option nat :=
  match l with
  | [] => prev
  | (p, _) :: rest => last_ptr (Some p) rest
  end.

Definition first_ptr (l : list (nat * cthread)) : option nat :=
  match l with
  | (p, _) :: _ => Some p
  | [] => None
  end.

(** Three clients at the addresses 30, 20 and 10, the one in the middle
    CLOSED. *)
Definition three_nodes : clist :=
  mkClist
    (fun q =>
       if Nat.eqb q 30 then Some (mkCnode sending_client None (Some 20%nat))
       else if Nat.eqb q 20 then
         Some (mkCnode (mkCthread TDS_CLOSED (client_with None 0 0 0 0))
                 (Some 30%nat) (Some 10%nat))
       else if Nat.eqb q 10 then Some (mkCnode idle_client (Some 20%nat) None)
       else None)
    (Some 30%nat).

Definition three_clients : list (nat * cthread) :=
  [(30%nat, sending_client);
   (20%nat, mkCthread TDS_CLOSED (client_with None 0 0 0 0));
   (10%nat, idle_client)].


(** Offsets of a ring of less than 2^42 bytes (4 TiB). *)
Definition tebi_offset (z : Z) : Prop := 0 <= z < 2 ^ 42.

Definition tebi_ring (rp : RingParams) : Prop :=
  tebi_offset (latestoffset rp) /\ tebi_offset (earliestoffset rp) /\
  tebi_offset (maxoffset rp).

(** A ring of 100 bytes that has not wrapped. *)
Definition ring_100 : RingParams := mkRing 100 0 100 0 0 0 0.
(** * Properties *)

(** ** The IP matcher *)

Lemma octets_match_iff test mask net :
  forallb (octet_match test mask net) (seq 0 16) = true <->
  forall i, (i < 16)%nat -> Z.land (octet test i) (octet mask i) = octet net i.
Proof.
  rewrite forallb_forall. split.
  - intros H i Hi. apply Z.eqb_eq. apply (H i). apply in_seq. lia.
  - intros H i Hi. apply Z.eqb_eq. apply H. apply in_seq in Hi. lia.
Qed.

Lemma entry_matches_iff a n : entry_matches a n = true <-> ip_match a n.
Proof.
  unfold entry_matches, ip_match.
  destruct (sa_family a =? AF_INET) eqn:Ha4;
    destruct (family n =? AF_INET) eqn:Hn4;
    destruct (sa_family a =? AF_INET6) eqn:Ha6;
    destruct (family n =? AF_INET6) eqn:Hn6; cbn [andb];
    rewrite ?octets_match_iff, ?Z.eqb_eq;
    repeat match goal with
           | H : (_ =? _) = true |- _ => apply Z.eqb_eq in H
           | H : (_ =? _) = false |- _ => apply Z.eqb_neq in H
           end;
    unfold AF_INET, AF_INET6 in *;
    try (split; [ intros H | intros [H | H] ]; try discriminate;
         intuition (try congruence; try lia)).
Qed.

Lemma entry_matches_false_iff a n : entry_matches a n = false <-> ~ ip_match a n.
Proof.
  rewrite <- entry_matches_iff. destruct (entry_matches a n); intuition congruence.
Qed.

Lemma MatchIP_loop_some l a n :
  MatchIP_loop l a = Some n <->
  exists pre post, l = pre ++ n :: post /\ ip_match a n /\
                   Forall (fun m => ~ ip_match a m) pre.
Proof.
  induction l as [| m l IH]; cbn [MatchIP_loop].
  - split; [ discriminate | intros (pre & post & E & _) ].
    destruct pre; discriminate.
  - destruct (entry_matches a m) eqn:Hm.
    + split.
      * intros [= ->]. exists [], l. repeat split; auto.
        now apply entry_matches_iff.
      * intros (pre & post & E & Hn & Hpre). destruct pre as [| m' pre].
        -- now injection E as -> _.
        -- injection E as -> _. inversion Hpre; subst.
           apply entry_matches_iff in Hm. contradiction.
    + rewrite IH. apply entry_matches_false_iff in Hm. split.
      * intros (pre & post & -> & Hn & Hpre). exists (m :: pre), post.
        repeat split; auto.
      * intros (pre & post & E & Hn & Hpre). destruct pre as [| m' pre].
        -- injection E as -> _. contradiction.
        -- injection E as -> ->. inversion Hpre; subst. now exists pre, post.
Qed.

Lemma MatchIP_loop_none l a :
  MatchIP_loop l a = None <-> Forall (fun m => ~ ip_match a m) l.
Proof.
  induction l as [| m l IH]; cbn [MatchIP_loop].
  - split; auto.
  - destruct (entry_matches a m) eqn:Hm.
    + split; [ discriminate | ]. intros H. inversion H; subst.
      apply entry_matches_iff in Hm. contradiction.
    + rewrite IH. apply entry_matches_false_iff in Hm. split.
      * now constructor.
      * intros H. now inversion H.
Qed.

Lemma ip_match_family a n :
  ip_match a n ->
  family n = sa_family a /\ (sa_family a = AF_INET \/ sa_family a = AF_INET6).
Proof. intros [(-> & -> & _) | (-> & -> & _)]; auto. Qed.

Lemma MatchIP_is_loop l a :
  sa_family a = AF_INET \/ sa_family a = AF_INET6 ->
  MatchIP l a = MatchIP_loop l a.
Proof.
  intros H. unfold MatchIP. destruct l as [| m l]; [ reflexivity | ].
  destruct H as [-> | ->]; reflexivity.
Qed.

Lemma MatchIP_other_family l a :
  sa_family a <> AF_INET -> sa_family a <> AF_INET6 -> MatchIP l a = None.
Proof.
  intros H4 H6. unfold MatchIP. destruct l; [ reflexivity | ].
  apply Z.eqb_neq in H4, H6. now rewrite H4, H6.
Qed.

Lemma no_match_other_family l a :
  sa_family a <> AF_INET -> sa_family a <> AF_INET6 ->
  Forall (fun m => ~ ip_match a m) l.
Proof.
  intros H4 H6. apply Forall_forall. intros m _ Hm.
  apply ip_match_family in Hm. intuition.
Qed.

(** C9.  [MatchIP] returns the first entry of the list, in list order,
    that matches the address, and NULL when no entry matches, where an
    entry matches exactly as [ip_match] says: the masked IPv4 address
    equals the network, or all 16 masked IPv6 octets equal those of the
    network.  An entry whose family differs from the address's never
    matches, and an address that is neither IPv4 nor IPv6 matches
    nothing. *)
Theorem MatchIP_first_match (l : list IPNet) (a : sockaddr) :
  (forall n, MatchIP l a = Some n <->
             exists pre post, l = pre ++ n :: post /\ ip_match a n /\
                              Forall (fun m => ~ ip_match a m) pre) /\
  (MatchIP l a = None <-> Forall (fun m => ~ ip_match a m) l) /\
  (forall n, family n <> sa_family a -> ~ ip_match a n) /\
  (sa_family a <> AF_INET -> sa_family a <> AF_INET6 ->
   forall n, ~ ip_match a n).
Proof.
  assert (Hfam : forall n, family n <> sa_family a -> ~ ip_match a n).
  { intros n Hne Hm. apply ip_match_family in Hm. intuition. }
  assert (Hoth : sa_family a <> AF_INET -> sa_family a <> AF_INET6 ->
                 forall n, ~ ip_match a n).
  { intros H4 H6 n Hm. apply ip_match_family in Hm. intuition. }
  repeat split; auto.
  - destruct (Z.eq_dec (sa_family a) AF_INET) as [H4 | H4];
      [ | destruct (Z.eq_dec (sa_family a) AF_INET6) as [H6 | H6] ].
    + rewrite MatchIP_is_loop by auto. apply MatchIP_loop_some.
    + rewrite MatchIP_is_loop by auto. apply MatchIP_loop_some.
    + rewrite MatchIP_other_family by auto. discriminate.
  - destruct (Z.eq_dec (sa_family a) AF_INET) as [H4 | H4];
      [ | destruct (Z.eq_dec (sa_family a) AF_INET6) as [H6 | H6] ].
    + rewrite MatchIP_is_loop by auto. apply MatchIP_loop_some.
    + rewrite MatchIP_is_loop by auto. apply MatchIP_loop_some.
    + intros (pre & post & _ & Hm & _). exfalso. eapply Hoth; eauto.
  - destruct (Z.eq_dec (sa_family a) AF_INET) as [H4 | H4];
      [ | destruct (Z.eq_dec (sa_family a) AF_INET6) as [H6 | H6] ].
    + rewrite MatchIP_is_loop by auto. apply MatchIP_loop_none.
    + rewrite MatchIP_is_loop by auto. apply MatchIP_loop_none.
    + intros _. now apply no_match_other_family.
  - destruct (Z.eq_dec (sa_family a) AF_INET) as [H4 | H4];
      [ | destruct (Z.eq_dec (sa_family a) AF_INET6) as [H6 | H6] ].
    + rewrite MatchIP_is_loop by auto. apply MatchIP_loop_none.
    + rewrite MatchIP_is_loop by auto. apply MatchIP_loop_none.
    + intros _. now apply MatchIP_other_family.
Qed.

(** The matcher on concrete lists: the first matching entry wins, an
    IPv4 address never matches an IPv6 entry, and an address of another
    family (here AF_UNIX, 1) matches nothing. *)
Example MatchIP_examples :
  MatchIP [net6_loopback; net6_doc; net4 0 0] host6_doc = Some net6_doc /\
  MatchIP [net6_loopback; net6_doc; net4 0 0] (host 0x0A000005)
  = Some (net4 0 0) /\
  MatchIP [net6_loopback; net6_doc] (host 0x0A000005) = None /\
  MatchIP [net4 0 0] (mkSockaddr 1 0 []) = None.
Proof.
  repeat apply conj; vm_compute; reflexivity.
Qed.

(** ** The admission policy *)

Lemma nonempty_true {A : Type} (l : list A) :
  (match l with [] => false | _ => true end) = true <-> l <> [].
Proof. destruct l; split; congruence. Qed.

Lemma matched_false r : matched r = false <-> r = None.
Proof. destruct r; cbn; split; congruence. Qed.

Lemma matched_true r : matched r = true <-> exists n, r = Some n.
Proof.
  destruct r; cbn; split; try congruence; eauto.
  intros [n Hn]. discriminate.
Qed.

Lemma MatchIP_nil a : MatchIP [] a = None.
Proof. reflexivity. Qed.

Lemma outside_match_list_dec cfg a :
  (match matchips cfg with [] => false | _ => true end)
  && negb (matched (MatchIP (matchips cfg) a)) = true
  <-> outside_match_list cfg a.
Proof.
  unfold outside_match_list.
  rewrite andb_true_iff, negb_true_iff, nonempty_true, matched_false. tauto.
Qed.

Lemma on_reject_list_dec cfg a :
  (match rejectips cfg with [] => false | _ => true end)
  && matched (MatchIP (rejectips cfg) a) = true
  <-> on_reject_list cfg a.
Proof.
  unfold on_reject_list.
  rewrite andb_true_iff, nonempty_true, matched_true. split.
  - tauto.
  - intros [n Hn]. split; eauto. intros E. rewrite E in Hn. discriminate.
Qed.

Lemma over_ip_cap_dec cfg clients a :
  negb (maxclientsperip cfg =? 0) && negb (write_listed cfg a)
  && (maxclientsperip cfg <=? u32 (ClientIPCount clients a)) = true
  <-> over_ip_cap cfg clients a.
Proof.
  unfold over_ip_cap.
  rewrite !andb_true_iff, !negb_true_iff, Z.eqb_neq, Z.leb_le. tauto.
Qed.

Lemma global_cap_reached_dec cfg count :
  negb (maxclients cfg =? 0) && (maxclients cfg <=? u32 count) = true
  <-> global_cap_reached cfg count.
Proof.
  unfold global_cap_reached.
  rewrite andb_true_iff, negb_true_iff, Z.eqb_neq, Z.leb_le. tauto.
Qed.

Ltac policy_cases cfg count clients a :=
  unfold ListenThread_policy;
  pose proof (outside_match_list_dec cfg a) as Hm;
  pose proof (on_reject_list_dec cfg a) as Hr;
  pose proof (over_ip_cap_dec cfg clients a) as Hi;
  pose proof (global_cap_reached_dec cfg count) as Hg;
  destruct ((match matchips cfg with [] => false | _ => true end)
            && negb (matched (MatchIP (matchips cfg) a)));
  [ | destruct ((match rejectips cfg with [] => false | _ => true end)
                && matched (MatchIP (rejectips cfg) a));
      [ | destruct (negb (maxclientsperip cfg =? 0) && negb (write_listed cfg a)
                    && (maxclientsperip cfg <=? u32 (ClientIPCount clients a)));
          [ | destruct (negb (maxclients cfg =? 0)
                        && (maxclients cfg <=? u32 count));
              [ destruct (write_listed cfg a
                          && (u32 count
                              <=? u32 (maxclients cfg + RESERVECONNECTIONS)))
              | ] ] ] ].

(** C3.  The listener decides in a fixed order: a connection outside a
    non-empty match list is rejected whatever the other settings are; a
    connection that passed the match list and is on the reject list is
    rejected whatever the caps are; the per-address cap is looked at
    only then, and the global cap only after it.  The per-address cap is
    never the reason to reject a source on the write list. *)
Theorem policy_order (cfg : config_s) (count : Z) (clients : list cthread)
    (a : sockaddr) :
  let verdict := ListenThread_policy cfg count clients a in
  (verdict = RejectNonMatching <-> outside_match_list cfg a) /\
  (verdict = RejectListed <->
     ~ outside_match_list cfg a /\ on_reject_list cfg a) /\
  (verdict = RejectTooManyFromIP <->
     ~ outside_match_list cfg a /\ ~ on_reject_list cfg a /\
     over_ip_cap cfg clients a) /\
  (verdict = RejectMaxClients \/ verdict = AllowReserve <->
     ~ outside_match_list cfg a /\ ~ on_reject_list cfg a /\
     ~ over_ip_cap cfg clients a /\ global_cap_reached cfg count) /\
  (verdict = Allow <->
     ~ outside_match_list cfg a /\ ~ on_reject_list cfg a /\
     ~ over_ip_cap cfg clients a /\ ~ global_cap_reached cfg count) /\
  (write_listed cfg a = true -> verdict <> RejectTooManyFromIP).
Proof.
  cbv zeta.
  assert (Hw : write_listed cfg a = true -> ~ over_ip_cap cfg clients a).
  { intros Hw (_ & Hn & _). congruence. }
  policy_cases cfg count clients a;
    repeat match goal with
           | H : true = true <-> ?A |- _ =>
               assert A by (apply H; reflexivity); clear H
           | H : false = true <-> ?A |- _ =>
               assert (~ A) by (intros HA; apply H in HA; discriminate); clear H
           | H : _ <-> _ |- _ => clear H
           end;
    intuition (try discriminate; try congruence).
Qed.

(** The per-address cap with the write exemption: three connections
    from 127.0.0.1 are all accepted; of three from 10.0.0.5 the third is
    rejected. *)
Example per_ip_cap_scenario :
  option_map clientcount
    (connect_n cfg_per_ip 3 (connection_from (host 0x7F000001)) (param_init []))
  = Some 3 /\
  option_map clientcount
    (connect_n cfg_per_ip 3 (connection_from (host 0x0A000005)) (param_init []))
  = Some 2 /\
  option_map (verdict_on cfg_per_ip (connection_from (host 0x0A000005)))
    (connect_n cfg_per_ip 2 (connection_from (host 0x0A000005)) (param_init []))
  = Some RejectTooManyFromIP.
Proof.
  repeat apply conj; vm_compute; reflexivity.
Qed.

(** Match and reject precedence: 10.0.0.5 is rejected by the reject
    list inside the match list, 10.0.0.6 is accepted, 192.0.2.1 is
    outside the match list. *)
Example match_reject_scenario :
  ListenThread_policy cfg_match_reject 0 [] (host 0x0A000005) = RejectListed /\
  ListenThread_policy cfg_match_reject 0 [] (host 0x0A000006) = Allow /\
  ListenThread_policy cfg_match_reject 0 [] (host 0xC0000201) = RejectNonMatching.
Proof.
  repeat apply conj; vm_compute; reflexivity.
Qed.

(** ** The client count *)

Lemma dispatch_count cfg p conn p' ctl :
  ListenThread_dispatch cfg p conn = Some (p', ctl) ->
  p' = p \/
  (clientcount p' = clientcount p + 1 /\
   List.length (cthreads p') = S (List.length (cthreads p)) /\
   clientcount p < INT_MAX /\
   accepted (ListenThread_policy cfg (clientcount p) (cthreads p) (paddr conn))
   = true).
Proof.
  unfold ListenThread_dispatch.
  destruct (accepted _) eqn:Hacc; [ | intros [= <- _]; now left ].
  destruct (alloc_ok conn); cbn [negb]; [ | intros [= <- _]; now left ].
  destruct (create_ok conn); cbn [negb]; [ | intros [= <- _]; now left ].
  destruct (node_ok conn); cbn [negb]; [ | intros [= <- _]; now left ].
  destruct (clientcount p <? INT_MAX) eqn:Hlt; [ | discriminate ].
  intros [= <- _]. right. cbn. apply Z.ltb_lt in Hlt. auto.
Qed.

Section Invariants.

Variable RINGID_MAXIMUM : Z.
Variable WriteTLog : ClientInfo -> ClientInfo.

(** The client pass decrements the count once per CLOSED client, and
    only while the count is positive. *)
Lemma watch_clients_count cfg rp env write_tlog l : forall i count acc,
  0 <= count ->
  0 <= snd (fst (watch_clients RINGID_MAXIMUM WriteTLog cfg rp env write_tlog
                   i l count acc)) <= count.
Proof.
  induction l as [| ctp l IH]; intros i count acc Hc; cbn [watch_clients].
  - cbn. lia.
  - destruct (td_state_eqb (ctd_state ctp) TDS_CLOSED).
    + destruct (0 <? count) eqn:Hpos.
      * apply Z.ltb_lt in Hpos.
        specialize (IH i (count - 1) acc ltac:(lia)). lia.
      * now apply IH.
    + match goal with
      | |- context [watch_clients _ _ _ _ _ _ (S i) l count ?a] =>
          specialize (IH (S i) count a Hc)
      end.
      destruct (watch_clients _ _ _ _ _ _ _ _ _ _) as [[l' count'] acc'].
      exact IH.
Qed.

Lemma begin_shutdown_count w :
  clientcount (wd_param (begin_shutdown w)) = clientcount (wd_param w).
Proof.
  unfold begin_shutdown. destruct (shutdownsig (wd_param w) =? 1); [ | reflexivity ].
  destruct (request_servers_shutdown _). reflexivity.
Qed.

Lemma watchdog_pass_count cfg env w w' e :
  watchdog_pass RINGID_MAXIMUM WriteTLog cfg env w = (w', e) ->
  0 <= clientcount (wd_param w) ->
  0 <= clientcount (wd_param w') <= clientcount (wd_param w).
Proof.
  unfold watchdog_pass. intros H Hc.
  pose proof (begin_shutdown_count w) as Hb.
  destruct (shutdown_valve _) as [sig |].
  - destruct (watch_servers _ _ _) as [servers servercount].
    match type of H with
    | context [watch_clients _ _ ?c ?r ?e ?t ?i ?l ?n ?a] =>
        pose proof (watch_clients_count c r e t l i n a) as Hw
    end.
    destruct (watch_clients _ _ _ _ _ _ _ _ _ _) as [[clients count] sums].
    cbn [fst snd] in Hw.
    repeat match type of H with
           | context [if ?b then _ else _] => destruct b
           end;
      injection H as <- _; cbn; lia.
  - injection H as <- _. lia.
Qed.

Lemma step_count cfg p p' :
  step RINGID_MAXIMUM WriteTLog cfg p p' ->
  0 <= clientcount p -> 0 <= clientcount p'.
Proof.
  intros H Hc. destruct H as [p conn p' ctl H | env w w' e H | p | p servers clients _].
  - apply dispatch_count in H. destruct H as [-> | (-> & _)]; lia.
  - apply watchdog_pass_count in H; lia.
  - exact Hc.
  - exact Hc.
Qed.

(** C10.  In every state that the process can reach from its initial
    state by connections handled by listeners, passes of the watchdog
    (which reap CLOSED clients), termination signals and state changes
    of the worker threads, the client count is not negative. *)
Theorem clientcount_never_negative (cfg : config_s) (servers : list sthread)
    (p : param_s) :
  reachable RINGID_MAXIMUM WriteTLog cfg servers p -> 0 <= clientcount p.
Proof.
  induction 1 as [| p p' _ IH Hstep].
  - cbn. lia.
  - eapply step_count; eauto.
Qed.




Lemma watch_clients_length cfg rp env write_tlog l : forall i count acc k,
  0 <= k ->
  count = Z.of_nat (List.length l) + k ->
  snd (fst (watch_clients RINGID_MAXIMUM WriteTLog cfg rp env write_tlog
              i l count acc))
  = Z.of_nat (List.length
                (fst (fst (watch_clients RINGID_MAXIMUM WriteTLog cfg rp env
                             write_tlog i l count acc)))) + k.
Proof.
  induction l as [| ctp l IH]; intros i count acc k Hk Hc; cbn [watch_clients].
  - exact Hc.
  - cbn [List.length] in Hc. rewrite Nat2Z.inj_succ in Hc.
    destruct (td_state_eqb (ctd_state ctp) TDS_CLOSED).
    + assert (Hpos : (0 <? count) = true) by (apply Z.ltb_lt; lia).
      rewrite Hpos. apply IH; lia.
    + match goal with
      | |- context [watch_clients _ _ _ _ _ _ (S i) l count ?a] =>
          specialize (IH (S i) count a (k + 1) ltac:(lia) ltac:(lia))
      end.
      destruct (watch_clients _ _ _ _ _ _ _ _ _ _) as [[l' count'] acc'].
      cbn [fst snd List.length] in *. lia.
Qed.

Lemma request_clients_shutdown_length l :
  List.length (request_clients_shutdown l) = List.length l.
Proof.
  induction l as [| ctp l IH]; cbn [request_clients_shutdown List.length];
    congruence.
Qed.

Lemma begin_shutdown_clients_length w :
  List.length (cthreads (wd_param (begin_shutdown w)))
  = List.length (cthreads (wd_param w)).
Proof.
  unfold begin_shutdown. destruct (shutdownsig (wd_param w) =? 1); [ | reflexivity ].
  destruct (request_servers_shutdown _). cbn.
  apply request_clients_shutdown_length.
Qed.




End Invariants.

(** The count after a connection, a close of the client by its worker
    thread, and a pass of the watchdog that reaps it. *)
Lemma clientcount_never_negative_witness :
  let p := mkParam 0 0 [] [] in
  reachable RINGID_MAXIMUM_v4 WriteTLog_keep cfg_cap5 [] p /\ 0 <= clientcount p.
Proof.
  assert (H : reachable RINGID_MAXIMUM_v4 WriteTLog_keep cfg_cap5 []
                (mkParam 0 0 [] [])).
  { pose (c := new_client cfg_cap5 from_10_0_0_1).
    apply reach_step with
      (p := wd_param (idle_watchdog (mkParam 1 0 [] [mkCthread TDS_CLOSED c]))).
    - apply reach_step with (p := mkParam 1 0 [] [mkCthread TDS_SPAWNING c]).
      + apply reach_step with (p := param_init []).
        * apply reach_init.
        * apply step_listen with (conn := from_10_0_0_1) (ctl := Continue).
          reflexivity.
      + apply (step_workers _ _ _ (mkParam 1 0 [] [mkCthread TDS_SPAWNING c])
                 [] [mkCthread TDS_CLOSED c]).
        reflexivity.
    - apply (step_watchdog _ _ _ (quiet_pass 1700000001000000000)
               (idle_watchdog (mkParam 1 0 [] [mkCthread TDS_CLOSED c]))
               (idle_watchdog (mkParam 0 0 [] [])) None).
      reflexivity. }
  split; [ exact H | ].
  exact (clientcount_never_negative RINGID_MAXIMUM_v4 WriteTLog_keep cfg_cap5 []
           (mkParam 0 0 [] []) H).
Defined.



(** ** The global cap and its reserve *)

(** C1.  With [maxclients] 5 and write permission for 10.0.0.0/8, after
    5 clients from 192.0.2.1 and 10 from 10.0.0.1 the count is 15, the
    cap plus the reserve of 10; the listener still allows the next
    connection from 10.0.0.1 in the reserve, which makes 16 concurrent
    clients, and rejects only the one after that. *)
Theorem reserve_admits_one_too_many :
  option_map clientcount (scenario_cap 10) = Some 15 /\
  maxclients cfg_cap5 + RESERVECONNECTIONS = 15 /\
  option_map (verdict_on cfg_cap5 from_10_0_0_1) (scenario_cap 10)
  = Some AllowReserve /\
  option_map clientcount (scenario_cap 11) = Some 16 /\
  option_map (fun p => List.length (cthreads p)) (scenario_cap 11)
  = Some 16%nat /\
  option_map (verdict_on cfg_cap5 from_10_0_0_1) (scenario_cap 11)
  = Some RejectMaxClients /\
  option_map clientcount (scenario_cap 12) = Some 16.
Proof.
  repeat split; vm_compute; reflexivity.
Qed.

(** ** Percent lag *)

Lemma in_int64_small z : - 2 ^ 63 <= z < 2 ^ 63 -> in_int64 z = Some z.
Proof.
  intros H. unfold in_int64, INT64_MIN, INT64_MAX.
  destruct (- 2 ^ 63 <=? z) eqn:H1; destruct (z <=? 2 ^ 63 - 1) eqn:H2;
    try reflexivity; apply Z.leb_gt in H1 || apply Z.leb_gt in H2; lia.
Qed.

Lemma unwrap_offset_range rp z :
  ring_offsets rp -> ring_offset z -> 0 <= unwrap_offset rp z < 2 ^ 63.
Proof.
  unfold ring_offsets, ring_offset, unwrap_offset. intros (Hl & He & Hm) Hz.
  destruct (z <? earliestoffset rp); lia.
Qed.

Lemma unwrapped_unwrap rp z :
  ring_offsets rp -> ring_offset z -> unwrapped rp z = Some (unwrap_offset rp z).
Proof.
  intros Hrp Hz. pose proof (unwrap_offset_range rp z Hrp Hz) as Hr.
  unfold unwrapped, unwrap_offset in *.
  destruct (z <? earliestoffset rp); [ | reflexivity ].
  apply in_int64_small. lia.
Qed.

Section Statistics.

Variable RINGID_MAXIMUM : Z.

Lemma CalcStats_percentlag_valid (rp : RingParams) (c : ClientInfo)
    (rd : RingReader) :
  ring_offsets rp -> ring_offset (pktoffset rd) ->
  reader c = Some rd -> pktid rd <= RINGID_MAXIMUM ->
  CalcStats_percentlag RINGID_MAXIMUM rp c = double_percent_lag rp (pktoffset rd).
Proof.
  intros Hrp Hrd E Hid. unfold CalcStats_percentlag. rewrite E.
  apply Z.leb_le in Hid. rewrite Hid.
  assert (Hl : ring_offset (latestoffset rp)) by apply Hrp.
  rewrite (unwrapped_unwrap rp (latestoffset rp) Hrp Hl).
  rewrite (unwrapped_unwrap rp (pktoffset rd) Hrp Hrd).
  pose proof (unwrap_offset_range rp _ Hrp Hl) as Rl.
  pose proof (unwrap_offset_range rp _ Hrp Hrd) as Rr.
  cbn [obind]. rewrite in_int64_small by lia. cbn [obind].
  rewrite in_int64_small
    by (destruct Hrp as (_ & He & _); unfold ring_offset in He; lia).
  reflexivity.
Qed.

(** Without a reader, or with a packet id above the largest valid id,
    the stored percent lag is 0. *)
Lemma CalcStats_percentlag_no_position (rp : RingParams) (c : ClientInfo) :
  (reader c = None -> CalcStats_percentlag RINGID_MAXIMUM rp c = Some 0) /\
  (forall rd, reader c = Some rd -> RINGID_MAXIMUM < pktid rd ->
   CalcStats_percentlag RINGID_MAXIMUM rp c = Some 0).
Proof.
  unfold CalcStats_percentlag. split.
  - intros ->. reflexivity.
  - intros rd -> Hid. apply Z.leb_gt in Hid. now rewrite Hid.
Qed.

End Statistics.

(** C2.  The percent lag that [CalcStats] stores is not always within 0
    to 100 for a reader with a valid packet id: in a ring that holds a
    single packet, for the reader positioned on it, the quotient is 0/0
    and its conversion to [int] is undefined; and for a reader whose
    position has been overwritten in a wrapped ring the stored value is
    negative. *)
Theorem percentlag_outside_0_100 :
  percentlag (CalcStats RINGID_MAXIMUM_v4 ring_one_packet 1700000001000000000
                (client_with (Some (mkReader 1 4096)) 0 0 0 0)) = None /\
  (double_of_Z 0 / double_of_Z 0 * double_of_Z 100)%float = nan /\
  percentlag (CalcStats RINGID_MAXIMUM_v4 ring_wrapped 1700000001000000000
                (client_with (Some (mkReader 3 262144)) 0 0 0 0)) = Some (-47).
Proof.
  repeat split; vm_compute; reflexivity.
Qed.

(** ** Doubles in the normal range *)

(** The number of binary digits of a positive number. *)
Lemma digits2_pos_bounds p :
  2 ^ (Zpos (digits2_pos p) - 1) <= Zpos p < 2 ^ Zpos (digits2_pos p).
Proof.
  induction p as [p IH | p IH |]; cbn [digits2_pos].
  - rewrite Pos2Z.inj_succ. replace (Z.succ (Zpos (digits2_pos p)) - 1)
      with (Z.succ (Zpos (digits2_pos p) - 1)) by lia.
    rewrite !Z.pow_succ_r by lia. lia.
  - rewrite Pos2Z.inj_succ. replace (Z.succ (Zpos (digits2_pos p)) - 1)
      with (Z.succ (Zpos (digits2_pos p) - 1)) by lia.
    rewrite !Z.pow_succ_r by lia. lia.
  - cbn. lia.
Qed.

Lemma digits2_pos_unique p k :
  2 ^ (k - 1) <= Zpos p < 2 ^ k -> 0 < k -> Zpos (digits2_pos p) = k.
Proof.
  intros [Hlo Hhi] Hk. pose proof (digits2_pos_bounds p) as [Blo Bhi].
  set (d := Zpos (digits2_pos p)) in *.
  assert (Hd : 0 < d) by (subst d; lia).
  destruct (Z.lt_trichotomy d k) as [Hlt | [Heq | Hgt]]; [ | exact Heq | ].
  - assert (2 ^ d <= 2 ^ (k - 1)) by (apply Z.pow_le_mono_r; lia). lia.
  - assert (2 ^ k <= 2 ^ (d - 1)) by (apply Z.pow_le_mono_r; lia). lia.
Qed.


Lemma mantissa_digits p :
  2 ^ 52 <= Zpos p < 2 ^ 54 ->
  (Zpos p < 2 ^ 53 /\ Zpos (digits2_pos p) = 53) \/
  (2 ^ 53 <= Zpos p /\ Zpos (digits2_pos p) = 54).
Proof.
  intros H. destruct (Z.lt_ge_cases (Zpos p) (2 ^ 53)).
  - left. split; [ assumption | ]. apply digits2_pos_unique; lia.
  - right. split; [ assumption | ]. apply digits2_pos_unique; lia.
Qed.

Lemma shr_1_m r : 0 <= shr_m r -> shr_m (shr_1 r) = shr_m r / 2.
Proof.
  destruct r as [m r0 s0]. cbn [shr_m shr_1]. intros Hm.
  destruct m as [| [p | p |] | p]; cbn [shr_m]; try lia.
  all: try reflexivity.
  - apply Z.div_unique with (r := 1); lia.
  - apply Z.div_unique with (r := 0); lia.
Qed.

Lemma shr_iter_m k : forall r,
  0 <= shr_m r -> shr_m (iter_pos shr_1 k r) = shr_m r / 2 ^ Zpos k.
Proof.
  assert (Hnn : forall r, 0 <= shr_m r -> 0 <= shr_m (shr_1 r)).
  { intros r Hr. rewrite shr_1_m by exact Hr. apply Z.div_pos; lia. }
  induction k as [k IH | k IH |]; intros r Hr; cbn [iter_pos].
  - assert (H1 : 0 <= shr_m (shr_1 r)) by auto.
    assert (H2 : 0 <= shr_m (iter_pos shr_1 k (shr_1 r))).
    { rewrite IH by exact H1. apply Z.div_pos; lia. }
    rewrite IH, IH, shr_1_m by assumption.
    rewrite !Z.div_div by lia. f_equal.
    replace (Z.pos k~1) with (Z.pos k + Z.pos k + 1) by lia.
    rewrite !Z.pow_add_r by lia. rewrite Z.pow_1_r. ring.
  - assert (H2 : 0 <= shr_m (iter_pos shr_1 k r)).
    { rewrite IH by exact Hr. apply Z.div_pos; lia. }
    rewrite IH, IH by assumption. rewrite Z.div_div by lia. f_equal.
    replace (Z.pos k~0) with (Z.pos k + Z.pos k) by lia.
    rewrite Z.pow_add_r by lia. reflexivity.
  - rewrite shr_1_m by exact Hr. reflexivity.
Qed.
Lemma shr_record_of_loc_m m l : shr_m (shr_record_of_loc m l) = m.
Proof. destruct l as [| []]; reflexivity. Qed.

Lemma round_nearest_even_bounds m l :
  m <= round_nearest_even m l <= m + 1.
Proof.
  destruct l as [| []]; cbn [round_nearest_even]; try lia.
  destruct (Z.even m); lia.
Qed.

(** Rounding a mantissa of at least 53 bits to 53 bits in the normal
    range: the mantissa is shifted right by the excess bits. *)
Lemma shr_fexp_normal p e l :
  2 ^ 52 <= Zpos p -> -1000 <= e ->
  shr_m (fst (shr_fexp prec emax (Zpos p) e l))
  = Zpos p / 2 ^ (Zpos (digits2_pos p) - 53) /\
  snd (shr_fexp prec emax (Zpos p) e l) = e + Zpos (digits2_pos p) - 53 /\
  53 <= Zpos (digits2_pos p) /\
  2 ^ 52 <= Zpos p / 2 ^ (Zpos (digits2_pos p) - 53) < 2 ^ 53.
Proof.
  intros Hp He. pose proof (digits2_pos_bounds p) as [Blo Bhi].
  set (d := Zpos (digits2_pos p)) in *.
  assert (Hd : 53 <= d).
  { destruct (Z.lt_ge_cases d 53) as [Hlt | Hge]; [ | exact Hge ].
    assert (2 ^ d <= 2 ^ 52) by (apply Z.pow_le_mono_r; lia). lia. }
  unfold shr_fexp, Zdigits2, fexp, SpecFloat.emin, prec, emax. fold d.
  replace (Z.max (d + e - 53) (3 - 1024 - 53) - e) with (d - 53) by lia.
  assert (Hsplit : 2 ^ d = 2 ^ (d - 53) * 2 ^ 53)
    by (rewrite <- Z.pow_add_r by lia; f_equal; lia).
  assert (Hsplit' : 2 ^ (d - 1) = 2 ^ (d - 53) * 2 ^ 52)
    by (rewrite <- Z.pow_add_r by lia; f_equal; lia).
  assert (Hpow : 0 < 2 ^ (d - 53)) by (apply Z.pow_pos_nonneg; lia).
  assert (Hdiv : 2 ^ 52 <= Zpos p / 2 ^ (d - 53) < 2 ^ 53).
  { split.
    - apply Z.div_le_lower_bound; lia.
    - apply Z.div_lt_upper_bound; lia. }
  destruct (d - 53) as [| k | k] eqn:Hk; cbn [shr fst snd].
  - rewrite shr_record_of_loc_m. change (2 ^ 0) with 1 in *.
    rewrite Z.div_1_r in *. repeat split; lia.
  - rewrite shr_iter_m by (rewrite shr_record_of_loc_m; lia).
    rewrite shr_record_of_loc_m. repeat split; lia.
  - lia.
Qed.

(** Rounding to nearest even in the normal range gives a finite number
    with a 53-bit mantissa: the shifted mantissa or its successor, with
    a carry into the exponent when the successor is 2^53. *)
Lemma binary_round_aux_normal s p e l :
  2 ^ 52 <= Zpos p -> -1000 <= e -> e + Zpos (digits2_pos p) <= 1000 ->
  exists m' e',
    binary_round_aux prec emax s (Zpos p) e l = S754_finite s m' e' /\
    2 ^ 52 <= Zpos m' < 2 ^ 53 /\
    ((e' = e + Zpos (digits2_pos p) - 53 /\
      Zpos p / 2 ^ (Zpos (digits2_pos p) - 53) <= Zpos m'
      <= Zpos p / 2 ^ (Zpos (digits2_pos p) - 53) + 1) \/
     (e' = e + Zpos (digits2_pos p) - 52 /\ Zpos m' = 2 ^ 52 /\
      Zpos p / 2 ^ (Zpos (digits2_pos p) - 53) + 1 = 2 ^ 53)).
Proof.
  intros Hp He Hmax. unfold binary_round_aux.
  pose proof (shr_fexp_normal p e l Hp He) as (Hm1 & He1 & Hd & Hb1).
  set (m1 := Zpos p / 2 ^ (Zpos (digits2_pos p) - 53)) in *.
  destruct (shr_fexp prec emax (Zpos p) e l) as [mrs1 e1]. cbn [fst snd] in *.
  pose proof (round_nearest_even_bounds (shr_m mrs1) (loc_of_shr_record mrs1))
    as Hr.
  destruct (round_nearest_even (shr_m mrs1) (loc_of_shr_record mrs1))
    as [| p1 | p1]; try lia.
  assert (Hp1 : 2 ^ 52 <= Zpos p1) by lia.
  pose proof (shr_fexp_normal p1 e1 loc_Exact Hp1 ltac:(lia))
    as (Hm2 & He2 & _ & Hb2).
  destruct (shr_fexp prec emax (Zpos p1) e1 loc_Exact) as [mrs2 e2].
  cbn [fst snd] in *.
  destruct (mantissa_digits p1 ltac:(lia)) as [[Hlt Hd1] | [Hge Hd1]];
    rewrite Hd1 in *.
  - change (2 ^ (53 - 53)) with 1 in *. rewrite Z.div_1_r in *.
    destruct (shr_m mrs2) as [| p2 | p2]; try lia.
    assert (Hfin : (e2 <=? emax - prec) = true)
      by (apply Z.leb_le; unfold emax, prec; lia).
    rewrite Hfin. exists p2, e2. split; [ reflexivity | ].
    split; [ lia | ]. left. lia.
  - assert (E1 : Zpos p1 = 2 ^ 53) by lia.
    rewrite E1 in Hm2. change (2 ^ 53 / 2 ^ (54 - 53)) with (2 ^ 52) in Hm2.
    destruct (shr_m mrs2) as [| p2 | p2]; try lia.
    assert (Hfin : (e2 <=? emax - prec) = true)
      by (apply Z.leb_le; unfold emax, prec; lia).
    rewrite Hfin. exists p2, e2. split; [ reflexivity | ].
    split; [ lia | ]. right. lia.
Qed.

(** A 53-bit mantissa needs no rounding. *)
Lemma binary_round_aux_exact s p e :
  2 ^ 52 <= Zpos p < 2 ^ 53 -> -1000 <= e <= 900 ->
  binary_round_aux prec emax s (Zpos p) e loc_Exact = S754_finite s p e.
Proof.
  intros Hp He.
  assert (Hs : shr_fexp prec emax (Zpos p) e loc_Exact
               = (Build_shr_record (Zpos p) false false, e)).
  { unfold shr_fexp, Zdigits2, fexp, SpecFloat.emin, prec, emax.
    rewrite (digits2_pos_unique p 53) by lia.
    replace (Z.max (53 + e - 53) (3 - 1024 - 53) - e) with 0 by lia.
    reflexivity. }
  unfold binary_round_aux. rewrite Hs. cbn [shr_m loc_of_shr_record
    round_nearest_even]. rewrite Hs. cbn [shr_m].
  assert (Hfin : (e <=? emax - prec) = true)
    by (apply Z.leb_le; unfold emax, prec; lia).
  now rewrite Hfin.
Qed.

Lemma normal_valid s m e :
  2 ^ 52 <= Zpos m < 2 ^ 53 -> -1000 <= e <= 971 ->
  valid_binary (S754_finite s m e) = true.
Proof.
  intros Hm He. cbn [valid_binary]. unfold bounded, canonical_mantissa.
  rewrite (digits2_pos_unique m 53) by lia.
  unfold fexp, SpecFloat.emin, prec, emax.
  apply andb_true_iff. split; [ apply Z.eqb_eq | apply Z.leb_le ]; lia.
Qed.

Lemma pos_iter_xO p k : Zpos (Pos.iter xO p k) = Zpos p * 2 ^ Zpos k.
Proof.
  rewrite (Pos.iter_swap_gen _ _ Zpos xO (Z.mul 2)) by reflexivity.
  change (Pos.iter (Z.mul 2) (Zpos p) k) with (Z.shiftl (Zpos p) (Zpos k)).
  apply Z.shiftl_mul_pow2. lia.
Qed.

(** A positive integer below 2^63 converts to a positive finite double
    with a 53-bit mantissa. *)
Lemma double_of_Z_positive z :
  0 < z < 2 ^ 63 ->
  exists m e,
    Prim2SF (double_of_Z z) = S754_finite false m e /\
    2 ^ 52 <= Zpos m < 2 ^ 53 /\ -52 <= e <= 11.
Proof.
  intros Hz. destruct z as [| p | p]; try lia.
  unfold double_of_Z. cbn [binary_normalize]. unfold binary_round.
  pose proof (digits2_pos_bounds p) as [Blo Bhi].
  set (d := Zpos (digits2_pos p)) in *.
  assert (Hd1 : 1 <= d) by (subst d; lia).
  assert (Hd63 : d <= 63).
  { destruct (Z.lt_ge_cases 63 d) as [Hgt | Hle]; [ | exact Hle ].
    assert (2 ^ 63 <= 2 ^ (d - 1)) by (apply Z.pow_le_mono_r; lia). lia. }
  assert (Hround : exists m e,
             (let '(mz, ez) := shl_align p 0 (fexp prec emax (d + 0)) in
              binary_round_aux prec emax false (Zpos mz) ez loc_Exact)
             = S754_finite false m e /\
             2 ^ 52 <= Zpos m < 2 ^ 53 /\ -52 <= e <= 11).
  { assert (Hfe : fexp prec emax (d + 0) = d - 53)
      by (unfold fexp, SpecFloat.emin, prec, emax; lia).
    rewrite Hfe. unfold shl_align. rewrite Z.sub_0_r.
    destruct (Z.le_gt_cases d 53) as [Hle | Hgt].
    - destruct (d - 53) as [| k | k] eqn:Hk; try lia.
      + assert (H52 : 2 ^ 52 <= Zpos p) by (replace 52 with (d - 1) by lia; exact Blo).
        destruct (binary_round_aux_normal false p 0 loc_Exact H52)
          as (m & e & Hr & Hm & He); fold d; try lia.
        exists m, e. fold d in He. repeat split; try lia. exact Hr.
      + assert (Hk' : Zpos k = 53 - d) by lia.
        assert (Hmz : 2 ^ 52 <= Zpos (Pos.iter xO p k) < 2 ^ 53).
        { rewrite pos_iter_xO, Hk'.
          assert (E52 : 2 ^ 52 = 2 ^ (d - 1) * 2 ^ (53 - d))
            by (rewrite <- Z.pow_add_r by lia; f_equal; lia).
          assert (E53 : 2 ^ 53 = 2 ^ d * 2 ^ (53 - d))
            by (rewrite <- Z.pow_add_r by lia; f_equal; lia).
          assert (0 < 2 ^ (53 - d)) by (apply Z.pow_pos_nonneg; lia).
          rewrite E52, E53. split.
          - apply Z.mul_le_mono_nonneg_r; lia.
          - apply Z.mul_lt_mono_pos_r; lia. }
        assert (Hdz : Zpos (digits2_pos (Pos.iter xO p k)) = 53)
          by (apply digits2_pos_unique; lia).
        destruct (binary_round_aux_normal false (Pos.iter xO p k) (Zneg k)
                    loc_Exact)
          as (m & e & Hr & Hm & He); try lia.
        exists m, e. rewrite Hdz in He. repeat split; try lia. exact Hr.
    - destruct (d - 53) as [| k | k] eqn:Hk; try lia.
      assert (H52 : 2 ^ 52 <= Zpos p).
      { assert (2 ^ 52 <= 2 ^ (d - 1)) by (apply Z.pow_le_mono_r; lia). lia. }
      destruct (binary_round_aux_normal false p 0 loc_Exact H52)
        as (m & e & Hr & Hm & He); fold d; try lia.
      exists m, e. fold d in He. repeat split; try lia. exact Hr. }
  destruct Hround as (m & e & Hr & Hm & He). rewrite Hr.
  exists m, e. split; [ | split; assumption ].
  apply Prim2SF_SF2Prim. apply normal_valid; lia.
Qed.

(** The quotient of two normal doubles of moderate exponent is a normal
    double. *)
Lemma SFdiv_normal sx sy mx ex my ey :
  2 ^ 52 <= Zpos mx < 2 ^ 53 -> 2 ^ 52 <= Zpos my < 2 ^ 53 ->
  -400 <= ex <= 400 -> -400 <= ey <= 400 ->
  exists m e,
    SFdiv prec emax (S754_finite sx mx ex) (S754_finite sy my ey)
    = S754_finite (xorb sx sy) m e /\
    2 ^ 52 <= Zpos m < 2 ^ 53.
Proof.
  intros Hx Hy Hex Hey. cbn [SFdiv]. unfold SFdiv_core_binary.
  cbn [Zdigits2]. rewrite (digits2_pos_unique mx 53), (digits2_pos_unique my 53)
    by lia.
  unfold fexp, SpecFloat.emin, prec, emax.
  replace (Z.min (Z.max (53 + ex - (53 + ey) - 53) (3 - 1024 - 53)) (ex - ey))
    with (ex - ey - 53) by lia.
  replace (ex - ey - (ex - ey - 53)) with 53 by lia.
  rewrite Z.shiftl_mul_pow2 by lia.
  pose proof (Z_div_mod (Zpos mx * 2 ^ 53) (Zpos my) ltac:(lia)) as Hdm.
  destruct (Z.div_eucl (Zpos mx * 2 ^ 53) (Zpos my)) as [q r].
  destruct Hdm as [Hq Hr].
  assert (Hqb : 2 ^ 52 <= q < 2 ^ 54) by nia.
  destruct q as [| qp | qp]; try lia.
  destruct (mantissa_digits qp Hqb) as [[_ Hd] | [_ Hd]];
    destruct (binary_round_aux_normal (xorb sx sy) qp (ex - ey - 53)
                (new_location (Zpos my) r))
      as (m & e & Hres & Hm & _); try lia;
    exists m, e; (split; [ exact Hres | exact Hm ]).
Qed.

Lemma digits2_pos_mono p q :
  Zpos p <= Zpos q -> Zpos (digits2_pos p) <= Zpos (digits2_pos q).
Proof.
  intros Hpq. pose proof (digits2_pos_bounds p) as [Plo _].
  pose proof (digits2_pos_bounds q) as [_ Qhi].
  destruct (Z.le_gt_cases (Zpos (digits2_pos p)) (Zpos (digits2_pos q)))
    as [Hle | Hgt]; [ exact Hle | ].
  assert (2 ^ Zpos (digits2_pos q) <= 2 ^ (Zpos (digits2_pos p) - 1))
    by (apply Z.pow_le_mono_r; lia).
  lia.
Qed.

(** A positive integer below 2^53 converts without rounding: the
    mantissa is the integer shifted left to 53 bits. *)
Lemma double_of_Z_exact z :
  0 < z < 2 ^ 53 ->
  exists p m,
    z = Zpos p /\
    Prim2SF (double_of_Z z)
    = S754_finite false m (Zpos (digits2_pos p) - 53) /\
    Zpos m = z * 2 ^ (53 - Zpos (digits2_pos p)) /\
    2 ^ 52 <= Zpos m < 2 ^ 53 /\
    1 <= Zpos (digits2_pos p) <= 53.
Proof.
  intros Hz. destruct z as [| p | p]; try lia.
  pose proof (digits2_pos_bounds p) as [Blo Bhi].
  set (d := Zpos (digits2_pos p)) in *.
  assert (Hd1 : 1 <= d) by (subst d; lia).
  assert (Hd53 : d <= 53).
  { destruct (Z.lt_ge_cases 53 d) as [Hgt | Hle]; [ | exact Hle ].
    assert (2 ^ 53 <= 2 ^ (d - 1)) by (apply Z.pow_le_mono_r; lia). lia. }
  assert (E52 : 2 ^ 52 = 2 ^ (d - 1) * 2 ^ (53 - d))
    by (rewrite <- Z.pow_add_r by lia; f_equal; lia).
  assert (E53 : 2 ^ 53 = 2 ^ d * 2 ^ (53 - d))
    by (rewrite <- Z.pow_add_r by lia; f_equal; lia).
  assert (Hpow : 0 < 2 ^ (53 - d)) by (apply Z.pow_pos_nonneg; lia).
  assert (Hb : 2 ^ 52 <= Zpos p * 2 ^ (53 - d) < 2 ^ 53).
  { rewrite E52, E53. split.
    - apply Z.mul_le_mono_nonneg_r; lia.
    - apply Z.mul_lt_mono_pos_r; lia. }
  assert (Hround : exists m,
             binary_normalize prec emax (Zpos p) 0 false
             = S754_finite false m (d - 53) /\
             Zpos m = Zpos p * 2 ^ (53 - d)).
  { cbn [binary_normalize]. unfold binary_round. fold d.
    assert (Hfe : fexp prec emax (d + 0) = d - 53)
      by (unfold fexp, SpecFloat.emin, prec, emax; lia).
    rewrite Hfe. unfold shl_align. rewrite Z.sub_0_r.
    destruct (d - 53) as [| k | k] eqn:Hk; try lia.
    - exists p. replace (53 - d) with 0 in * by lia.
      rewrite Z.pow_0_r, Z.mul_1_r in *.
      split; [ | reflexivity ]. apply binary_round_aux_exact; lia.
    - assert (Hk' : Zpos k = 53 - d) by lia.
      exists (Pos.iter xO p k). split.
      + apply binary_round_aux_exact; [ | lia ].
        rewrite pos_iter_xO, Hk'. exact Hb.
      + rewrite pos_iter_xO, Hk'. reflexivity. }
  destruct Hround as (m & Hr & Hm). exists p, m.
  split; [ reflexivity | ]. split.
  - unfold double_of_Z. rewrite Hr. apply Prim2SF_SF2Prim.
    apply normal_valid; [ rewrite Hm; exact Hb | lia ].
  - split; [ exact Hm | ]. split; [ rewrite Hm; exact Hb | lia ].
Qed.

(** The quotient of a normal double by a larger one is below 1 or,
    after rounding, 1. *)
Lemma SFdiv_le_one mx ex my ey :
  2 ^ 52 <= Zpos mx < 2 ^ 53 -> 2 ^ 52 <= Zpos my < 2 ^ 53 ->
  -400 <= ex <= 400 -> -400 <= ey <= 400 ->
  ex < ey \/ (ex = ey /\ Zpos mx < Zpos my) ->
  exists m e,
    SFdiv prec emax (S754_finite false mx ex) (S754_finite false my ey)
    = S754_finite false m e /\
    2 ^ 52 <= Zpos m < 2 ^ 53 /\
    ((-900 <= e <= -53) \/ (Zpos m = 2 ^ 52 /\ e = -52)).
Proof.
  intros Hx Hy Hex Hey Hlt. cbn [SFdiv xorb]. unfold SFdiv_core_binary.
  cbn [Zdigits2]. rewrite (digits2_pos_unique mx 53), (digits2_pos_unique my 53)
    by lia.
  unfold fexp, SpecFloat.emin, prec, emax.
  replace (Z.min (Z.max (53 + ex - (53 + ey) - 53) (3 - 1024 - 53)) (ex - ey))
    with (ex - ey - 53) by lia.
  replace (ex - ey - (ex - ey - 53)) with 53 by lia.
  rewrite Z.shiftl_mul_pow2 by lia.
  pose proof (Z_div_mod (Zpos mx * 2 ^ 53) (Zpos my) ltac:(lia)) as Hdm.
  destruct (Z.div_eucl (Zpos mx * 2 ^ 53) (Zpos my)) as [q r].
  destruct Hdm as [Hq Hr].
  assert (Hqb : 2 ^ 52 <= q < 2 ^ 54) by nia.
  destruct q as [| qp | qp]; try lia.
  destruct (binary_round_aux_normal false qp (ex - ey - 53)
              (new_location (Zpos my) r))
    as (m & e & Hres & Hm & Hcase); try lia.
  { destruct (mantissa_digits qp Hqb) as [[_ Hd] | [_ Hd]]; lia. }
  exists m, e. split; [ exact Hres | ]. split; [ exact Hm | ].
  destruct (mantissa_digits qp Hqb) as [[Hq53 Hd] | [Hq53 Hd]];
    rewrite Hd in Hcase.
  - change (2 ^ (53 - 53)) with 1 in Hcase. rewrite Z.div_1_r in Hcase.
    destruct Hcase as [[He _] | [He [Hm52 _]]]; destruct Hlt as [Hlt | [Heq Hlt]];
      try (left; lia); try (right; lia).
  - destruct Hlt as [Hlt | [Heq Hlt]]; [ | nia ].
    destruct Hcase as [[He _] | [He [Hm52 _]]];
      try (left; lia).
    destruct (Z.eq_dec e (-52)) as [E | E]; [ right; lia | left; lia ].
Qed.

(** Products with the double 100. *)
Lemma SFmul_100 mq eq :
  2 ^ 52 <= Zpos mq < 2 ^ 53 -> -900 <= eq <= -53 ->
  exists m e,
    SFmul prec emax (S754_finite false mq eq) (S754_finite false M100 (-46))
    = S754_finite false m e /\
    e < 0 /\ Zpos m <= 100 * 2 ^ (- e).
Proof.
  intros Hq He. cbn [SFmul xorb].
  set (P := Pos.mul mq M100).
  assert (HP : Zpos P = Zpos mq * Zpos M100) by reflexivity.
  assert (HM : Zpos M100 = 100 * 2 ^ 46) by reflexivity.
  assert (HPb : 2 ^ 104 <= Zpos P < 2 ^ 106) by (rewrite HP, HM; lia).
  assert (HPlt : Zpos P < 100 * 2 ^ 99) by (rewrite HP, HM; lia).
  assert (Hd : Zpos (digits2_pos P) = 105 \/ Zpos (digits2_pos P) = 106).
  { destruct (Z.lt_ge_cases (Zpos P) (2 ^ 105)).
    - left. apply digits2_pos_unique; lia.
    - right. apply digits2_pos_unique; lia. }
  destruct (binary_round_aux_normal false P (eq + -46) loc_Exact)
    as (m & e & Hres & Hm & Hcase); try lia.
  exists m, e. split; [ exact Hres | ].
  assert (Hpw : forall k, 0 <= k -> 100 * 2 ^ 46 <= 100 * 2 ^ (46 + k)).
  { intros k Hk. rewrite Z.pow_add_r by lia.
    assert (0 < 2 ^ k) by (apply Z.pow_pos_nonneg; lia). nia. }
  destruct Hd as [Hd | Hd]; rewrite Hd in Hcase.
  - change (2 ^ (105 - 53)) with (2 ^ 52) in Hcase.
    assert (Hm1 : Zpos P / 2 ^ 52 + 1 <= 100 * 2 ^ 47).
    { assert (Zpos P / 2 ^ 52 < 100 * 2 ^ 47)
        by (apply Z.div_lt_upper_bound; lia). lia. }
    destruct Hcase as [[He' Hmm] | [He' [Hm52 _]]].
    + split; [ lia | ].
      replace (- e) with (47 + (- 53 - eq)) by lia.
      rewrite Z.pow_add_r by lia.
      assert (0 < 2 ^ (- 53 - eq)) by (apply Z.pow_pos_nonneg; lia). nia.
    + split; [ lia | ].
      replace (- e) with (46 + (- 53 - eq)) by lia.
      rewrite Hm52. specialize (Hpw (- 53 - eq) ltac:(lia)). lia.
  - change (2 ^ (106 - 53)) with (2 ^ 53) in Hcase.
    assert (Hm1 : Zpos P / 2 ^ 53 + 1 <= 100 * 2 ^ 46).
    { assert (Zpos P / 2 ^ 53 < 100 * 2 ^ 46)
        by (apply Z.div_lt_upper_bound; lia). lia. }
    destruct Hcase as [[He' Hmm] | [He' [Hm52 Hc]]]; [ | lia ].
    split; [ lia | ].
    replace (- e) with (46 + (- 53 - eq)) by lia.
    specialize (Hpw (- 53 - eq) ltac:(lia)). lia.
Qed.

(** A part of a whole, both below 2^53, is between 0 and 100 percent. *)
Lemma percent_of_part num den :
  0 < num < den -> den < 2 ^ 53 ->
  exists p, double_percent num den = Some p /\ 0 <= p <= 100.
Proof.
  intros Hnum Hden.
  destruct (double_of_Z_exact num ltac:(lia))
    as (pn & mx & En & Hx & Hmx & Hbx & Hdx).
  destruct (double_of_Z_exact den ltac:(lia))
    as (pd & my & Ed & Hy & Hmy & Hby & Hdy).
  pose proof (digits2_pos_mono pn pd ltac:(lia)) as Hmono.
  assert (Hlex : Zpos (digits2_pos pn) - 53 < Zpos (digits2_pos pd) - 53 \/
                 (Zpos (digits2_pos pn) - 53 = Zpos (digits2_pos pd) - 53 /\
                  Zpos mx < Zpos my)).
  { destruct (Z.eq_dec (Zpos (digits2_pos pn)) (Zpos (digits2_pos pd)))
      as [E | E]; [ right | left; lia ].
    split; [ lia | ]. rewrite Hmx, Hmy, E.
    apply Z.mul_lt_mono_pos_r; [ apply Z.pow_pos_nonneg; lia | lia ]. }
  destruct (SFdiv_le_one mx (Zpos (digits2_pos pn) - 53)
              my (Zpos (digits2_pos pd) - 53))
    as (mq & eq & Hq & Hmq & Hcase); try lia.
  assert (HQ : Prim2SF (double_of_Z num / double_of_Z den)
               = S754_finite false mq eq)
    by (rewrite div_spec, Hx, Hy; exact Hq).
  unfold double_percent.
  destruct Hcase as [Heq | [Hm1 He1]].
  - assert (H100 : Prim2SF (double_of_Z 100) = S754_finite false M100 (-46))
      by (vm_compute; reflexivity).
    destruct (SFmul_100 mq eq Hmq Heq) as (m & e & Hmul & He & Hm).
    assert (HR : Prim2SF (double_of_Z num / double_of_Z den * double_of_Z 100)
                 = S754_finite false m e)
      by (rewrite mul_spec, HQ, H100; exact Hmul).
    unfold double_to_int, double_trunc. rewrite HR.
    assert (Hneg : (0 <=? e) = false) by (apply Z.leb_gt; lia).
    rewrite Hneg, Z.shiftr_div_pow2 by lia.
    assert (Hpow : 0 < 2 ^ (- e)) by (apply Z.pow_pos_nonneg; lia).
    assert (Hz : 0 <= Zpos m / 2 ^ (- e) <= 100).
    { split.
      - apply Z.div_pos; lia.
      - apply Z.div_le_upper_bound; lia. }
    assert (Hin : (INT_MIN <=? Zpos m / 2 ^ (- e))
                  && (Zpos m / 2 ^ (- e) <=? INT_MAX) = true).
    { apply andb_true_iff. unfold INT_MIN, INT_MAX.
      split; apply Z.leb_le; lia. }
    rewrite Hin. eexists. split; [ reflexivity | exact Hz ].
  - assert (E1 : (double_of_Z num / double_of_Z den)%float = 1%float).
    { apply Prim2SF_inj. rewrite HQ.
      replace mq with 4503599627370496%positive by lia. subst eq.
      reflexivity. }
    rewrite E1. exists 100. split; [ vm_compute; reflexivity | lia ].
Qed.

(** The elapsed time in seconds between two clock readings, the second
    later than the first, is a positive double. *)
Lemma elapsed_positive z :
  0 < z < 2 ^ 63 ->
  (0 <? double_of_Z z / double_of_Z NSTMODULUS)%float = true.
Proof.
  intros Hz. destruct (double_of_Z_positive z Hz) as (m & e & Hx & Hm & He).
  assert (Hy : Prim2SF (double_of_Z NSTMODULUS)
               = S754_finite false 8388608000000000 (-23))
    by (vm_compute; reflexivity).
  rewrite ltb_spec, div_spec, Hx, Hy. unfold SF64div.
  destruct (SFdiv_normal false false m e 8388608000000000 (-23))
    as (m' & e' & Hd & _); try lia.
  rewrite Hd. reflexivity.
Qed.

(** ** Rates *)

Lemma zero_over_positive d : (0 <? d)%float = true -> (0 / d)%float = 0%float.
Proof.
  intros H. rewrite ltb_spec in H. apply Prim2SF_inj. rewrite div_spec.
  change (Prim2SF 0) with (S754_zero false) in *.
  destruct (Prim2SF d) as [s | s | | s m e]; cbn in H |- *; try discriminate;
    destruct s; try discriminate; reflexivity.
Qed.

(** A counter that did not move since it was rolled gives rate zero. *)
Lemma rate_unchanged x d : (0 <? d)%float = true -> rate x x d = 0%float.
Proof.
  intros H. unfold rate. rewrite Z.sub_diag.
  change (double_of_Z (u64 0)) with 0%float. now apply zero_over_positive.
Qed.

Section Rates.

Variable RINGID_MAXIMUM : Z.

(** C6, as amended.  Two calls of [CalcStats] in a row on a client whose
    counters do not change in between, the second at a later clock
    reading than the first (clock readings being non-negative 64-bit
    counts of nanoseconds): each call stamps the rate time with its
    clock reading; a call that finds the rate time unset uses an elapsed
    time of exactly 1.0; for a direction whose current packet counter is
    positive the first call sets the rates from the counter differences
    over the elapsed time and rolls the packet and byte counters into
    the history, and the second call computes rates exactly 0; for a
    direction whose current packet counter is zero a call leaves the
    history and the rates of that direction as they were. *)
Theorem CalcStats_rate_rolling (rp rp' : RingParams) (now1 now2 : Z)
    (c : ClientInfo) :
  0 <= now1 < now2 -> now2 < 2 ^ 63 ->
  let c1 := CalcStats RINGID_MAXIMUM rp now1 c in
  let c2 := CalcStats RINGID_MAXIMUM rp' now2 c1 in
  (ratetime c1 = now1 /\ ratetime c2 = now2) /\
  (ratetime c = 0 -> CalcStats_deltasec now1 c = 1%float) /\
  (0 < txpackets0 c ->
   txpacketrate c1
   = rate (txpackets0 c) (txpackets1 c) (CalcStats_deltasec now1 c) /\
   txbyterate c1
   = rate (txbytes0 c) (txbytes1 c) (CalcStats_deltasec now1 c) /\
   txpackets0 c1 = txpackets0 c /\ txpackets1 c1 = txpackets0 c /\
   txbytes0 c1 = txbytes0 c /\ txbytes1 c1 = txbytes0 c /\
   txpacketrate c2 = 0%float /\ txbyterate c2 = 0%float) /\
  (0 < rxpackets0 c ->
   rxpacketrate c1
   = rate (rxpackets0 c) (rxpackets1 c) (CalcStats_deltasec now1 c) /\
   rxbyterate c1
   = rate (rxbytes0 c) (rxbytes1 c) (CalcStats_deltasec now1 c) /\
   rxpackets0 c1 = rxpackets0 c /\ rxpackets1 c1 = rxpackets0 c /\
   rxbytes0 c1 = rxbytes0 c /\ rxbytes1 c1 = rxbytes0 c /\
   rxpacketrate c2 = 0%float /\ rxbyterate c2 = 0%float) /\
  (txpackets0 c <= 0 ->
   txpackets1 c1 = txpackets1 c /\ txbytes1 c1 = txbytes1 c /\
   txpacketrate c1 = txpacketrate c /\ txbyterate c1 = txbyterate c) /\
  (rxpackets0 c <= 0 ->
   rxpackets1 c1 = rxpackets1 c /\ rxbytes1 c1 = rxbytes1 c /\
   rxpacketrate c1 = rxpacketrate c /\ rxbyterate c1 = rxbyterate c).
Proof.
  intros Hnow Hmax c1 c2.
  assert (Hdt : (0 <? CalcStats_deltasec now2 c1)%float = true).
  { unfold CalcStats_deltasec. subst c1. cbn [ratetime CalcStats].
    destruct (now1 =? 0); [ reflexivity | ].
    apply elapsed_positive. lia. }
  subst c2. set (d2 := CalcStats_deltasec now2 c1) in *.
  repeat apply conj.
  - reflexivity.
  - reflexivity.
  - intros H0. unfold CalcStats_deltasec. now rewrite H0.
  - intros Hp. apply Z.ltb_lt in Hp. subst c1. cbn. rewrite Hp. cbn.
    repeat split; exact (rate_unchanged _ _ Hdt).
  - intros Hp. apply Z.ltb_lt in Hp. subst c1. cbn. rewrite Hp. cbn.
    repeat split; exact (rate_unchanged _ _ Hdt).
  - intros Hp. apply Z.ltb_ge in Hp. subst c1. cbn. rewrite Hp. auto.
  - intros Hp. apply Z.ltb_ge in Hp. subst c1. cbn. rewrite Hp. auto.
Qed.

End Rates.

(** ** The ends of the lag scale *)

Lemma double_of_Z_gt_0 z :
  0 < z < 2 ^ 63 -> (0 <? double_of_Z z)%float = true.
Proof.
  intros Hz. destruct (double_of_Z_positive z Hz) as (m & e & Hx & _).
  rewrite ltb_spec, Hx. reflexivity.
Qed.

(** A normal double divided by itself is 1. *)
Lemma SFdiv_same s m e :
  2 ^ 52 <= Zpos m < 2 ^ 53 -> -400 <= e <= 400 ->
  SFdiv prec emax (S754_finite s m e) (S754_finite s m e) = Prim2SF 1.
Proof.
  intros Hm He. cbn [SFdiv]. unfold SFdiv_core_binary.
  cbn [Zdigits2]. rewrite (digits2_pos_unique m 53) by lia.
  unfold fexp, SpecFloat.emin, prec, emax.
  replace (Z.min (Z.max (53 + e - (53 + e) - 53) (3 - 1024 - 53)) (e - e))
    with (-53) by lia.
  replace (e - e - -53) with 53 by lia.
  rewrite Z.shiftl_mul_pow2 by lia.
  pose proof (Z_div_mod (Zpos m * 2 ^ 53) (Zpos m) ltac:(lia)) as Hdm.
  destruct (Z.div_eucl (Zpos m * 2 ^ 53) (Zpos m)) as [q r].
  destruct Hdm as [Hq Hr].
  assert (Eq : q = 2 ^ 53) by nia.
  assert (Er : r = 0) by nia.
  subst q r. rewrite xorb_nilpotent.
  unfold new_location, new_location_even, new_location_odd.
  destruct (Z.even (Zpos m)); vm_compute; reflexivity.
Qed.

Lemma percent_of_nothing den :
  0 < den < 2 ^ 63 -> double_percent 0 den = Some 0.
Proof.
  intros Hd. unfold double_percent.
  change (double_of_Z 0) with 0%float.
  rewrite (zero_over_positive _ (double_of_Z_gt_0 den Hd)).
  vm_compute. reflexivity.
Qed.

Lemma percent_of_all den :
  0 < den < 2 ^ 63 -> double_percent den den = Some 100.
Proof.
  intros Hd. unfold double_percent.
  destruct (double_of_Z_positive den Hd) as (m & e & Hx & Hm & He).
  assert (H1 : (double_of_Z den / double_of_Z den)%float = 1%float).
  { apply Prim2SF_inj. rewrite div_spec, Hx. unfold SF64div.
    apply SFdiv_same; lia. }
  rewrite H1. vm_compute. reflexivity.
Qed.

Section LagScale.

Variable RINGID_MAXIMUM : Z.

(** X3.  In a ring whose unwrapped latest offset is above its earliest
    offset, with offsets below 2^62: the percent lag that [CalcStats]
    stores is exactly 0 for a reader positioned on the latest packet and
    exactly 100 for a reader positioned on the earliest packet. *)
Theorem percentlag_scale_ends (rp : RingParams) (nsnow : Z) (c : ClientInfo)
    (rd : RingReader) :
  ring_offsets rp ->
  earliestoffset rp < unwrap_offset rp (latestoffset rp) ->
  reader c = Some rd -> pktid rd <= RINGID_MAXIMUM ->
  (pktoffset rd = latestoffset rp ->
   percentlag (CalcStats RINGID_MAXIMUM rp nsnow c) = Some 0) /\
  (pktoffset rd = earliestoffset rp ->
   percentlag (CalcStats RINGID_MAXIMUM rp nsnow c) = Some 100).
Proof.
  intros Hrp Hspan E Hid. cbn [percentlag CalcStats].
  pose proof (unwrap_offset_range rp (latestoffset rp) Hrp
                ltac:(apply Hrp)) as Rl.
  assert (He : ring_offset (earliestoffset rp)) by apply Hrp.
  split; intros Hpos.
  - rewrite (CalcStats_percentlag_valid RINGID_MAXIMUM rp c rd Hrp) ;
      [ | rewrite Hpos; apply Hrp | exact E | exact Hid ].
    unfold double_percent_lag. rewrite Hpos, Z.sub_diag.
    apply percent_of_nothing. unfold ring_offset in He. lia.
  - rewrite (CalcStats_percentlag_valid RINGID_MAXIMUM rp c rd Hrp) ;
      [ | rewrite Hpos; exact He | exact E | exact Hid ].
    unfold double_percent_lag. rewrite Hpos.
    assert (Hu : unwrap_offset rp (earliestoffset rp) = earliestoffset rp).
    { unfold unwrap_offset. now rewrite Z.ltb_irrefl. }
    rewrite Hu. apply percent_of_all. unfold ring_offset in He. lia.
Qed.

(** X4.  In a ring whose unwrapped latest offset is above its earliest
    offset, with offsets below 2^52: for a reader with a valid packet id
    whose unwrapped offset lies between the earliest offset and the
    unwrapped latest offset, the percent lag that [CalcStats] stores is
    defined and lies between 0 and 100. *)
Theorem percentlag_within_scale (rp : RingParams) (nsnow : Z) (c : ClientInfo)
    (rd : RingReader) :
  short_ring rp -> short_offset (pktoffset rd) ->
  reader c = Some rd -> pktid rd <= RINGID_MAXIMUM ->
  earliestoffset rp < unwrap_offset rp (latestoffset rp) ->
  earliestoffset rp <= unwrap_offset rp (pktoffset rd)
                    <= unwrap_offset rp (latestoffset rp) ->
  exists p,
    percentlag (CalcStats RINGID_MAXIMUM rp nsnow c) = Some p /\ 0 <= p <= 100.
Proof.
  intros (Hl & He & Hm) Hrd E Hid Hspan Hwin. cbn [percentlag CalcStats].
  unfold short_offset in *.
  assert (Hrp : ring_offsets rp) by (unfold ring_offsets, ring_offset; lia).
  assert (Hrd' : ring_offset (pktoffset rd)) by (unfold ring_offset; lia).
  rewrite (CalcStats_percentlag_valid RINGID_MAXIMUM rp c rd Hrp Hrd' E Hid).
  unfold double_percent_lag.
  assert (Hlu : unwrap_offset rp (latestoffset rp) < 2 ^ 53)
    by (unfold unwrap_offset; destruct (_ <? _); lia).
  set (lu := unwrap_offset rp (latestoffset rp)) in *.
  set (ru := unwrap_offset rp (pktoffset rd)) in *.
  destruct (Z.eq_dec ru lu) as [E0 | N0];
    [ | destruct (Z.eq_dec ru (earliestoffset rp)) as [E1 | N1] ].
  - rewrite E0, Z.sub_diag. exists 0. split; [ | lia ].
    apply percent_of_nothing. lia.
  - rewrite E1. exists 100. split; [ | lia ]. apply percent_of_all. lia.
  - apply percent_of_part; lia.
Qed.

End LagScale.

(** The wrapped ring of a mebibyte, with a reader on its earliest
    packet. *)
Lemma percentlag_scale_ends_witness :
  let c := client_with (Some (mkReader 7 524288)) 0 0 0 0 in
  ring_offsets ring_wrapped /\
  earliestoffset ring_wrapped < unwrap_offset ring_wrapped (latestoffset ring_wrapped) /\
  reader c = Some (mkReader 7 524288) /\
  pktid (mkReader 7 524288) <= RINGID_MAXIMUM_v4 /\
  percentlag (CalcStats RINGID_MAXIMUM_v4 ring_wrapped 1700000001000000000 c)
  = Some 100.
Proof.
  cbv zeta.
  assert (H1 : ring_offsets ring_wrapped)
    by (unfold ring_offsets, ring_offset; cbn; lia).
  assert (H2 : earliestoffset ring_wrapped
               < unwrap_offset ring_wrapped (latestoffset ring_wrapped))
    by reflexivity.
  assert (H3 : pktid (mkReader 7 524288) <= RINGID_MAXIMUM_v4)
    by (vm_compute; discriminate).
  split; [ exact H1 | ]. split; [ exact H2 | ]. split; [ reflexivity | ].
  split; [ exact H3 | ].
  exact (proj2 (percentlag_scale_ends RINGID_MAXIMUM_v4 ring_wrapped
                  1700000001000000000
                  (client_with (Some (mkReader 7 524288)) 0 0 0 0)
                  (mkReader 7 524288) H1 H2 eq_refl H3) eq_refl).
Defined.

(** The wrapped ring of a mebibyte, with a reader a quarter of the way
    back from the latest packet. *)
Lemma percentlag_within_scale_witness :
  let c := client_with (Some (mkReader 7 923648)) 0 0 0 0 in
  short_ring ring_wrapped /\ short_offset 923648 /\
  earliestoffset ring_wrapped
  < unwrap_offset ring_wrapped (latestoffset ring_wrapped) /\
  earliestoffset ring_wrapped <= unwrap_offset ring_wrapped 923648
                              <= unwrap_offset ring_wrapped (latestoffset ring_wrapped) /\
  (exists p,
     percentlag (CalcStats RINGID_MAXIMUM_v4 ring_wrapped 1700000001000000000 c)
     = Some p /\ 0 <= p <= 100) /\
  percentlag (CalcStats RINGID_MAXIMUM_v4 ring_wrapped 1700000001000000000 c)
  = Some 25.
Proof.
  cbv zeta.
  assert (H1 : short_ring ring_wrapped)
    by (unfold short_ring, short_offset; cbn; lia).
  assert (H2 : short_offset 923648) by (unfold short_offset; lia).
  assert (H3 : earliestoffset ring_wrapped
               < unwrap_offset ring_wrapped (latestoffset ring_wrapped))
    by reflexivity.
  assert (H4 : earliestoffset ring_wrapped
               <= unwrap_offset ring_wrapped 923648
               <= unwrap_offset ring_wrapped (latestoffset ring_wrapped))
    by (vm_compute; split; discriminate).
  assert (H5 : pktid (mkReader 7 923648) <= RINGID_MAXIMUM_v4)
    by (vm_compute; discriminate).
  split; [ exact H1 | ]. split; [ exact H2 | ]. split; [ exact H3 | ].
  split; [ exact H4 | ]. split.
  - exact (percentlag_within_scale RINGID_MAXIMUM_v4 ring_wrapped
             1700000001000000000
             (client_with (Some (mkReader 7 923648)) 0 0 0 0)
             (mkReader 7 923648) H1 H2 eq_refl H5 H3 H4).
  - vm_compute. reflexivity.
Defined.

(** A client that sent 5 packets of 1000 bytes in all, seen by two calls
    one second apart. *)
Lemma CalcStats_rate_rolling_witness :
  let c := client_with None 5 0 1000 0 in
  let c1 := CalcStats RINGID_MAXIMUM_v4 ring_wrapped 1700000001000000000 c in
  let c2 := CalcStats RINGID_MAXIMUM_v4 ring_wrapped 1700000002000000000 c1 in
  0 <= 1700000001000000000 < 1700000002000000000 /\
  1700000002000000000 < 2 ^ 63 /\
  (txpacketrate c2 = 0%float /\ txbyterate c2 = 0%float) /\
  txpacketrate c1 = 5%float /\ txbyterate c1 = 1000%float /\
  txpackets1 c1 = 5 /\ txbytes1 c1 = 1000.
Proof.
  cbv zeta.
  assert (H1 : 0 <= 1700000001000000000 < 1700000002000000000) by lia.
  assert (H2 : 1700000002000000000 < 2 ^ 63) by reflexivity.
  split; [ exact H1 | ]. split; [ exact H2 | ]. split.
  - pose proof (CalcStats_rate_rolling RINGID_MAXIMUM_v4 ring_wrapped ring_wrapped
                  1700000001000000000 1700000002000000000
                  (client_with None 5 0 1000 0) H1 H2) as (_ & _ & Htx & _).
    assert (Hp : 0 < txpackets0 (client_with None 5 0 1000 0)) by reflexivity.
    destruct (Htx Hp) as (_ & _ & _ & _ & _ & _ & Hr & Hbr).
    split; [ exact Hr | exact Hbr ].
  - vm_compute. repeat apply conj; reflexivity.
Defined.

(** C6, the claim as stated fails.  A client that has sent bytes but no
    packet: the call neither rolls the byte counter into the history nor
    computes a rate.  And two calls with the same clock reading on a
    client whose counters did not move in between: the rate is 0/0. *)
Lemma CalcStats_skips_idle_direction :
  let c := client_with None 0 0 1000 0 in
  let c1 := CalcStats RINGID_MAXIMUM_v4 ring_wrapped 1700000001000000000 c in
  let d := client_with None 5 0 1000 0 in
  let d2 := CalcStats RINGID_MAXIMUM_v4 ring_wrapped 1700000001000000000
              (CalcStats RINGID_MAXIMUM_v4 ring_wrapped 1700000001000000000 d) in
  (txbytes0 c1 = 1000 /\ txbytes1 c1 = 0) /\
  (txpacketrate d2 = nan /\ txbyterate d2 = nan).
Proof.
  repeat split; vm_compute; reflexivity.
Qed.

(** ** The idle timeout *)

Lemma td_state_eqb_eq a b : td_state_eqb a b = true <-> a = b.
Proof. destruct a, b; cbn; split; congruence. Qed.

Lemma td_state_eqb_neq a b : td_state_eqb a b = false <-> a <> b.
Proof. destruct a, b; cbn; split; congruence. Qed.

Lemma close_if_idle_rule cfg now ctp :
  clienttimeout cfg <> 0 -> idle_rule cfg now ctp (close_if_idle cfg now ctp).
Proof.
  intros Hto. unfold idle_rule, close_if_idle, timed_out, close_pending.
  apply Z.eqb_neq in Hto. rewrite Hto. cbn [negb andb].
  destruct ctp as [st c]. cbn [ctd_state cinfo].
  destruct (clienttimeout cfg * NSTMODULUS <? now - lastxchange c) eqn:Ht;
    [ apply Z.ltb_lt in Ht | apply Z.ltb_ge in Ht ].
  - destruct st; cbn; repeat apply conj; intros; auto; try lia;
      match goal with
      | H : _ \/ _ |- _ => destruct H as [H | [H | H]]; discriminate
      | H : ~ _ |- _ => exfalso; apply H; auto
      end.
  - repeat apply conj; intros; auto; lia.
Qed.

Section IdleTimeout.

Variable RINGID_MAXIMUM : Z.
Variable WriteTLog : ClientInfo -> ClientInfo.

Lemma watch_client_rule cfg rp env write_tlog i ctp :
  clienttimeout cfg <> 0 ->
  (forall c, lastxchange (WriteTLog c) = lastxchange c) ->
  idle_rule cfg (hpcurtime env) ctp
    (watch_client RINGID_MAXIMUM WriteTLog cfg rp env write_tlog i ctp).
Proof.
  intros Hto Hlog. unfold watch_client.
  match goal with
  | |- idle_rule _ _ _ (close_if_idle _ _ ?x) =>
      pose proof (close_if_idle_rule cfg (hpcurtime env) x Hto) as H;
      assert (Hl : lastxchange (cinfo x) = lastxchange (cinfo ctp))
        by (cbn; destruct write_tlog; rewrite ?Hlog; reflexivity);
      assert (Hs : ctd_state x = ctd_state ctp) by reflexivity
  end.
  unfold idle_rule, timed_out, close_pending in *.
  rewrite Hl, Hs in H. exact H.
Qed.

Lemma watch_clients_idle_rule (cfg : config_s) (rp : RingParams) (env : pass_env)
    (write_tlog : bool) (l : list cthread) :
  clienttimeout cfg <> 0 ->
  (forall c, lastxchange (WriteTLog c) = lastxchange c) ->
  forall (i : nat) (count : Z) (acc : rates),
  Forall2 (idle_rule cfg (hpcurtime env))
    (filter live l)
    (fst (fst (watch_clients RINGID_MAXIMUM WriteTLog cfg rp env write_tlog
                 i l count acc))).
Proof.
  intros Hto Hlog.
  induction l as [| ctp l IH]; intros i count acc; cbn [watch_clients filter].
  - constructor.
  - unfold live at 1. destruct (td_state_eqb (ctd_state ctp) TDS_CLOSED);
      cbn [negb].
    + apply IH.
    + match goal with
      | |- context [watch_clients _ _ _ _ _ _ (S i) l count ?a] =>
          specialize (IH (S i) count a)
      end.
      destruct (watch_clients _ _ _ _ _ _ _ _ _ _) as [[l' count'] acc'].
      cbn [fst] in *. constructor; [ | exact IH ].
      now apply watch_client_rule.
Qed.

(** The tick that starts the shutdown: the shutdown block sets CLOSE on
    every client not CLOSING or CLOSED, then the client pass removes the
    CLOSED ones and finds nothing left for the idle check to change. *)
Lemma watch_clients_after_request (cfg : config_s) (rp : RingParams)
    (env : pass_env) (write_tlog : bool) (l : list cthread) :
  clienttimeout cfg <> 0 ->
  (forall c, lastxchange (WriteTLog c) = lastxchange c) ->
  forall (i : nat) (count : Z) (acc : rates),
  Forall2 (tick_rule cfg (hpcurtime env) 1)
    (filter live l)
    (fst (fst (watch_clients RINGID_MAXIMUM WriteTLog cfg rp env write_tlog
                 i (request_clients_shutdown l) count acc))).
Proof.
  intros Hto Hlog.
  induction l as [| ctp l IH]; intros i count acc;
    cbn [request_clients_shutdown watch_clients filter].
  - constructor.
  - unfold live at 1.
    assert (Hst : ctd_state (request_client_shutdown ctp)
                  = match ctd_state ctp with
                    | TDS_CLOSING => TDS_CLOSING
                    | TDS_CLOSED => TDS_CLOSED
                    | _ => TDS_CLOSE
                    end)
      by (unfold request_client_shutdown; destruct ctp as [[] c]; reflexivity).
    destruct (td_state_eqb (ctd_state ctp) TDS_CLOSED) eqn:Hc.
    + apply td_state_eqb_eq in Hc. rewrite Hc in Hst. rewrite Hst.
      cbn [td_state_eqb negb]. apply IH.
    + apply td_state_eqb_neq in Hc.
      assert (Hn : td_state_eqb (ctd_state (request_client_shutdown ctp))
                                TDS_CLOSED = false)
        by (rewrite Hst; destruct (ctd_state ctp) eqn:E; try reflexivity;
            congruence).
      rewrite Hn. cbn [negb].
      match goal with
      | |- context [watch_clients _ _ _ _ _ _ (S i) _ count ?a] =>
          specialize (IH (S i) count a)
      end.
      destruct (watch_clients _ _ _ _ _ _ _ _ _ _) as [[l' count'] acc'].
      cbn [fst] in *. constructor; [ | exact IH ].
      pose proof (watch_client_rule cfg rp env write_tlog i
                    (request_client_shutdown ctp) Hto Hlog)
        as (_ & Hkeep & Hkeep').
      assert (Hp : close_pending (request_client_shutdown ctp)).
      { unfold close_pending. rewrite Hst.
        destruct (ctd_state ctp); auto. }
      assert (Hs : ctd_state (watch_client RINGID_MAXIMUM WriteTLog cfg rp env
                                write_tlog i (request_client_shutdown ctp))
                   = ctd_state (request_client_shutdown ctp)).
      { destruct (Z.lt_ge_cases (clienttimeout cfg * NSTMODULUS)
                    (hpcurtime env
                     - lastxchange (cinfo (request_client_shutdown ctp))))
          as [Hlt | Hge].
        - apply Hkeep; [ exact Hlt | exact Hp ].
        - apply Hkeep'. unfold timed_out. lia. }
      unfold tick_rule. rewrite Hs, Hst.
      split; [ | split ].
      * intros _ Hnp. unfold close_pending in Hnp.
        destruct (ctd_state ctp) eqn:E; try reflexivity;
          exfalso; apply Hnp; rewrite ?E; auto.
      * unfold close_pending.
        intros [E | [E | E]]; rewrite E; reflexivity.
      * intros Hne. congruence.
Qed.

(** The idle rule of a pass is the tick rule of a tick that does not
    start the shutdown. *)
Lemma idle_rule_tick_rule cfg now sig l l' :
  sig <> 1 ->
  Forall2 (idle_rule cfg now) l l' -> Forall2 (tick_rule cfg now sig) l l'.
Proof.
  intros Hsig H. induction H as [| a b m m' (H1 & H2 & H3) _ IH];
    constructor; [ | exact IH ].
  unfold tick_rule. split; [ | split ].
  - intros [E | Ht] Hnp; [ congruence | auto ].
  - intros Hp.
    destruct (Z.lt_ge_cases (clienttimeout cfg * NSTMODULUS)
                (now - lastxchange (cinfo a))) as [Hlt | Hge].
    + apply H2; [ exact Hlt | exact Hp ].
    + apply H3. unfold timed_out. lia.
  - intros _ Hnt. auto.
Qed.

(** C8.  With a client timeout configured, for every tick of the
    watchdog, [sig] being the shutdown flag at its start: when [sig]
    has reached 100 the tick leaves the loop at the safety valve and
    changes nothing, no client is closed; otherwise the tick keeps
    exactly the clients that are not CLOSED, in order, and for each of
    them: if its state is not yet CLOSE, CLOSING or CLOSED and either
    the time since its last exchange exceeds the timeout or the tick is
    the one that starts the shutdown ([sig] is 1), the tick leaves it in
    state CLOSE; in every other case the tick leaves its state as it
    was.  The transfer log writer is assumed not to touch the time of
    the last exchange. *)
Theorem idle_clients_closed_each_tick (cfg : config_s) (env : pass_env)
    (w : watchdog) :
  clienttimeout cfg <> 0 ->
  (forall c, lastxchange (WriteTLog c) = lastxchange c) ->
  (100 <= shutdownsig (wd_param w) ->
   watchdog_pass RINGID_MAXIMUM WriteTLog cfg env w
   = (w, Some ShutdownStalled)) /\
  (shutdownsig (wd_param w) < 100 ->
   Forall2 (tick_rule cfg (hpcurtime env) (shutdownsig (wd_param w)))
     (filter live (cthreads (wd_param w)))
     (cthreads (wd_param (fst (watchdog_pass RINGID_MAXIMUM WriteTLog
                                 cfg env w))))).
Proof.
  intros Hto Hlog. split.
  - intros H100. unfold watchdog_pass.
    assert (Hb : begin_shutdown w = w).
    { unfold begin_shutdown.
      assert (E : (shutdownsig (wd_param w) =? 1) = false)
        by (apply Z.eqb_neq; lia).
      now rewrite E. }
    rewrite Hb. unfold shutdown_valve.
    assert (E1 : (1 <? shutdownsig (wd_param w)) = true)
      by (apply Z.ltb_lt; lia).
    assert (E2 : (100 <=? shutdownsig (wd_param w)) = true)
      by (apply Z.leb_le; lia).
    rewrite E1, E2. reflexivity.
  - intros H100. unfold watchdog_pass.
    destruct (Z.eq_dec (shutdownsig (wd_param w)) 1) as [E1 | N1].
    + rewrite E1. unfold begin_shutdown. rewrite E1. cbv zeta.
      cbn [Z.eqb Pos.eqb].
      destruct (request_servers_shutdown (sthreads (wd_param w)))
        as [servers0 fds].
      cbn [wd_param shutdownsig sthreads cthreads clientcount ringparams
           tlogbasedir tlogwrite tv_nsec closed_fds].
      change (shutdown_valve 2) with (Some 3). cbv beta iota.
      match goal with
      | |- context [watch_clients _ _ ?c ?r ?e ?t ?i
                      (request_clients_shutdown ?l) ?n ?a] =>
          pose proof (watch_clients_after_request c r e t l Hto Hlog i n a)
            as Hrule
      end.
      destruct (watch_servers _ _ _) as [servers servercount].
      destruct (watch_clients _ _ _ _ _ _ _ _ _ _) as [[clients count] sums].
      cbn [fst] in Hrule.
      repeat match goal with
             | |- context [if ?b then _ else _] => destruct b
             end;
        exact Hrule.
    + assert (Hb : begin_shutdown w = w).
      { unfold begin_shutdown. apply Z.eqb_neq in N1. now rewrite N1. }
      rewrite Hb. unfold shutdown_valve.
      assert (H100' : (100 <=? shutdownsig (wd_param w)) = false)
        by (apply Z.leb_gt; lia).
      rewrite H100'.
      destruct (1 <? shutdownsig (wd_param w)); cbv beta iota;
        match goal with
        | |- context [watch_clients _ _ ?c ?r ?e ?t ?i ?l ?n ?a] =>
            pose proof (watch_clients_idle_rule c r e t l Hto Hlog i n a)
              as Hrule
        end;
        destruct (watch_servers _ _ _) as [servers servercount];
        destruct (watch_clients _ _ _ _ _ _ _ _ _ _) as [[clients count] sums];
        cbn [fst] in Hrule;
        apply (idle_rule_tick_rule _ _ _ _ _ N1) in Hrule;
        repeat match goal with
               | |- context [if ?b then _ else _] => destruct b
               end;
        exact Hrule.
Qed.

End IdleTimeout.

(** The idle timeout scenario: a client that last exchanged data 3
    seconds before the tick is set to CLOSE, one that did so 1 second
    before it is left ACTIVE. *)
Lemma idle_clients_closed_each_tick_witness :
  let w := idle_watchdog
             (mkParam 2 0 [] [client_idle_for 3; client_idle_for 1]) in
  let now := quiet_pass 1700000003000000000 in
  clienttimeout cfg_timeout2 <> 0 /\
  (forall c, lastxchange (WriteTLog_keep c) = lastxchange c) /\
  shutdownsig (wd_param w) < 100 /\
  Forall2 (tick_rule cfg_timeout2 (hpcurtime now) (shutdownsig (wd_param w)))
    (filter live (cthreads (wd_param w)))
    (cthreads (wd_param (fst (watchdog_pass RINGID_MAXIMUM_v4 WriteTLog_keep
                                cfg_timeout2 now w)))) /\
  map ctd_state
    (cthreads (wd_param (fst (watchdog_pass RINGID_MAXIMUM_v4 WriteTLog_keep
                                cfg_timeout2 now w))))
  = [TDS_CLOSE; TDS_ACTIVE].
Proof.
  cbv zeta.
  assert (H0 : clienttimeout cfg_timeout2 <> 0) by discriminate.
  assert (H1 : forall c, lastxchange (WriteTLog_keep c) = lastxchange c)
    by (intros c; reflexivity).
  assert (H3 : shutdownsig
                 (wd_param (idle_watchdog
                              (mkParam 2 0 []
                                 [client_idle_for 3; client_idle_for 1])))
               < 100) by reflexivity.
  split; [ exact H0 | ]. split; [ exact H1 | ]. split; [ exact H3 | ].
  split.
  - exact (proj2 (idle_clients_closed_each_tick RINGID_MAXIMUM_v4
                    WriteTLog_keep cfg_timeout2
                    (quiet_pass 1700000003000000000)
                    (idle_watchdog
                       (mkParam 2 0 []
                          [client_idle_for 3; client_idle_for 1]))
                    H0 H1) H3).
  - vm_compute. reflexivity.
Defined.

(** C8, the claim as stated fails on two kinds of tick.  On the tick
    that starts the shutdown (the flag is 1), a client that exchanged
    data 1 second ago, within the timeout of 2 seconds, goes from
    ACTIVE to CLOSE.  On a tick that trips the safety valve (the flag
    has reached 100), a client idle for 3 seconds stays ACTIVE and the
    loop is left. *)
Lemma shutdown_ticks_break_the_idle_rule :
  let now := quiet_pass 1700000003000000000 in
  let starting := idle_watchdog (mkParam 1 1 [] [client_idle_for 1]) in
  let stalled := idle_watchdog (mkParam 1 100 [] [client_idle_for 3]) in
  (clienttimeout cfg_timeout2 * NSTMODULUS
   <? hpcurtime now - lastxchange (cinfo (client_idle_for 1))) = false /\
  map ctd_state (cthreads (wd_param starting)) = [TDS_ACTIVE] /\
  map ctd_state
    (cthreads (wd_param (fst (watchdog_pass RINGID_MAXIMUM_v4 WriteTLog_keep
                                cfg_timeout2 now starting))))
  = [TDS_CLOSE] /\
  (clienttimeout cfg_timeout2 * NSTMODULUS
   <? hpcurtime now - lastxchange (cinfo (client_idle_for 3))) = true /\
  watchdog_pass RINGID_MAXIMUM_v4 WriteTLog_keep cfg_timeout2 now stalled
  = (stalled, Some ShutdownStalled) /\
  map ctd_state (cthreads (wd_param stalled)) = [TDS_ACTIVE].
Proof.
  cbv zeta. repeat apply conj; vm_compute; reflexivity.
Qed.

(** ** Shutdown *)

Lemma request_server_shutdown_rule stp :
  server_shutdown_rule stp (fst (request_server_shutdown stp)) /\
  snd (request_server_shutdown stp) = open_listener_sockets [stp].
Proof.
  unfold server_shutdown_rule, request_server_shutdown, open_listener_sockets.
  cbn [flat_map]. rewrite app_nil_r.
  destruct stp as [[lpp | d | t] td]; cbn [sparams std].
  - destruct (0 <? socket lpp); cbn; auto. destruct lpp; auto.
  - destruct td as [[] |]; cbn; auto.
  - destruct td as [[] |]; cbn; auto.
Qed.

Lemma request_servers_shutdown_rule l :
  Forall2 server_shutdown_rule l (fst (request_servers_shutdown l)) /\
  snd (request_servers_shutdown l) = open_listener_sockets l.
Proof.
  induction l as [| stp l [IH1 IH2]]; cbn [request_servers_shutdown].
  - split; [ constructor | reflexivity ].
  - destruct (request_server_shutdown_rule stp) as [H1 H2].
    destruct (request_server_shutdown stp) as [stp' fds].
    destruct (request_servers_shutdown l) as [l' fds'].
    cbn [fst snd] in *. split.
    + now constructor.
    + subst. unfold open_listener_sockets. cbn [flat_map].
      now rewrite app_nil_r.
Qed.

Lemma request_clients_shutdown_rule l :
  Forall2 client_shutdown_rule l (request_clients_shutdown l).
Proof.
  induction l as [| [st c] l IH]; cbn [request_clients_shutdown]; constructor;
    [ | exact IH ].
  unfold client_shutdown_rule, request_client_shutdown.
  destruct st; cbn; auto.
Qed.

Lemma begin_shutdown_sig w :
  shutdownsig (wd_param (begin_shutdown w))
  = if shutdownsig (wd_param w) =? 1 then 2 else shutdownsig (wd_param w).
Proof.
  unfold begin_shutdown. destruct (shutdownsig (wd_param w) =? 1); [ | reflexivity ].
  destruct (request_servers_shutdown _). reflexivity.
Qed.

Section Shutdown.

Variable RINGID_MAXIMUM : Z.
Variable WriteTLog : ClientInfo -> ClientInfo.

Let pass := watchdog_pass RINGID_MAXIMUM WriteTLog.
Let loop := watchdog_loop RINGID_MAXIMUM WriteTLog.

(** A pass that does not leave the loop has seen a flag below 100 and,
    while draining, has counted it up by one. *)
Lemma watchdog_pass_sig cfg env w w' :
  pass cfg env w = (w', None) ->
  let s := shutdownsig (wd_param (begin_shutdown w)) in
  shutdownsig (wd_param w') = (if 1 <? s then s + 1 else s) /\
  (1 < s -> s < 100).
Proof.
  unfold pass, watchdog_pass, shutdown_valve. intros H. cbv zeta.
  set (s := shutdownsig (wd_param (begin_shutdown w))) in *.
  destruct (1 <? s) eqn:H1.
  - destruct (100 <=? s) eqn:H100; [ discriminate | ].
    apply Z.leb_gt in H100.
    destruct (watch_servers _ _ _) as [servers servercount].
    destruct (watch_clients _ _ _ _ _ _ _ _ _ _) as [[clients count] sums].
    repeat match type of H with
           | context [if ?b then _ else _] => destruct b
           end;
      try discriminate; injection H as <-; cbn; auto.
  - apply Z.ltb_ge in H1.
    destruct (watch_servers _ _ _) as [servers servercount].
    destruct (watch_clients _ _ _ _ _ _ _ _ _ _) as [[clients count] sums].
    repeat match type of H with
           | context [if ?b then _ else _] => destruct b
           end;
      try discriminate; injection H as <-; cbn; split; auto; lia.
Qed.

(** Draining ends: from a flag [s >= 2], the loop is left within
    [101 - s] passes. *)
Lemma drain_exits cfg : forall (k : nat) schedule n w,
  2 <= shutdownsig (wd_param w) ->
  100 - shutdownsig (wd_param w) <= Z.of_nat k ->
  (k < List.length schedule)%nat ->
  no_further_signal schedule ->
  exists e m, snd (loop cfg schedule n w) = Some (e, m) /\ (m <= n + k + 1)%nat.
Proof.
  induction k as [| k IH]; intros schedule n w Hs Hk Hlen Hsig;
    (destruct schedule as [| [env others] rest]; [ cbn in Hlen; lia | ]);
    unfold loop; cbn [watchdog_loop]; fold pass; fold loop;
    destruct (pass cfg env w) as [w' [e |]] eqn:Hp;
    try (exists e, (S n); split; [ reflexivity | lia ]);
    apply watchdog_pass_sig in Hp; rewrite begin_shutdown_sig in Hp;
    (destruct (shutdownsig (wd_param w) =? 1) eqn:E1;
       [ apply Z.eqb_eq in E1; lia | ]);
    (destruct (1 <? shutdownsig (wd_param w)) eqn:E2;
       [ | apply Z.ltb_ge in E2; lia ]);
    destruct Hp as [Hw' Hlt]; specialize (Hlt ltac:(lia)).
  - lia.
  - inversion Hsig as [| ? ? Ho Hrest]; subst. cbn [snd] in Ho.
    destruct (IH rest (S n) (with_param w' (others (wd_param w'))))
      as (e & m & He & Hm).
    + cbn [with_param wd_param]. rewrite Ho. lia.
    + cbn [with_param wd_param]. rewrite Ho. lia.
    + cbn in Hlen. lia.
    + exact Hrest.
    + exists e, m. split; [ exact He | lia ].
Qed.

(** C7, as amended.  On the pass that finds a shutdown request, the
    watchdog closes the listening socket of every listener whose
    descriptor is positive and leaves the state of the listener threads
    as it is; it sets to CLOSE every other server thread and every
    client thread that is not CLOSING or CLOSED; and it shortens the
    throttle to 100 ms.  From then on, if no further termination signal
    arrives, the loop is left at the 99th pass at the latest, whatever
    the threads do. *)
Theorem shutdown_request (w : watchdog) :
  shutdownsig (wd_param w) = 1 ->
  let w1 := begin_shutdown w in
  tv_nsec w1 = 100000000 /\
  clientcount (wd_param w1) = clientcount (wd_param w) /\
  Forall2 server_shutdown_rule (sthreads (wd_param w)) (sthreads (wd_param w1)) /\
  closed_fds w1 = closed_fds w ++ open_listener_sockets (sthreads (wd_param w)) /\
  Forall2 client_shutdown_rule (cthreads (wd_param w)) (cthreads (wd_param w1)) /\
  (forall cfg schedule,
     no_further_signal schedule -> (99 <= List.length schedule)%nat ->
     exists e m, snd (loop cfg schedule 0 w) = Some (e, m) /\ (m <= 99)%nat).
Proof.
  intros H1 w1.
  assert (Hsig1 : shutdownsig (wd_param w1) = 2).
  { subst w1. rewrite begin_shutdown_sig, H1. reflexivity. }
  pose proof (request_servers_shutdown_rule (sthreads (wd_param w))) as [Hs Hf].
  pose proof (request_clients_shutdown_rule (cthreads (wd_param w))) as Hc.
  assert (Hw1 : w1 = begin_shutdown w) by reflexivity.
  unfold begin_shutdown in Hw1. rewrite H1 in Hw1. cbn [Z.eqb Pos.eqb] in Hw1.
  destruct (request_servers_shutdown (sthreads (wd_param w))) as [servers fds].
  cbn [fst snd] in Hs, Hf.
  repeat apply conj; try (rewrite Hw1; cbn; congruence).
  intros cfg schedule Hsched Hlen.
  destruct schedule as [| [env others] rest]; [ cbn in Hlen; lia | ].
  unfold loop. cbn [watchdog_loop]. fold pass. fold loop.
  destruct (pass cfg env w) as [w' [e |]] eqn:Hp.
  - exists e, 1%nat. split; [ reflexivity | lia ].
  - apply watchdog_pass_sig in Hp. fold w1 in Hp. rewrite Hsig1 in Hp.
    cbn in Hp. destruct Hp as [Hw' _].
    inversion Hsched as [| ? ? Ho Hrest]; subst. cbn [snd] in Ho.
    destruct (drain_exits cfg 97 rest 1 (with_param w' (others (wd_param w'))))
      as (e & m & He & Hm).
    + cbn [with_param wd_param]. rewrite Ho. lia.
    + cbn [with_param wd_param]. rewrite Ho. lia.
    + cbn in Hlen. lia.
    + exact Hrest.
    + exists e, m. split; [ exact He | lia ].
Qed.

End Shutdown.

(** The shutdown scenario: the listener's descriptor 5 is closed and its
    thread stays ACTIVE, the scanner and the client are set to CLOSE;
    with every thread stuck, the loop gives up at the 99th pass. *)
Lemma shutdown_request_witness :
  shutdownsig (wd_param shutdown_requested) = 1 /\
  (exists e m,
     snd (watchdog_loop RINGID_MAXIMUM_v4 WriteTLog_keep cfg_timeout2
            (stuck_schedule 99) 0 shutdown_requested) = Some (e, m) /\
     (m <= 99)%nat) /\
  tv_nsec (begin_shutdown shutdown_requested) = 100000000 /\
  closed_fds (begin_shutdown shutdown_requested) = [5] /\
  map ctd_state (cthreads (wd_param (begin_shutdown shutdown_requested)))
  = [TDS_CLOSE] /\
  snd (watchdog_loop RINGID_MAXIMUM_v4 WriteTLog_keep cfg_timeout2
         (stuck_schedule 99) 0 shutdown_requested)
  = Some (ShutdownStalled, 99%nat) /\
  snd (watchdog_loop RINGID_MAXIMUM_v4 WriteTLog_keep cfg_timeout2
         (stuck_schedule 98) 0 shutdown_requested) = None.
Proof.
  assert (H1 : shutdownsig (wd_param shutdown_requested) = 1) by reflexivity.
  split; [ exact H1 | ]. split.
  - destruct (shutdown_request RINGID_MAXIMUM_v4 WriteTLog_keep
                shutdown_requested H1) as (_ & _ & _ & _ & _ & Hloop).
    apply Hloop.
    + unfold no_further_signal, stuck_schedule. apply Forall_forall.
      intros x Hx. apply repeat_spec in Hx. subst x. intros p. reflexivity.
    + unfold stuck_schedule. rewrite repeat_length. apply le_n.
  - vm_compute. repeat apply conj; reflexivity.
Defined.

(** C7, the claim as stated fails.  A listener thread is not set to
    CLOSE by the shutdown request: only its socket is closed, while the
    scanner thread next to it is set to CLOSE. *)
Lemma listener_thread_not_set_to_close :
  map std (sthreads (wd_param shutdown_requested))
  = [Some TDS_ACTIVE; Some TDS_ACTIVE] /\
  map std (sthreads (wd_param (begin_shutdown shutdown_requested)))
  = [Some TDS_ACTIVE; Some TDS_CLOSE].
Proof.
  split; vm_compute; reflexivity.
Qed.

(** ** Ring initialization and auto recovery *)

Lemma must_ok e r : fails r = false -> must e r = ([e], Some tt).
Proof. intros H. unfold must. cbn. now rewrite H. Qed.

Lemma backup_suffix_version v : 0 < v -> backup_suffix v = (".version" ++ decimal v)%string.
Proof.
  intros H. unfold backup_suffix.
  destruct (v =? -1) eqn:E; [ apply Z.eqb_eq in E; lia | reflexivity ].
Qed.

(** C4, as amended.  With a ring configured and file operations that
    succeed: a first result of -2, or any nonzero first result with auto
    recovery off, ends the start-up with exit status 1 before anything
    is touched.  In rename mode (auto recovery 1) a result of -1 moves
    both files to their .corrupt names and a positive version v moves
    them to their .version-v names; in delete mode (auto recovery 2)
    any other nonzero result removes both files; each is followed by a
    second initialization, whose failure ends the start-up with exit
    status 1.  After a successful second initialization in rename mode,
    a version whose 16-bit value is 1 makes the version-1 loader replay
    the backup, and the backup files are removed when the loader reports
    a count that is not negative; any other nonzero 16-bit value ends
    the start-up with exit status 1.  Delete mode converts nothing. *)
Theorem ring_startup_recovery (env : startup_env) :
  ringdir env <> None \/ volatilering env = true ->
  files_ok env ->
  let ring := ringfilename env in
  let stream := streamfilename env in
  let init := EvRingInitialize ring stream in
  let close := if 0 <? first_ringfd env then [EvClose (first_ringfd env)] else [] in
  let second := if second_ringinit env =? 0 then Some tt else None in
  (first_ringinit env = -2 \/ first_ringinit env <> 0 /\ autorecovery env = 0 ->
   ring_startup env = ([init], None)) /\
  (autorecovery env = 1 -> first_ringinit env = -1 ->
   ring_startup env
   = ([init] ++ close ++
      [EvRename ring (ring ++ ".corrupt"); EvRename stream (stream ++ ".corrupt");
       init], second)) /\
  (autorecovery env = 1 -> 0 < first_ringinit env ->
   let v := first_ringinit env in
   let ring_bak := (ring ++ ".version" ++ decimal v)%string in
   let stream_bak := (stream ++ ".version" ++ decimal v)%string in
   let moved := [init] ++ close ++
                [EvRename ring ring_bak; EvRename stream stream_bak; init] in
   ring_startup env
   = if negb (second_ringinit env =? 0) then (moved, None)
     else if u16 v =? 0 then (moved, Some tt)
     else if u16 v =? 1 then
       (moved ++ [EvLoadBufferV1 ring_bak] ++
        (if 0 <=? loaded_packets env ring_bak
         then [EvUnlink ring_bak; EvUnlink stream_bak] else []),
        Some tt)
     else (moved, None)) /\
  (autorecovery env = 2 -> first_ringinit env <> 0 -> first_ringinit env <> -2 ->
   ring_startup env
   = ([init] ++ close ++ [EvUnlink ring; EvUnlink stream; init], second)).
Proof.
  intros Hcfg [Hren Hunl]. cbv zeta.
  assert (Hstart : forall k : startup unit,
            (match ringdir env, volatilering env with
             | None, false => return_1
             | _, _ => k
             end) = k).
  { intros k. destruct (ringdir env), (volatilering env); try reflexivity.
    destruct Hcfg; congruence. }
  unfold ring_startup. rewrite Hstart. clear Hstart.
  repeat apply conj.
  - intros [H | [H0 Ha]].
    + rewrite H. reflexivity.
    + apply Z.eqb_neq in H0. rewrite H0, Ha. cbn. rewrite orb_true_r. reflexivity.
  - intros Ha H1. unfold set_aside, convert_backup, convert_version,
      ringfile_backup, streamfile_backup.
    rewrite Ha, H1. cbn [Z.eqb Z.ltb Z.compare Pos.eqb andb orb negb backup_suffix].
    rewrite !must_ok by apply Hren.
    destruct (0 <? first_ringfd env), (second_ringinit env =? 0); reflexivity.
  - intros Ha Hv. unfold set_aside, convert_backup, convert_version,
      ringfile_backup, streamfile_backup.
    rewrite backup_suffix_version by exact Hv.
    assert (E0 : (first_ringinit env =? 0) = false) by (apply Z.eqb_neq; lia).
    assert (E2 : (first_ringinit env =? -2) = false) by (apply Z.eqb_neq; lia).
    assert (Ep : (0 <? first_ringinit env) = true) by (apply Z.ltb_lt; lia).
    rewrite Ha, E0, E2, Ep.
    cbn [Z.eqb Z.ltb Z.compare Pos.eqb andb orb negb].
    rewrite orb_true_r. rewrite !must_ok by apply Hren.
    assert (Hu : 0 <= u16 (first_ringinit env)) by (apply Z.mod_pos_bound; lia).
    destruct (second_ringinit env =? 0); cbn [negb];
      [ | destruct (0 <? first_ringfd env); reflexivity ].
    destruct (u16 (first_ringinit env) =? 0) eqn:U0.
    + apply Z.eqb_eq in U0. rewrite U0.
      destruct (0 <? first_ringfd env); reflexivity.
    + apply Z.eqb_neq in U0.
      assert (Up : (0 <? u16 (first_ringinit env)) = true)
        by (apply Z.ltb_lt; lia).
      rewrite Up. destruct (u16 (first_ringinit env) =? 1);
        [ | destruct (0 <? first_ringfd env); reflexivity ].
      destruct (0 <=? loaded_packets env _);
        rewrite ?must_ok by apply Hunl;
        destruct (0 <? first_ringfd env); reflexivity.
  - intros Ha H0 H2. unfold set_aside, convert_backup, convert_version.
    apply Z.eqb_neq in H0, H2. rewrite Ha, H0, H2.
    cbn [Z.eqb Z.ltb Z.compare Pos.eqb andb orb negb].
    rewrite !must_ok by apply Hunl.
    destruct (0 <? first_ringfd env), (second_ringinit env =? 0); reflexivity.
Qed.

(** The version conversion scenario: a version-1 packet buffer with auto
    recovery 1. *)
Lemma ring_startup_recovery_witness :
  (ringdir (startup_with 1 1) <> None \/ volatilering (startup_with 1 1) = true) /\
  files_ok (startup_with 1 1) /\
  ring_startup (startup_with 1 1)
  = ([EvRingInitialize "/ring/packetbuf" "/ring/streamidx";
      EvClose 4;
      EvRename "/ring/packetbuf" "/ring/packetbuf.version1";
      EvRename "/ring/streamidx" "/ring/streamidx.version1";
      EvRingInitialize "/ring/packetbuf" "/ring/streamidx";
      EvLoadBufferV1 "/ring/packetbuf.version1";
      EvUnlink "/ring/packetbuf.version1";
      EvUnlink "/ring/streamidx.version1"],
     Some tt).
Proof.
  assert (H1 : ringdir (startup_with 1 1) <> None
               \/ volatilering (startup_with 1 1) = true)
    by (left; discriminate).
  assert (H2 : files_ok (startup_with 1 1)) by (split; reflexivity).
  split; [ exact H1 | ]. split; [ exact H2 | ].
  destruct (ring_startup_recovery (startup_with 1 1) H1 H2) as (_ & _ & Hv & _).
  specialize (Hv eq_refl eq_refl). vm_compute in Hv. vm_compute. exact Hv.
Defined.

(** C4, the claim as stated fails.  A positive version other than 1 in
    rename mode: both files are moved to their .version2 names and the
    ring is initialized again, successfully; the version-1 loader is not
    run, the backups stay, and main returns 1.  In delete mode a
    version-1 ring is removed and nothing is replayed.  A refused rename
    ends the start-up before the second initialization.  When the
    version-1 loader fails, the backups are kept and the start-up goes
    on. *)
Lemma unsupported_version_is_fatal :
  ring_startup (startup_with 1 2)
  = ([EvRingInitialize "/ring/packetbuf" "/ring/streamidx";
      EvClose 4;
      EvRename "/ring/packetbuf" "/ring/packetbuf.version2";
      EvRename "/ring/streamidx" "/ring/streamidx.version2";
      EvRingInitialize "/ring/packetbuf" "/ring/streamidx"],
     None) /\
  ring_startup (startup_with 2 1)
  = ([EvRingInitialize "/ring/packetbuf" "/ring/streamidx";
      EvClose 4;
      EvUnlink "/ring/packetbuf";
      EvUnlink "/ring/streamidx";
      EvRingInitialize "/ring/packetbuf" "/ring/streamidx"],
     Some tt) /\
  ring_startup (rename_denied (startup_with 1 (-1)))
  = ([EvRingInitialize "/ring/packetbuf" "/ring/streamidx";
      EvClose 4;
      EvRename "/ring/packetbuf" "/ring/packetbuf.corrupt"],
     None) /\
  ring_startup (loader_fails (startup_with 1 1))
  = ([EvRingInitialize "/ring/packetbuf" "/ring/streamidx";
      EvClose 4;
      EvRename "/ring/packetbuf" "/ring/packetbuf.version1";
      EvRename "/ring/streamidx" "/ring/streamidx.version1";
      EvRingInitialize "/ring/packetbuf" "/ring/streamidx";
      EvLoadBufferV1 "/ring/packetbuf.version1"],
     Some tt).
Proof.
  repeat apply conj; vm_compute; reflexivity.
Qed.

(** * Further properties of the server core *)

(** ** Entries that never match *)

Lemma land_absorb a m : Z.land (Z.land a m) m = Z.land a m.
Proof. rewrite <- Z.land_assoc, Z.land_diag. reflexivity. Qed.

Lemma ip_match_normalised a n : ip_match a n -> normalised n.
Proof.
  intros [(_ & Hf & H) | (_ & Hf & H)]; [left | right]; split; try exact Hf.
  - rewrite <- H. apply land_absorb.
  - intros i Hi. rewrite <- (H i Hi). apply land_absorb.
Qed.

Lemma normalised_network_matches n : normalised n -> ip_match (network_address n) n.
Proof.
  intros [(Hf & H) | (Hf & H)]; [left | right]; cbn; auto.
Qed.

Lemma MatchIP_loop_skip n a :
  entry_matches a n = false ->
  forall pre post,
    MatchIP_loop (pre ++ n :: post) a = MatchIP_loop (pre ++ post) a.
Proof.
  intros Hn pre post. induction pre as [| m pre IH]; cbn.
  - rewrite Hn. reflexivity.
  - destruct (entry_matches a m); [ reflexivity | exact IH ].
Qed.

(** X5.  An entry matches some address exactly when its network lies
    within its netmask (and its family is IPv4 or IPv6); the address of
    the network is then one that matches.  An entry with host bits set
    in the network, such as 192.168.1.5 with netmask 255.255.255.0, is
    therefore dead: [MatchIP] answers as if it were not on the list. *)
Theorem entry_matches_some_iff (n : IPNet) :
  ((exists a, entry_matches a n = true) <-> normalised n) /\
  (normalised n -> entry_matches (network_address n) n = true) /\
  (~ normalised n ->
   forall pre post a,
     MatchIP (pre ++ n :: post) a = MatchIP (pre ++ post) a).
Proof.
  split; [ split | split ].
  - intros [a Ha]. apply entry_matches_iff in Ha.
    exact (ip_match_normalised a n Ha).
  - intros H. exists (network_address n). apply entry_matches_iff.
    exact (normalised_network_matches n H).
  - intros H. apply entry_matches_iff. exact (normalised_network_matches n H).
  - intros Hn pre post a.
    assert (Hdead : entry_matches a n = false).
    { apply entry_matches_false_iff. intros Hm. apply Hn.
      exact (ip_match_normalised a n Hm). }
    destruct (Z.eq_dec (sa_family a) AF_INET) as [H4 | H4];
      [ | destruct (Z.eq_dec (sa_family a) AF_INET6) as [H6 | H6] ].
    + rewrite !MatchIP_is_loop by (left; exact H4).
      apply MatchIP_loop_skip. exact Hdead.
    + rewrite !MatchIP_is_loop by (right; exact H6).
      apply MatchIP_loop_skip. exact Hdead.
    + rewrite !MatchIP_other_family by assumption. reflexivity.
Qed.

(** The entry 192.168.1.5/255.255.255.0 hides nothing and matches
    nothing, not even 192.168.1.5. *)
Example dead_entry_example :
  MatchIP [net_host_bits] (host 0xC0A80105) = None /\
  MatchIP [net_host_bits; net4 0xC0A80100 0xFFFFFF00] (host 0xC0A80105)
  = Some (net4 0xC0A80100 0xFFFFFF00).
Proof. split; reflexivity. Qed.

(** ** Addresses that are neither IPv4 nor IPv6 *)

Lemma ClientIPCount_other_family l a :
  sa_family a <> AF_INET -> sa_family a <> AF_INET6 -> ClientIPCount l a = 0.
Proof.
  intros H4 H6. induction l as [| ctp l IH]; cbn; [ reflexivity | ].
  rewrite IH. unfold same_address.
  destruct (sa_family (addr (cinfo ctp)) =? sa_family a); [ | reflexivity ].
  apply Z.eqb_neq in H4, H6. rewrite H4, H6. reflexivity.
Qed.

(** X6.  A connection whose address is of a family other than AF_INET
    and AF_INET6 matches no list: it is rejected whenever a match list
    is configured, the reject list and the per-address cap never stop
    it, the reserve above the global cap is closed to it, and the client
    record gets neither write permission nor trust nor a stream limit.
    The per-address cap is an unsigned value. *)
Theorem other_family_policy (cfg : config_s) (count : Z)
    (clients : list cthread) (conn : connection) :
  sa_family (paddr conn) <> AF_INET -> sa_family (paddr conn) <> AF_INET6 ->
  0 <= maxclientsperip cfg ->
  let verdict := ListenThread_policy cfg count clients (paddr conn) in
  (matchips cfg <> [] -> verdict = RejectNonMatching) /\
  (matchips cfg = [] ->
   verdict = if negb (maxclients cfg =? 0) && (maxclients cfg <=? u32 count)
             then RejectMaxClients else Allow) /\
  ClientIPCount clients (paddr conn) = 0 /\
  writeperm (new_client cfg conn) = false /\
  trusted (new_client cfg conn) = false /\
  climitstr (new_client cfg conn) = None.
Proof.
  intros H4 H6 Hk0 verdict. subst verdict.
  unfold ListenThread_policy, write_listed, new_client. cbn.
  rewrite !MatchIP_other_family by assumption.
  rewrite ClientIPCount_other_family by assumption. cbn.
  repeat split.
  - intros Hm. destruct (matchips cfg); [ congruence | reflexivity ].
  - intros ->. cbn.
    replace (maxclientsperip cfg <=? u32 0) with (maxclientsperip cfg <=? 0)
      by reflexivity.
    assert (Hcap : negb (maxclientsperip cfg =? 0) && true
                   && (maxclientsperip cfg <=? 0) = false).
    { destruct (maxclientsperip cfg =? 0) eqn:Hk; [ reflexivity | ].
      apply Z.eqb_neq in Hk. cbn. apply Z.leb_gt. lia. }
    rewrite Hcap.
    destruct (rejectips cfg); cbn; rewrite ?andb_false_r;
      destruct (negb (maxclients cfg =? 0) && (maxclients cfg <=? u32 count));
      reflexivity.
Qed.

(** A peer of family AF_UNIX against a configuration with every list
    set: admitted without write permission, although the write list
    holds 0.0.0.0/0. *)
Lemma other_family_policy_witness :
  let conn := connection_from unix_peer in
  sa_family (paddr conn) <> AF_INET /\ sa_family (paddr conn) <> AF_INET6 /\
  0 <= maxclientsperip cfg_all_lists /\
  ListenThread_policy cfg_all_lists 0 [] (paddr conn) = Allow /\
  writeperm (new_client cfg_all_lists conn) = false /\
  writeperm (new_client cfg_all_lists (connection_from (host 0x0A000001)))
  = true.
Proof.
  intros conn.
  assert (H4 : sa_family (paddr conn) <> AF_INET) by (cbv; discriminate).
  assert (H6 : sa_family (paddr conn) <> AF_INET6) by (cbv; discriminate).
  assert (Hk : 0 <= maxclientsperip cfg_all_lists) by (cbv; discriminate).
  pose proof (other_family_policy cfg_all_lists 0 [] conn H4 H6 Hk) as H.
  cbv zeta in H. destruct H as (_ & Hv & _ & Hw & _).
  split; [ exact H4 | ]. split; [ exact H6 | ]. split; [ exact Hk | ].
  split; [ exact (Hv eq_refl) | ]. split; [ exact Hw | reflexivity ].
Defined.

(** ** The per-address cap *)












Section PerAddress.

Variable RINGID_MAXIMUM : Z.
Variable WriteTLog : ClientInfo -> ClientInfo.
Hypothesis WriteTLog_addr : forall c, addr (WriteTLog c) = addr c.








End PerAddress.



(** ** The watchdog pass, field by field *)

Section Watchdog.

Variable RINGID_MAXIMUM : Z.
Variable WriteTLog : ClientInfo -> ClientInfo.

Let pass := watchdog_pass RINGID_MAXIMUM WriteTLog.
Let loop := watchdog_loop RINGID_MAXIMUM WriteTLog.

(** The result of a pass that gets past the safety valve. *)
Lemma watchdog_pass_fields cfg env w sig :
  shutdown_valve (shutdownsig (wd_param (begin_shutdown w))) = Some sig ->
  let w1 := begin_shutdown w in
  let write_tlog := if tlogbasedir w1 && (sig =? 0) then window_passed env
                    else tlogwrite w1 in
  let sv := watch_servers sig env (sthreads (wd_param w1)) in
  let cl := watch_clients RINGID_MAXIMUM WriteTLog cfg (ringparams w1) env
              write_tlog 0 (cthreads (wd_param w1)) (clientcount (wd_param w1))
              (mkRates 0 0 0 0) in
  let reset := tlogbasedir w1 && (sig =? 0)
               && (write_tlog || config_changed env) in
  let r := pass cfg env w in
  sthreads (wd_param (fst r)) = fst sv /\
  cthreads (wd_param (fst r)) = fst (fst cl) /\
  clientcount (wd_param (fst r)) = snd (fst cl) /\
  shutdownsig (wd_param (fst r)) = sig /\
  ringparams (fst r)
  = mkRing (latestoffset (ringparams w1)) (earliestoffset (ringparams w1))
      (maxoffset (ringparams w1))
      (sum_txpacketrate (snd cl)) (sum_txbyterate (snd cl))
      (sum_rxpacketrate (snd cl)) (sum_rxbyterate (snd cl)) /\
  tlogwrite (fst r) = (if reset then false else write_tlog) /\
  tlogbasedir (fst r) = tlogbasedir w1 /\
  tv_nsec (fst r) = tv_nsec w1 /\
  closed_fds (fst r) = closed_fds w1 /\
  snd r = if reset && negb (calcintwin_ok env) then Some IntervalError
          else if (2 <=? sig) && (snd (fst cl) =? 0) && (snd sv =? 0)
               then Some ShutdownComplete
               else None.
Proof.
  intros Hv. cbv zeta. unfold pass, watchdog_pass. rewrite Hv.
  destruct (watch_servers _ _ _) as [srv servercount].
  destruct (watch_clients _ _ _ _ _ _ _ _ _ _) as [[clients count] sums].
  cbn [fst snd].
  repeat match goal with
         | |- context [if ?b then (_, _) else _] => destruct b
         end; cbn; repeat apply conj; reflexivity.
Qed.

(** The valve lets the flag 0 through as it is, and a flag from 1 to 99
    counted up, 1 by way of 2. *)
Lemma valve_in_service w :
  shutdownsig (wd_param w) = 0 ->
  begin_shutdown w = w /\
  shutdown_valve (shutdownsig (wd_param (begin_shutdown w))) = Some 0.
Proof.
  intros H. unfold begin_shutdown. rewrite H. cbn. rewrite H. auto.
Qed.

Lemma valve_in_shutdown w :
  1 <= shutdownsig (wd_param w) < 100 ->
  exists sig,
    shutdown_valve (shutdownsig (wd_param (begin_shutdown w))) = Some sig /\
    3 <= sig <= 100 /\
    sig = (if shutdownsig (wd_param w) =? 1 then 3
           else shutdownsig (wd_param w) + 1).
Proof.
  intros H. rewrite begin_shutdown_sig. unfold shutdown_valve.
  destruct (shutdownsig (wd_param w) =? 1) eqn:H1.
  - exists 3. cbn. repeat split; lia.
  - apply Z.eqb_neq in H1.
    assert (H2 : (1 <? shutdownsig (wd_param w)) = true) by (apply Z.ltb_lt; lia).
    assert (H3 : (100 <=? shutdownsig (wd_param w)) = false)
      by (apply Z.leb_gt; lia).
    rewrite H2, H3. eexists. split; [ reflexivity | ]. split; [ lia | reflexivity ].
Qed.

(** ** Supervision of the server threads *)

Lemma running_dec td : running td \/ ~ running td.
Proof.
  destruct td as [[] |];
    try (left; eexists; split; [ reflexivity | discriminate ]);
    right; intros (st & H & Hn); try discriminate;
    injection H as <-; apply Hn; reflexivity.
Qed.

Lemma watch_server_service env stp :
  supervise_rule env stp (fst (watch_server 0 env stp)).
Proof.
  unfold supervise_rule, watch_server, recognised, running.
  destruct stp as [sp td]. cbn.
  destruct sp as [lpp | dirname | type]; cbn;
    (split; [ reflexivity | ]);
    (split; [ intros (st & -> & Hn); destruct st; try reflexivity;
              exfalso; apply Hn; reflexivity | ]);
    (split; [ intros H; try reflexivity; exfalso; apply H; exact I | ]);
    intros Hr Hn; try (exfalso; exact Hr);
    destruct td as [[] |]; try reflexivity;
    exfalso; apply Hn; eexists; split; try reflexivity; discriminate.
Qed.

Lemma watch_server_wind_down sig env stp :
  sig <> 0 -> wind_down_rule stp (fst (watch_server sig env stp)).
Proof.
  intros Hs. apply Z.eqb_neq in Hs.
  unfold wind_down_rule, watch_server, recognised.
  destruct stp as [sp td]. cbn. rewrite Hs. cbn.
  destruct sp as [lpp | dirname | type]; cbn;
    (split; [ intros st' H; destruct td as [[] |]; try discriminate;
              eexists; reflexivity | ]);
    intros Hr; try (exfalso; exact Hr);
    destruct td as [[] |]; discriminate.
Qed.

Lemma watch_servers_Forall2 (R : sthread -> sthread -> Prop) sig env :
  (forall stp, R stp (fst (watch_server sig env stp))) ->
  forall l, Forall2 R l (fst (watch_servers sig env l)).
Proof.
  intros HR. induction l as [| stp l IH]; cbn; [ constructor | ].
  pose proof (HR stp) as H.
  destruct (watch_server sig env stp) as [stp' n].
  destruct (watch_servers sig env l) as [next' servercount].
  cbn in *. constructor; assumption.
Qed.

Lemma Forall2_compose {A : Type} (R S T : A -> A -> Prop) :
  (forall a b c, R a b -> S b c -> T a c) ->
  forall l1 l2 l3, Forall2 R l1 l2 -> Forall2 S l2 l3 -> Forall2 T l1 l3.
Proof.
  intros H l1 l2 l3 H12. revert l3.
  induction H12 as [| a b l1 l2 Hab _ IH]; intros l3 H23; inversion H23; subst.
  - constructor.
  - constructor; [ eapply H; eassumption | apply IH; assumption ].
Qed.

Lemma shutdown_then_wind_down a b c :
  server_shutdown_rule a b -> wind_down_rule b c -> wind_down_rule a c.
Proof.
  unfold server_shutdown_rule, wind_down_rule, recognised.
  intros Hab (Hc1 & Hc2).
  destruct (sparams a) as [lpp | dirname | type] eqn:Ha.
  - destruct Hab as (Hstd & Hsp). rewrite Hsp in Hc2. rewrite <- Hstd.
    split; [ exact Hc1 | exact Hc2 ].
  - destruct Hab as (Hsp & Hstd). rewrite Hsp in Hc2. split; [ | exact Hc2 ].
    intros st' H. destruct (Hc1 st' H) as (st & Hb). rewrite Hstd in Hb.
    destruct (std a) as [s |]; [ eexists; reflexivity | discriminate ].
  - destruct Hab as (Hsp & Hstd). split; [ | intros [] ].
    intros st' H. destruct (Hc1 st' H) as (st & Hb). rewrite Hstd in Hb.
    destruct (std a) as [s |]; [ eexists; reflexivity | discriminate ].
Qed.

Lemma begin_then_wind_down a b c :
  a = b \/ server_shutdown_rule a b -> wind_down_rule b c ->
  wind_down_rule a c.
Proof.
  intros [-> | H] Hbc; [ exact Hbc | ].
  exact (shutdown_then_wind_down a b c H Hbc).
Qed.

(** X8.  In a pass of normal service the watchdog leaves the running
    server threads alone and gives every listener and scanner whose
    thread is missing or has ended a new thread, so that after the pass
    all of them run if thread creation succeeds.  In a pass during
    shutdown it starts no thread, and joins the listeners and scanners
    that have ended. *)
Theorem server_threads_supervised (cfg : config_s) (env : pass_env)
    (w : watchdog) :
  let w' := fst (pass cfg env w) in
  (shutdownsig (wd_param w) = 0 ->
   Forall2 (supervise_rule env)
     (sthreads (wd_param w)) (sthreads (wd_param w')) /\
   ((forall sp, spawn_ok env sp = true) ->
    Forall (fun stp' => recognised stp' -> running (std stp'))
      (sthreads (wd_param w')))) /\
  (1 <= shutdownsig (wd_param w) < 100 ->
   Forall2 wind_down_rule (sthreads (wd_param w)) (sthreads (wd_param w'))).
Proof.
  cbv zeta. split.
  - intros H0. destruct (valve_in_service w H0) as (Hb & Hv).
    pose proof (watchdog_pass_fields cfg env w 0 Hv) as Hf. cbv zeta in Hf.
    destruct Hf as (Hs & _). rewrite Hs, Hb.
    assert (HF : Forall2 (supervise_rule env) (sthreads (wd_param w))
                   (fst (watch_servers 0 env (sthreads (wd_param w)))))
      by (apply watch_servers_Forall2; apply watch_server_service).
    split; [ exact HF | ].
    intros Hspawn. revert HF.
    generalize (fst (watch_servers 0 env (sthreads (wd_param w)))).
    generalize (sthreads (wd_param w)).
    induction 1 as [| stp stp' l l' (Hsp & Hrun & _ & Hnew) _ IH];
      constructor; [ | exact IH ].
    intros Hr. assert (Hr0 : recognised stp)
      by (unfold recognised in *; rewrite <- Hsp; exact Hr).
    destruct (running_dec (std stp)) as [Hyes | Hno].
    + rewrite (Hrun Hyes). exact Hyes.
    + rewrite (Hnew Hr0 Hno), Hspawn.
      eexists. split; [ reflexivity | discriminate ].
  - intros H1. destruct (valve_in_shutdown w H1) as (sig & Hv & Hsig & _).
    pose proof (watchdog_pass_fields cfg env w sig Hv) as Hf. cbv zeta in Hf.
    destruct Hf as (Hs & _). rewrite Hs.
    assert (Hfirst : Forall2 (fun a b => a = b \/ server_shutdown_rule a b)
                       (sthreads (wd_param w))
                       (sthreads (wd_param (begin_shutdown w)))).
    { unfold begin_shutdown.
      destruct (shutdownsig (wd_param w) =? 1).
      - pose proof (request_servers_shutdown_rule (sthreads (wd_param w)))
          as (HF & _).
        destruct (request_servers_shutdown _) as [servers fds]. cbn in *.
        revert HF. apply Forall2_impl. auto.
      - generalize (sthreads (wd_param w)).
        induction l; constructor; auto. }
    apply (Forall2_compose _ _ _ begin_then_wind_down _ _ _ Hfirst).
    apply watch_servers_Forall2. intros stp.
    apply watch_server_wind_down. lia.
Qed.

(** A listener whose thread has ended and a scanner without a thread
    both have a new thread after one pass of normal service, and none
    after a pass during shutdown. *)
Example supervision_example :
  map std (sthreads (wd_param (fst (watchdog_pass RINGID_MAXIMUM_v4
             WriteTLog_keep cfg_timeout2 (quiet_pass 1700000003000000000)
             servers_down))))
  = [Some TDS_SPAWNING; Some TDS_SPAWNING] /\
  map std (sthreads (wd_param (fst (watchdog_pass RINGID_MAXIMUM_v4
             WriteTLog_keep cfg_timeout2 (quiet_pass 1700000003000000000)
             (with_param servers_down
                (mkParam 0 1 (sthreads (wd_param servers_down)) []))))))
  = [None; None].
Proof. split; vm_compute; reflexivity. Qed.

(** ** The end of a shutdown *)

Lemma watch_servers_count sig env l :
  0 <= snd (watch_servers sig env l) /\
  (snd (watch_servers sig env l) = 0 <-> Forall (fun stp => std stp = None) l).
Proof.
  induction l as [| stp l (IH0 & IH)]; cbn.
  - split; [ lia | split; constructor ].
  - assert (Hn : snd (watch_server sig env stp)
                 = match std stp with Some _ => 1 | None => 0 end)
      by (unfold watch_server; destruct (sparams stp); reflexivity).
    destruct (watch_server sig env stp) as [stp' n].
    destruct (watch_servers sig env l) as [next' servercount].
    cbn in *. subst n. destruct (std stp) as [st |] eqn:Hstd.
    + split; [ lia | ]. split; [ lia | ].
      intros H. inversion H; subst. congruence.
    + split; [ lia | ]. split.
      * intros H. constructor; [ exact Hstd | apply IH; lia ].
      * intros H. inversion H; subst. apply IH in H3. lia.
Qed.

Lemma watch_servers_none sig env l :
  sig <> 0 ->
  Forall (fun stp => std stp = None) l ->
  Forall (fun stp => std stp = None) (fst (watch_servers sig env l)).
Proof.
  intros Hs H. apply Z.eqb_neq in Hs.
  induction H as [| stp l Hstp _ IH]; cbn; [ constructor | ].
  assert (Hn : std (fst (watch_server sig env stp)) = None).
  { unfold watch_server. rewrite Hstp, Hs.
    destruct (sparams stp); [ reflexivity | reflexivity | exact Hstp ]. }
  destruct (watch_server sig env stp) as [stp' n].
  destruct (watch_servers sig env l) as [next' servercount].
  cbn in *. constructor; assumption.
Qed.


Lemma request_servers_shutdown_none l :
  Forall (fun stp => std stp = None) l <->
  Forall (fun stp => std stp = None) (fst (request_servers_shutdown l)).
Proof.
  pose proof (request_servers_shutdown_rule l) as (H & _).
  revert H. generalize (fst (request_servers_shutdown l)).
  induction 1 as [| a b l l' Hab _ IH]; [ split; constructor | ].
  assert (Hstd : std a = None <-> std b = None).
  { unfold server_shutdown_rule in Hab.
    destruct (sparams a); destruct Hab as (H1 & H2);
      try (rewrite H1; tauto);
      rewrite H2; destruct (std a) as [[] |]; split; congruence. }
  split; intros H; inversion H; subst; constructor; tauto.
Qed.

Lemma begin_shutdown_none w :
  Forall (fun stp => std stp = None) (sthreads (wd_param w)) <->
  Forall (fun stp => std stp = None) (sthreads (wd_param (begin_shutdown w))).
Proof.
  unfold begin_shutdown. destruct (shutdownsig (wd_param w) =? 1);
    [ | tauto ].
  pose proof (request_servers_shutdown_none (sthreads (wd_param w))) as H.
  destruct (request_servers_shutdown _) as [servers fds]. exact H.
Qed.

Lemma request_clients_shutdown_closed l :
  Forall (fun ctp => ctd_state ctp = TDS_CLOSED) l <->
  Forall (fun ctp => ctd_state ctp = TDS_CLOSED) (request_clients_shutdown l).
Proof.
  induction l as [| ctp l IH]; cbn; [ tauto | ].
  assert (H : ctd_state ctp = TDS_CLOSED
              <-> ctd_state (request_client_shutdown ctp) = TDS_CLOSED).
  { unfold request_client_shutdown. destruct ctp as [[] c]; cbn;
      split; congruence. }
  split; intros HF; inversion HF; subst; constructor; tauto.
Qed.

Lemma begin_shutdown_closed w :
  Forall (fun ctp => ctd_state ctp = TDS_CLOSED) (cthreads (wd_param w)) <->
  Forall (fun ctp => ctd_state ctp = TDS_CLOSED)
    (cthreads (wd_param (begin_shutdown w))).
Proof.
  unfold begin_shutdown. destruct (shutdownsig (wd_param w) =? 1);
    [ | tauto ].
  destruct (request_servers_shutdown _) as [servers fds]. cbn.
  apply request_clients_shutdown_closed.
Qed.

(** The clients that a pass leaves are as many as were not CLOSED. *)
Lemma watch_clients_survivors cfg rp env write_tlog l : forall i count acc,
  List.length (fst (fst (watch_clients RINGID_MAXIMUM WriteTLog cfg rp env
                           write_tlog i l count acc)))
  = List.length (filter live l).
Proof.
  induction l as [| ctp l IH]; intros i count acc; cbn; [ reflexivity | ].
  unfold live at 1.
  destruct (td_state_eqb (ctd_state ctp) TDS_CLOSED); cbn.
  - apply IH.
  - match goal with
    | |- context [watch_clients _ _ ?c ?r ?e ?t ?j l ?n ?a] =>
        specialize (IH j n a);
        destruct (watch_clients _ _ c r e t j l n a) as [[next' count'] acc'']
    end.
    cbn in *. rewrite IH. reflexivity.
Qed.

Lemma filter_live_nil l :
  filter live l = [] <-> Forall (fun ctp => ctd_state ctp = TDS_CLOSED) l.
Proof.
  induction l as [| ctp l IH]; cbn; [ split; constructor | ].
  unfold live at 1.
  destruct (td_state_eqb (ctd_state ctp) TDS_CLOSED) eqn:H; cbn.
  - apply td_state_eqb_eq in H. rewrite IH. split.
    + intros HF. constructor; assumption.
    + intros HF. inversion HF; assumption.
  - apply td_state_eqb_neq in H. split; [ discriminate | ].
    intros HF. inversion HF; contradiction.
Qed.

Lemma length_nil {A : Type} (l : list A) : List.length l = 0%nat -> l = [].
Proof. destruct l; [ reflexivity | discriminate ]. Qed.

(** X9.  When a pass reports the shutdown as complete, a termination
    signal had been recorded, every client thread had ended and has been
    reaped in this pass, so that the list is empty and the count 0, and
    every server thread had been joined in an earlier pass.  The client
    count is taken to be the length of the list, as it is in every
    reachable state. *)
Theorem shutdown_complete_leaves_nothing (cfg : config_s) (env : pass_env)
    (w w' : watchdog) :
  pass cfg env w = (w', Some ShutdownComplete) ->
  clientcount (wd_param w) = Z.of_nat (List.length (cthreads (wd_param w))) ->
  1 <= shutdownsig (wd_param w) < 100 /\
  3 <= shutdownsig (wd_param w') /\
  cthreads (wd_param w') = [] /\
  clientcount (wd_param w') = 0 /\
  Forall (fun ctp => ctd_state ctp = TDS_CLOSED) (cthreads (wd_param w)) /\
  Forall (fun stp => std stp = None) (sthreads (wd_param w)) /\
  Forall (fun stp => std stp = None) (sthreads (wd_param w')).
Proof.
  intros H Hlen.
  destruct (shutdown_valve (shutdownsig (wd_param (begin_shutdown w))))
    as [sig |] eqn:Hv.
  2: { unfold pass, watchdog_pass in H. rewrite Hv in H. discriminate. }
  pose proof (watchdog_pass_fields cfg env w sig Hv) as Hf. cbv zeta in Hf.
  rewrite H in Hf. cbn [fst snd] in Hf.
  destruct Hf as (Hs & Hc & Hn & Hsig & _ & _ & _ & _ & _ & He).
  destruct (_ && negb (calcintwin_ok env)); [ discriminate | ].
  destruct ((2 <=? sig) && _ && _) eqn:Hdone; [ | discriminate ].
  apply andb_prop in Hdone. destruct Hdone as (Hdone & Hsc).
  apply andb_prop in Hdone. destruct Hdone as (H2 & Hcount).
  apply Z.leb_le in H2. apply Z.eqb_eq in Hcount, Hsc.
  assert (Hrange : 1 <= shutdownsig (wd_param w) < 100 /\ 3 <= sig).
  { revert Hv. rewrite begin_shutdown_sig. unfold shutdown_valve.
    destruct (shutdownsig (wd_param w) =? 1) eqn:H1.
    - apply Z.eqb_eq in H1. cbn. intros E. injection E as <-. lia.
    - apply Z.eqb_neq in H1.
      destruct (1 <? shutdownsig (wd_param w)) eqn:Hlt.
      + destruct (100 <=? shutdownsig (wd_param w)) eqn:H100;
          [ discriminate | ].
        apply Z.ltb_lt in Hlt. apply Z.leb_gt in H100.
        intros E. injection E as <-. lia.
      + apply Z.ltb_ge in Hlt. intros E. injection E as <-. lia. }
  destruct Hrange as (Hrange & Hsig3).
  match type of Hn with
  | _ = snd (fst (watch_clients _ _ ?c ?r ?e ?t ?i ?l ?n ?a)) =>
      pose proof (watch_clients_length RINGID_MAXIMUM WriteTLog c r e t l i
                    n a 0 ltac:(lia)) as Hw;
      pose proof (watch_clients_survivors c r e t l i n a) as Hsv
  end.
  specialize (Hw ltac:(rewrite begin_shutdown_count,
                         begin_shutdown_clients_length; lia)).
  rewrite Hcount in Hw.
  assert (Hempty : cthreads (wd_param w') = []).
  { rewrite Hc. apply length_nil. lia. }
  split; [ exact Hrange | ]. split; [ lia | ]. split; [ exact Hempty | ].
  split; [ lia | ]. split.
  - apply begin_shutdown_closed. apply filter_live_nil. apply length_nil.
    rewrite <- Hsv, <- Hc, Hempty. reflexivity.
  - assert (Hnone : Forall (fun stp => std stp = None)
                      (sthreads (wd_param (begin_shutdown w))))
      by (apply (watch_servers_count sig env); exact Hsc).
    split; [ apply begin_shutdown_none; exact Hnone | ].
    rewrite Hs. apply watch_servers_none; [ lia | exact Hnone ].
Qed.







End Watchdog.

(** One client that has ended and no server thread, with the signal
    recorded: the pass reaps the client and reports completion. *)
Lemma shutdown_complete_leaves_nothing_witness :
  let w := idle_watchdog
             (mkParam 1 1 [] [mkCthread TDS_CLOSED (client_with None 0 0 0 0)]) in
  exists w',
    watchdog_pass RINGID_MAXIMUM_v4 WriteTLog_keep cfg_timeout2
      (quiet_pass 1700000003000000000) w = (w', Some ShutdownComplete) /\
    clientcount (wd_param w)
    = Z.of_nat (List.length (cthreads (wd_param w))) /\
    cthreads (wd_param w') = [] /\
    clientcount (wd_param w') = 0 /\
    shutdownsig (wd_param w') = 3.
Proof.
  intros w.
  destruct (watchdog_pass RINGID_MAXIMUM_v4 WriteTLog_keep cfg_timeout2
              (quiet_pass 1700000003000000000) w) as [w' e] eqn:Hp.
  assert (He : e = Some ShutdownComplete /\ shutdownsig (wd_param w') = 3).
  { vm_compute in Hp. injection Hp as <- <-. split; reflexivity. }
  destruct He as (-> & Hsig).
  assert (Hlen : clientcount (wd_param w)
                 = Z.of_nat (List.length (cthreads (wd_param w))))
    by reflexivity.
  destruct (shutdown_complete_leaves_nothing RINGID_MAXIMUM_v4 WriteTLog_keep
              cfg_timeout2 (quiet_pass 1700000003000000000) w w' Hp Hlen)
    as (_ & _ & Hc & Hn & _).
  exists w'. split; [ reflexivity | ]. split; [ exact Hlen | ].
  split; [ exact Hc | ]. split; [ exact Hn | exact Hsig ].
Defined.


(** ** Signals *)

(** X11.  The signal thread ends the process with status 1 exactly when
    SIGSEGV is among the signals it waits out; otherwise all it ever
    does to [param] is to set the shutdown flag to 1, which it does
    exactly when SIGINT or SIGTERM is among them, and it prints the
    parameters exactly when SIGUSR1 is.  Every other signal, and every
    failure of [sigwait], changes nothing. *)
Theorem SignalThread_effect (waits : list (Z + Z)) (p : param_s)
    (printed : bool) :
  (In (inr SIGSEGV) waits <-> SignalThread waits p printed = SigExit 1) /\
  (~ In (inr SIGSEGV) waits ->
   exists p',
     SignalThread waits p printed
     = SigHandled p' (printed || existsb requests_print waits) /\
     clientcount p' = clientcount p /\
     sthreads p' = sthreads p /\
     cthreads p' = cthreads p /\
     shutdownsig p'
     = if existsb requests_shutdown waits then 1 else shutdownsig p).
Proof.
  revert p printed.
  induction waits as [| [rc | sig] waits IH]; intros p printed.
  - cbn. split; [ split; [ intros [] | discriminate ] | ].
    intros _. exists p. rewrite orb_false_r. auto.
  - destruct (IH p printed) as (IH1 & IH2).
    cbn [SignalThread existsb requests_shutdown requests_print orb]. split.
    + rewrite <- IH1. cbn. split; [ intros [H | H]; [ discriminate | exact H ]
                                  | auto ].
    + intros Hn. apply IH2. intros H. apply Hn. right. exact H.
  - cbn [SignalThread existsb requests_shutdown requests_print].
    unfold SignalThread_switch.
    destruct ((sig =? SIGINT) || (sig =? SIGTERM)) eqn:Hterm.
    + assert (Hsegv : sig <> SIGSEGV).
      { intros ->. discriminate Hterm. }
      assert (Husr : (sig =? SIGUSR1) = false).
      { apply Z.eqb_neq. intros ->. discriminate Hterm. }
      destruct (IH (mkParam (clientcount p) 1 (sthreads p) (cthreads p))
                  (printed || false)) as (IH1 & IH2).
      split.
      * rewrite <- IH1. cbn. split; [ intros [H | H]; [ congruence | exact H ]
                                    | auto ].
      * intros Hn. destruct IH2 as (p' & -> & Hc & Hs & Hcl & Hsig).
        { intros H. apply Hn. right. exact H. }
        exists p'. cbn in *. rewrite Hsig, Husr, orb_false_r. cbn.
        destruct (existsb requests_shutdown waits); auto.
    + destruct (sig =? SIGUSR1) eqn:Husr.
      * assert (Hsegv : sig <> SIGSEGV).
        { intros ->. discriminate Husr. }
        destruct (IH p (printed || true)) as (IH1 & IH2). split.
        -- rewrite <- IH1. cbn.
           split; [ intros [H | H]; [ congruence | exact H ] | auto ].
        -- intros Hn. destruct IH2 as (p' & -> & Hrest).
           { intros H. apply Hn. right. exact H. }
           exists p'. split; [ | exact Hrest ].
           cbn. rewrite !orb_true_r. reflexivity.
      * destruct (sig =? SIGSEGV) eqn:Hsegv.
        -- apply Z.eqb_eq in Hsegv. subst sig. split.
           ++ split; [ reflexivity | intros _; left; reflexivity ].
           ++ intros Hn. exfalso. apply Hn. left. reflexivity.
        -- apply Z.eqb_neq in Hsegv.
           destruct (IH p (printed || false)) as (IH1 & IH2). split.
           ++ rewrite <- IH1. cbn.
              split; [ intros [H | H]; [ congruence | exact H ] | auto ].
           ++ intros Hn. destruct IH2 as (p' & -> & Hrest).
              { intros H. apply Hn. right. exact H. }
              exists p'. split; [ | exact Hrest ].
              cbn. rewrite orb_false_r. reflexivity.
Qed.

Section Rearm.

Variable RINGID_MAXIMUM : Z.
Variable WriteTLog : ClientInfo -> ClientInfo.

Let pass := watchdog_pass RINGID_MAXIMUM WriteTLog.
Let loop := watchdog_loop RINGID_MAXIMUM WriteTLog.

Lemma pass_below_100 cfg env w :
  shutdownsig (wd_param w) < 100 ->
  snd (pass cfg env w) = None \/ snd (pass cfg env w) = Some ShutdownComplete
  \/ snd (pass cfg env w) = Some IntervalError.
Proof.
  intros H.
  assert (Hv : exists sig,
             shutdown_valve (shutdownsig (wd_param (begin_shutdown w)))
             = Some sig).
  { rewrite begin_shutdown_sig. unfold shutdown_valve.
    destruct (shutdownsig (wd_param w) =? 1) eqn:H1.
    - eexists. reflexivity.
    - destruct (1 <? shutdownsig (wd_param w)); [ | eexists; reflexivity ].
      assert (H100 : (100 <=? shutdownsig (wd_param w)) = false)
        by (apply Z.leb_gt; lia).
      rewrite H100. eexists. reflexivity. }
  destruct Hv as (sig & Hv).
  pose proof (watchdog_pass_fields RINGID_MAXIMUM WriteTLog cfg env w sig Hv)
    as Hf.
  cbv zeta in Hf. fold pass in Hf.
  destruct Hf as (_ & _ & _ & _ & _ & _ & _ & _ & _ & He).
  rewrite He. destruct (_ && negb _); [ auto | ].
  destruct (_ && _ && _); auto.
Qed.

(** X12.  A termination signal that arrives during a shutdown sets the
    flag back to 1, so that the next pass starts the count of the safety
    valve again: while a signal arrives after every pass, the watchdog
    loop is never left by way of the valve, however long the threads
    take. *)
Theorem repeated_signals_hold_the_valve (cfg : config_s)
    (envs : list pass_env) :
  forall (n : nat) (w : watchdog),
  shutdownsig (wd_param w) < 100 ->
  snd (loop cfg (signalled envs) n w) = None \/
  (exists m, snd (loop cfg (signalled envs) n w) = Some (ShutdownComplete, m))
  \/
  (exists m, snd (loop cfg (signalled envs) n w) = Some (IntervalError, m)).
Proof.
  induction envs as [| env envs IH]; intros n w H; [ left; reflexivity | ].
  unfold loop. cbn [signalled map watchdog_loop]. fold (signalled envs).
  fold pass. pose proof (pass_below_100 cfg env w H) as He.
  destruct (pass cfg env w) as [w' [e |]]; cbn [snd] in *.
  - destruct He as [He | [He | He]]; try discriminate;
      injection He as ->; [ right; left | right; right ];
      eexists; reflexivity.
  - apply IH. cbn. lia.
Qed.

End Rearm.

(** A client that never ends: left alone after the signal, the watchdog
    gives up in the 99th pass; signalled after every pass, it is still
    in the loop after 300. *)
Lemma repeated_signals_hold_the_valve_witness :
  shutdownsig (wd_param shutdown_requested) < 100 /\
  snd (watchdog_loop RINGID_MAXIMUM_v4 WriteTLog_keep cfg_timeout2
         (signalled (repeat (quiet_pass 1700000003000000000) 300)) 0
         shutdown_requested) = None /\
  snd (watchdog_loop RINGID_MAXIMUM_v4 WriteTLog_keep cfg_timeout2
         (stuck_schedule 300) 0 shutdown_requested)
  = Some (ShutdownStalled, 99%nat).
Proof.
  assert (H : shutdownsig (wd_param shutdown_requested) < 100) by reflexivity.
  split; [ exact H | ].
  split; [ | vm_compute; reflexivity ].
  destruct (repeated_signals_hold_the_valve RINGID_MAXIMUM_v4 WriteTLog_keep
              cfg_timeout2 (repeat (quiet_pass 1700000003000000000) 300)
              0%nat shutdown_requested H) as [Hn | [(m & Hm) | (m & Hm)]].
  - exact Hn.
  - vm_compute in Hm. discriminate Hm.
  - vm_compute in Hm. discriminate Hm.
Defined.

(** ** The transfer log *)

Section TransferLog.

Variable RINGID_MAXIMUM : Z.
Variables WriteTLog WriteTLog' : ClientInfo -> ClientInfo.

Lemma watch_clients_without_log cfg rp env l : forall i count acc,
  watch_clients RINGID_MAXIMUM WriteTLog cfg rp env false i l count acc
  = watch_clients RINGID_MAXIMUM WriteTLog' cfg rp env false i l count acc.
Proof.
  induction l as [| ctp l IH]; intros i count acc; cbn; [ reflexivity | ].
  destruct (td_state_eqb (ctd_state ctp) TDS_CLOSED); [ apply IH | ].
  rewrite IH. reflexivity.
Qed.

Lemma begin_shutdown_tlog w :
  tlogwrite (begin_shutdown w) = tlogwrite w /\
  tlogbasedir (begin_shutdown w) = tlogbasedir w.
Proof.
  unfold begin_shutdown. destruct (shutdownsig (wd_param w) =? 1);
    [ | auto ].
  destruct (request_servers_shutdown _). auto.
Qed.

Lemma valve_zero w sig :
  shutdown_valve (shutdownsig (wd_param (begin_shutdown w))) = Some sig ->
  sig = 0 -> shutdownsig (wd_param w) = 0.
Proof.
  rewrite begin_shutdown_sig. unfold shutdown_valve.
  destruct (shutdownsig (wd_param w) =? 1) eqn:H1.
  - cbn. intros H. injection H as <-. discriminate.
  - destruct (1 <? shutdownsig (wd_param w)) eqn:Hlt.
    + apply Z.ltb_lt in Hlt.
      destruct (100 <=? shutdownsig (wd_param w)); [ discriminate | ].
      intros H. injection H as <-. lia.
    + intros H. injection H as <-. auto.
Qed.

(** X13.  The watchdog writes transfer logs only in normal service:
    starting from [tlogwrite] 0, as main enters the loop, the flag is 0
    again after every pass, and a pass without a transfer log directory,
    or with the shutdown flag set, or before the end of the log window
    never calls [WriteTLog], so that its result is the same whatever
    [WriteTLog] does.  The log window that is open when the server is
    told to stop is not written by the watchdog. *)
Theorem transfer_log_only_in_service (cfg : config_s) (env : pass_env)
    (w : watchdog) :
  tlogwrite w = false ->
  tlogwrite (fst (watchdog_pass RINGID_MAXIMUM WriteTLog cfg env w)) = false /\
  (tlogbasedir w = false \/ shutdownsig (wd_param w) <> 0
   \/ window_passed env = false ->
   watchdog_pass RINGID_MAXIMUM WriteTLog cfg env w
   = watchdog_pass RINGID_MAXIMUM WriteTLog' cfg env w) /\
  (forall schedule n,
     tlogwrite (fst (watchdog_loop RINGID_MAXIMUM WriteTLog cfg schedule n w))
     = false).
Proof.
  intros H0.
  assert (Hpass : forall env w, tlogwrite w = false ->
            tlogwrite (fst (watchdog_pass RINGID_MAXIMUM WriteTLog cfg env w))
            = false).
  { clear. intros env w H0.
    destruct (begin_shutdown_tlog w) as (Hw & Hd).
    destruct (shutdown_valve (shutdownsig (wd_param (begin_shutdown w))))
      as [sig |] eqn:Hv.
    - pose proof (watchdog_pass_fields RINGID_MAXIMUM WriteTLog cfg env w sig
                    Hv) as Hf.
      cbv zeta in Hf. destruct Hf as (_ & _ & _ & _ & _ & Ht & _).
      rewrite Ht, Hw, H0.
      destruct (tlogbasedir (begin_shutdown w) && (sig =? 0)); cbn;
        [ | reflexivity ].
      destruct (window_passed env), (config_changed env); reflexivity.
    - unfold watchdog_pass. rewrite Hv. cbn. rewrite Hw. exact H0. }
  split; [ exact (Hpass env w H0) | ]. split.
  - intros Hcase.
    destruct (begin_shutdown_tlog w) as (Hw & Hd).
    unfold watchdog_pass.
    destruct (shutdown_valve (shutdownsig (wd_param (begin_shutdown w))))
      as [sig |] eqn:Hv; [ | reflexivity ].
    assert (Hwt : (if tlogbasedir (begin_shutdown w) && (sig =? 0)
                   then window_passed env else tlogwrite (begin_shutdown w))
                  = false).
    { rewrite Hw, Hd, H0.
      destruct (tlogbasedir w) eqn:Hdir; [ | reflexivity ].
      destruct (sig =? 0) eqn:Hz; [ | reflexivity ].
      apply Z.eqb_eq in Hz. pose proof (valve_zero w sig Hv Hz) as Hs.
      destruct Hcase as [Hc | [Hc | Hc]];
        [ discriminate | contradiction | exact Hc ]. }
    rewrite Hwt. rewrite watch_clients_without_log. reflexivity.
  - intros schedule. revert w H0.
    induction schedule as [| [env' others] rest IH]; intros w H0 n;
      [ exact H0 | ].
    cbn [watchdog_loop]. pose proof (Hpass env' w H0) as Hp.
    destruct (watchdog_pass RINGID_MAXIMUM WriteTLog cfg env' w)
      as [w' [e |]]; cbn [fst] in *; [ exact Hp | ].
    apply IH. exact Hp.
Qed.

End TransferLog.

(** With a log directory and the window at its end, a pass of normal
    service calls the writer and a pass during shutdown does not. *)
Lemma transfer_log_only_in_service_witness :
  let env := window_end_pass 1700000003000000000 in
  let stopping := logging_watchdog (mkParam 1 1 [] [sending_client]) in
  let serving := logging_watchdog (mkParam 1 0 [] [sending_client]) in
  tlogwrite stopping = false /\
  watchdog_pass RINGID_MAXIMUM_v4 WriteTLog_reset cfg_cap5 env stopping
  = watchdog_pass RINGID_MAXIMUM_v4 WriteTLog_keep cfg_cap5 env stopping /\
  map (fun ctp => txbytes0 (cinfo ctp))
    (cthreads (wd_param (fst (watchdog_pass RINGID_MAXIMUM_v4 WriteTLog_reset
                                cfg_cap5 env serving)))) = [0] /\
  map (fun ctp => txbytes0 (cinfo ctp))
    (cthreads (wd_param (fst (watchdog_pass RINGID_MAXIMUM_v4 WriteTLog_keep
                                cfg_cap5 env serving)))) = [1000].
Proof.
  intros env stopping serving.
  assert (H0 : tlogwrite stopping = false) by reflexivity.
  split; [ exact H0 | ].
  split; [ | split; vm_compute; reflexivity ].
  destruct (transfer_log_only_in_service RINGID_MAXIMUM_v4 WriteTLog_reset
              WriteTLog_keep cfg_cap5 env stopping H0) as (_ & H & _).
  apply H. right. left. discriminate.
Defined.

(** ** The rates of the ring *)

Section RingRates.

Variable RINGID_MAXIMUM : Z.
Variable WriteTLog : ClientInfo -> ClientInfo.
Hypothesis WriteTLog_rates : forall c,
  txpacketrate (WriteTLog c) = txpacketrate c /\
  txbyterate (WriteTLog c) = txbyterate c /\
  rxpacketrate (WriteTLog c) = rxpacketrate c /\
  rxbyterate (WriteTLog c) = rxbyterate c.

Lemma watch_client_cinfo cfg rp env write_tlog i ctp :
  cinfo (watch_client RINGID_MAXIMUM WriteTLog cfg rp env write_tlog i ctp)
  = if write_tlog
    then WriteTLog (CalcStats RINGID_MAXIMUM rp (stats_clock env i) (cinfo ctp))
    else CalcStats RINGID_MAXIMUM rp (stats_clock env i) (cinfo ctp).
Proof.
  unfold watch_client, close_if_idle. cbn.
  destruct (_ && _); [ destruct (_ && _) | ]; reflexivity.
Qed.

Lemma watch_client_rates cfg rp env write_tlog i ctp :
  let c := CalcStats RINGID_MAXIMUM rp (stats_clock env i) (cinfo ctp) in
  let c' := cinfo (watch_client RINGID_MAXIMUM WriteTLog cfg rp env
                     write_tlog i ctp) in
  txpacketrate c' = txpacketrate c /\ txbyterate c' = txbyterate c /\
  rxpacketrate c' = rxpacketrate c /\ rxbyterate c' = rxbyterate c.
Proof.
  cbv zeta. rewrite watch_client_cinfo.
  destruct write_tlog; [ apply WriteTLog_rates | auto ].
Qed.

Lemma watch_clients_sums cfg rp env write_tlog l : forall i count acc,
  let r := watch_clients RINGID_MAXIMUM WriteTLog cfg rp env write_tlog i l
             count acc in
  sum_txpacketrate (snd r)
  = fold_left (fun s ctp => (s + txpacketrate (cinfo ctp))%float)
      (fst (fst r)) (sum_txpacketrate acc) /\
  sum_txbyterate (snd r)
  = fold_left (fun s ctp => (s + txbyterate (cinfo ctp))%float)
      (fst (fst r)) (sum_txbyterate acc) /\
  sum_rxpacketrate (snd r)
  = fold_left (fun s ctp => (s + rxpacketrate (cinfo ctp))%float)
      (fst (fst r)) (sum_rxpacketrate acc) /\
  sum_rxbyterate (snd r)
  = fold_left (fun s ctp => (s + rxbyterate (cinfo ctp))%float)
      (fst (fst r)) (sum_rxbyterate acc).
Proof.
  induction l as [| ctp l IH]; intros i count acc; cbv zeta;
    cbn [watch_clients].
  - cbn. auto.
  - destruct (td_state_eqb (ctd_state ctp) TDS_CLOSED); [ apply IH | ].
    pose proof (watch_client_rates cfg rp env write_tlog i ctp) as Hr.
    cbv zeta in Hr. destruct Hr as (H1 & H2 & H3 & H4).
    match goal with
    | |- context [watch_clients _ _ ?c ?r ?e ?t ?j l ?n ?a] =>
        specialize (IH j n a); cbv zeta in IH;
        destruct (watch_clients _ _ c r e t j l n a) as [[next' count'] acc'']
    end.
    cbn [fst snd fold_left] in *.
    rewrite H1, H2, H3, H4. exact IH.
Qed.

(** X14.  After every pass that gets past the safety valve, each of the
    four rates of the ring is the sum, taken in list order from 0, of
    that rate over the client records that the pass leaves on the list;
    with no client left the rates are 0.  The transfer log writer is
    taken to leave the rates of a record as they are. *)
Theorem ring_rates_are_sums (cfg : config_s) (env : pass_env) (w : watchdog) :
  shutdownsig (wd_param w) < 100 ->
  let w' := fst (watchdog_pass RINGID_MAXIMUM WriteTLog cfg env w) in
  ring_txpacketrate (ringparams w')
  = rate_sum txpacketrate (cthreads (wd_param w')) /\
  ring_txbyterate (ringparams w')
  = rate_sum txbyterate (cthreads (wd_param w')) /\
  ring_rxpacketrate (ringparams w')
  = rate_sum rxpacketrate (cthreads (wd_param w')) /\
  ring_rxbyterate (ringparams w')
  = rate_sum rxbyterate (cthreads (wd_param w')) /\
  (cthreads (wd_param w') = [] ->
   ring_txpacketrate (ringparams w') = 0%float /\
   ring_txbyterate (ringparams w') = 0%float /\
   ring_rxpacketrate (ringparams w') = 0%float /\
   ring_rxbyterate (ringparams w') = 0%float).
Proof.
  intros H. cbv zeta.
  assert (Hv : exists sig,
             shutdown_valve (shutdownsig (wd_param (begin_shutdown w)))
             = Some sig).
  { rewrite begin_shutdown_sig. unfold shutdown_valve.
    destruct (shutdownsig (wd_param w) =? 1) eqn:H1.
    - eexists. reflexivity.
    - destruct (1 <? shutdownsig (wd_param w)); [ | eexists; reflexivity ].
      assert (H100 : (100 <=? shutdownsig (wd_param w)) = false)
        by (apply Z.leb_gt; lia).
      rewrite H100. eexists. reflexivity. }
  destruct Hv as (sig & Hv).
  pose proof (watchdog_pass_fields RINGID_MAXIMUM WriteTLog cfg env w sig Hv)
    as Hf.
  cbv zeta in Hf. destruct Hf as (_ & Hc & _ & _ & Hr & _).
  rewrite Hr, Hc. cbn [ring_txpacketrate ring_txbyterate ring_rxpacketrate
                        ring_rxbyterate].
  match goal with
  | |- context [watch_clients _ _ ?c ?r ?e ?t ?i ?l ?n ?a] =>
      pose proof (watch_clients_sums c r e t l i n a) as Hs
  end.
  cbv zeta in Hs. destruct Hs as (H1 & H2 & H3 & H4).
  unfold rate_sum.
  split; [ exact H1 | ]. split; [ exact H2 | ]. split; [ exact H3 | ].
  split; [ exact H4 | ].
  intros Hnil. rewrite Hnil in H1, H2, H3, H4. cbn in *. auto.
Qed.

End RingRates.

(** Two clients that have sent 5 packets each, in their first pass. *)
Lemma ring_rates_are_sums_witness :
  let w := idle_watchdog (mkParam 2 0 [] [sending_client; sending_client]) in
  let w' := fst (watchdog_pass RINGID_MAXIMUM_v4 WriteTLog_reset cfg_cap5
                   (quiet_pass 1700000003000000000) w) in
  (forall c,
     txpacketrate (WriteTLog_reset c) = txpacketrate c /\
     txbyterate (WriteTLog_reset c) = txbyterate c /\
     rxpacketrate (WriteTLog_reset c) = rxpacketrate c /\
     rxbyterate (WriteTLog_reset c) = rxbyterate c) /\
  shutdownsig (wd_param w) < 100 /\
  ring_txpacketrate (ringparams w')
  = rate_sum txpacketrate (cthreads (wd_param w')) /\
  ring_txpacketrate (ringparams w') = 10%float /\
  ring_txbyterate (ringparams w') = 2000%float.
Proof.
  intros w w'.
  assert (Hr : forall c,
             txpacketrate (WriteTLog_reset c) = txpacketrate c /\
             txbyterate (WriteTLog_reset c) = txbyterate c /\
             rxpacketrate (WriteTLog_reset c) = rxpacketrate c /\
             rxbyterate (WriteTLog_reset c) = rxbyterate c)
    by (intros c; repeat split).
  assert (H : shutdownsig (wd_param w) < 100) by reflexivity.
  split; [ exact Hr | ]. split; [ exact H | ].
  split; [ | split; vm_compute; reflexivity ].
  exact (proj1 (ring_rates_are_sums RINGID_MAXIMUM_v4 WriteTLog_reset Hr
                  cfg_cap5 (quiet_pass 1700000003000000000) w H)).
Defined.

(** ** Rates at the edges of the elapsed time *)

Lemma binary_round_aux_even s p e :
  2 ^ 52 <= Zpos p < 2 ^ 53 -> -1000 <= e <= 900 ->
  binary_round_aux prec emax s (Zpos p~0) (e - 1) loc_Exact
  = S754_finite s p e.
Proof.
  intros Hp He.
  assert (Hs : shr_fexp prec emax (Zpos p~0) (e - 1) loc_Exact
               = (Build_shr_record (Zpos p) false false, e)).
  { unfold shr_fexp, Zdigits2, fexp, SpecFloat.emin, prec, emax.
    rewrite (digits2_pos_unique p~0 54) by lia.
    replace (Z.max (54 + (e - 1) - 53) (3 - 1024 - 53) - (e - 1)) with 1 by lia.
    cbn. f_equal. lia. }
  assert (Hs' : shr_fexp prec emax (Zpos p) e loc_Exact
               = (Build_shr_record (Zpos p) false false, e)).
  { unfold shr_fexp, Zdigits2, fexp, SpecFloat.emin, prec, emax.
    rewrite (digits2_pos_unique p 53) by lia.
    replace (Z.max (53 + e - 53) (3 - 1024 - 53) - e) with 0 by lia.
    reflexivity. }
  unfold binary_round_aux. rewrite Hs. cbn [shr_m loc_of_shr_record
    round_nearest_even]. rewrite Hs'. cbn [shr_m].
  assert (Hfin : (e <=? emax - prec) = true)
    by (apply Z.leb_le; unfold emax, prec; lia).
  now rewrite Hfin.
Qed.

(** A normal double divided by 1 is itself. *)
Lemma SFdiv_one s m e :
  2 ^ 52 <= Zpos m < 2 ^ 53 -> -400 <= e <= 400 ->
  SFdiv prec emax (S754_finite s m e) (Prim2SF 1) = S754_finite s m e.
Proof.
  intros Hm He.
  change (Prim2SF 1) with (S754_finite false 4503599627370496 (-52)).
  cbn [SFdiv]. unfold SFdiv_core_binary.
  cbn [Zdigits2]. rewrite (digits2_pos_unique m 53) by lia.
  change (Zpos (digits2_pos 4503599627370496)) with 53.
  unfold fexp, SpecFloat.emin, prec, emax.
  replace (Z.min (Z.max (53 + e - (53 + -52) - 53) (3 - 1024 - 53)) (e - -52))
    with (e - 1) by lia.
  replace (e - -52 - (e - 1)) with 53 by lia.
  rewrite Z.shiftl_mul_pow2 by lia.
  pose proof (Z_div_mod (Zpos m * 2 ^ 53) 4503599627370496 ltac:(lia)) as Hdm.
  destruct (Z.div_eucl (Zpos m * 2 ^ 53) 4503599627370496) as [q r].
  destruct Hdm as [Hq Hr].
  assert (Eq : q = Zpos m~0) by lia.
  assert (Er : r = 0) by lia.
  subst q r. rewrite xorb_false_r.
  change (new_location 4503599627370496 0) with loc_Exact.
  apply binary_round_aux_even; lia.
Qed.

Lemma u64_small z : 0 <= z < 2 ^ 64 -> u64 z = z.
Proof. intros H. unfold u64. apply Z.mod_small. exact H. Qed.

(** Over one second the rate is the count. *)
Lemma rate_over_one current history :
  counter_pair current history ->
  rate current history 1 = double_of_Z (current - history).
Proof.
  unfold counter_pair, rate. intros H. rewrite u64_small by lia.
  destruct (Z.eq_dec current history) as [-> | Hne].
  - rewrite Z.sub_diag. apply zero_over_positive. reflexivity.
  - destruct (double_of_Z_positive (current - history) ltac:(lia))
      as (m & e & Hx & Hm & He).
    apply Prim2SF_inj. rewrite div_spec, Hx. apply SFdiv_one; lia.
Qed.

(** Over no time at all the rate is not a number when the counter has
    not moved, and infinite when it has. *)
Lemma rate_over_zero current history :
  counter_pair current history ->
  rate current history 0 = stalled_rate current history.
Proof.
  unfold counter_pair, rate, stalled_rate. intros H. rewrite u64_small by lia.
  destruct (Z.eqb_spec current history) as [-> | Hne].
  - rewrite Z.sub_diag. reflexivity.
  - destruct (double_of_Z_positive (current - history) ltac:(lia))
      as (m & e & Hx & Hm & He).
    apply Prim2SF_inj. rewrite div_spec, Hx. reflexivity.
Qed.

Section RateEdges.

Variable RINGID_MAXIMUM : Z.

(** X15.  The first statistics update of a client (rate timestamp
    unset) reports as its rates the counts themselves, converted to
    double: the packets and bytes so far are taken as those of one
    second, whatever the time since the connection was made. *)
Theorem CalcStats_first_update (rp : RingParams) (nsnow : Z) (c : ClientInfo) :
  ratetime c = 0 ->
  let c1 := CalcStats RINGID_MAXIMUM rp nsnow c in
  (0 < txpackets0 c -> counter_pair (txpackets0 c) (txpackets1 c) ->
   txpacketrate c1 = double_of_Z (txpackets0 c - txpackets1 c)) /\
  (0 < txpackets0 c -> counter_pair (txbytes0 c) (txbytes1 c) ->
   txbyterate c1 = double_of_Z (txbytes0 c - txbytes1 c)) /\
  (0 < rxpackets0 c -> counter_pair (rxpackets0 c) (rxpackets1 c) ->
   rxpacketrate c1 = double_of_Z (rxpackets0 c - rxpackets1 c)) /\
  (0 < rxpackets0 c -> counter_pair (rxbytes0 c) (rxbytes1 c) ->
   rxbyterate c1 = double_of_Z (rxbytes0 c - rxbytes1 c)).
Proof.
  intros Ht c1. subst c1. unfold CalcStats, CalcStats_deltasec.
  rewrite Ht. cbn.
  repeat split; intros Hp Hc; apply Z.ltb_lt in Hp; rewrite Hp;
    apply rate_over_one; exact Hc.
Qed.

(** X16.  A statistics update at the clock reading of the update before
    divides by an elapsed time of 0: in a direction that has carried
    packets, each rate becomes not-a-number when its counter has not
    moved, and infinite when it has. *)
Theorem CalcStats_same_clock (rp : RingParams) (nsnow : Z) (c : ClientInfo) :
  ratetime c = nsnow -> nsnow <> 0 ->
  let c1 := CalcStats RINGID_MAXIMUM rp nsnow c in
  CalcStats_deltasec nsnow c = 0%float /\
  (0 < txpackets0 c -> counter_pair (txpackets0 c) (txpackets1 c) ->
   txpacketrate c1 = stalled_rate (txpackets0 c) (txpackets1 c)) /\
  (0 < txpackets0 c -> counter_pair (txbytes0 c) (txbytes1 c) ->
   txbyterate c1 = stalled_rate (txbytes0 c) (txbytes1 c)) /\
  (0 < rxpackets0 c -> counter_pair (rxpackets0 c) (rxpackets1 c) ->
   rxpacketrate c1 = stalled_rate (rxpackets0 c) (rxpackets1 c)) /\
  (0 < rxpackets0 c -> counter_pair (rxbytes0 c) (rxbytes1 c) ->
   rxbyterate c1 = stalled_rate (rxbytes0 c) (rxbytes1 c)).
Proof.
  intros Ht Hn c1. subst c1.
  assert (Hd : CalcStats_deltasec nsnow c = 0%float).
  { unfold CalcStats_deltasec. rewrite Ht.
    apply Z.eqb_neq in Hn. rewrite Hn, Z.sub_diag. reflexivity. }
  split; [ exact Hd | ].
  unfold CalcStats. rewrite Hd. cbn.
  repeat split; intros Hp Hc; apply Z.ltb_lt in Hp; rewrite Hp;
    apply rate_over_zero; exact Hc.
Qed.

End RateEdges.

(** A client that has sent 5 packets and 1000 bytes two hours after it
    connected: the first update reports 5 packets and 1000 bytes per
    second. *)
Lemma CalcStats_first_update_witness :
  let c := client_with None 5 0 1000 0 in
  let c1 := CalcStats RINGID_MAXIMUM_v4 ring_wrapped 1700007200000000000 c in
  ratetime c = 0 /\
  conntime c = 1700000000000000000 /\
  txpacketrate c1 = double_of_Z (txpackets0 c - txpackets1 c) /\
  txpacketrate c1 = 5%float /\ txbyterate c1 = 1000%float.
Proof.
  intros c c1.
  assert (Ht : ratetime c = 0) by reflexivity.
  split; [ exact Ht | ]. split; [ reflexivity | ].
  split; [ | split; vm_compute; reflexivity ].
  apply (proj1 (CalcStats_first_update RINGID_MAXIMUM_v4 ring_wrapped
                  1700007200000000000 c Ht)).
  - reflexivity.
  - unfold counter_pair. cbn. lia.
Defined.

(** The same client updated twice at one clock reading, having sent no
    packet in between but 24 more bytes. *)
Lemma CalcStats_same_clock_witness :
  let now := 1700000001000000000 in
  let c := stamped now (client_with None 5 5 1024 1000) in
  let c1 := CalcStats RINGID_MAXIMUM_v4 ring_wrapped now c in
  ratetime c = now /\ now <> 0 /\
  CalcStats_deltasec now c = 0%float /\
  txpacketrate c1 = nan /\ txbyterate c1 = infinity.
Proof.
  intros now c c1.
  assert (Ht : ratetime c = now) by reflexivity.
  assert (Hn : now <> 0) by discriminate.
  destruct (CalcStats_same_clock RINGID_MAXIMUM_v4 ring_wrapped now c Ht Hn)
    as (Hd & Hp & Hb & _).
  split; [ exact Ht | ]. split; [ exact Hn | ]. split; [ exact Hd | ].
  split.
  - apply Hp; [ reflexivity | unfold counter_pair; cbn; lia ].
  - apply Hb; [ reflexivity | unfold counter_pair; cbn; lia ].
Defined.

(** ** GenProtocolString *)

Lemma string_length_append (s t : string) :
  String.length (s ++ t) = (String.length s + String.length t)%nat.
Proof. induction s as [| c s IH]; cbn; [ reflexivity | rewrite IH; reflexivity ]. Qed.

Lemma substring_0_all (s : string) : forall n,
  (String.length s <= n)%nat -> substring 0 n s = s.
Proof.
  induction s as [| c s IH]; intros [| n] H; cbn in *; try reflexivity;
    try lia.
  rewrite IH by lia. reflexivity.
Qed.

Lemma substring_0_length (s : string) : forall n,
  String.length (substring 0 n s) = Nat.min n (String.length s).
Proof.
  induction s as [| c s IH]; intros [| n]; cbn; try reflexivity.
  rewrite IH. reflexivity.
Qed.

Lemma substring_0_prefix (s : string) : forall n,
  prefix (substring 0 n s) s = true.
Proof.
  induction s as [| c s IH]; intros [| n]; cbn; try reflexivity.
  rewrite IH. destruct (ascii_dec c c); [ reflexivity | contradiction ].
Qed.

Lemma substring_0_append (s t : string) :
  substring 0 (String.length s) (s ++ t) = s.
Proof.
  induction s as [| c s IH]; cbn.
  - destruct t; reflexivity.
  - rewrite IH. reflexivity.
Qed.

Lemma get_last_append (s : string) (c : ascii) :
  get (String.length s) (s ++ String c EmptyString) = Some c.
Proof. induction s as [| d s IH]; cbn; [ reflexivity | exact IH ]. Qed.

Section ProtocolString.

Variables PROTO_DATALINK PROTO_SEEDLINK PROTO_HTTP : Z.
Variables ENCRYPTION_TLS FAMILY_IPv4 FAMILY_IPv6 FAMILY_UNIX : Z.

Let text := protocol_text PROTO_DATALINK PROTO_SEEDLINK PROTO_HTTP
              ENCRYPTION_TLS FAMILY_IPv4 FAMILY_IPv6 FAMILY_UNIX.
Let gen := GenProtocolString PROTO_DATALINK PROTO_SEEDLINK PROTO_HTTP
             ENCRYPTION_TLS FAMILY_IPv4 FAMILY_IPv6 FAMILY_UNIX.

(** The text always ends in a space, and is 6 to 49 characters long. *)
Lemma protocol_text_shape protocols options :
  exists s,
    text protocols options = (s ++ " ")%string /\
    (5 <= String.length s <= 48)%nat.
Proof.
  exists (substring 0 (String.length (text protocols options) - 1)
            (text protocols options)).
  unfold text, protocol_text, protocol_family.
  destruct (has_flag options FAMILY_IPv4), (has_flag options FAMILY_IPv6),
    (has_flag options FAMILY_UNIX), (has_flag protocols PROTO_DATALINK),
    (has_flag protocols PROTO_SEEDLINK), (has_flag protocols PROTO_HTTP),
    (has_flag options ENCRYPTION_TLS);
    (split; [ reflexivity | cbn; lia ]).
Qed.

(** X17.  With room for 50 bytes or more, as in the 100 bytes that
    [ListenThread] passes, [GenProtocolString] leaves in [result] the
    whole text without the space that ends it, and returns the length
    of the text with that space: one more than the length of the string
    in [result], and never 0. *)
Theorem GenProtocolString_with_room (protocols options : Z) (buffer : string)
    (maxlength : Z) :
  50 <= maxlength ->
  exists s,
    gen protocols options (Some buffer) maxlength
    = (Some s, Z.of_nat (String.length s) + 1) /\
    text protocols options = (s ++ " ")%string /\
    0 < Z.of_nat (String.length s) + 1 < maxlength.
Proof.
  intros Hmax.
  destruct (protocol_text_shape protocols options) as (s & Hs & Hlen).
  exists s. split; [ | split; [ exact Hs | lia ] ].
  unfold gen, GenProtocolString, snprintf. fold (text protocols options).
  rewrite Hs.
  assert (Hz : (maxlength =? 0) = false) by (apply Z.eqb_neq; lia).
  rewrite Hz, string_length_append. cbn [String.length].
  rewrite substring_0_all by (rewrite string_length_append; cbn; lia).
  replace (Z.to_nat (Z.of_nat (String.length s + 1) - 1))
    with (String.length s) by lia.
  rewrite get_last_append, substring_0_append.
  assert (Hlt : (Z.of_nat (String.length s + 1) <? maxlength) = true)
    by (apply Z.ltb_lt; lia).
  assert (Hgt : (maxlength <? Z.of_nat (String.length s + 1)) = false)
    by (apply Z.ltb_ge; lia).
  rewrite Hlt, Hgt. cbn. f_equal. lia.
Qed.

(** X18.  Whatever the size of the buffer, [GenProtocolString] writes
    at most [maxlength] bytes: the string in [result] is a prefix of the
    text with fewer than [maxlength] characters.  The value returned is
    the length of that string only when the text was cut short; when it
    was not, it is one more.  With [maxlength] 0 nothing is written and
    the value returned is -1, and for a NULL [result] it is 0. *)
Theorem GenProtocolString_bounds (protocols options : Z) (buffer : string)
    (maxlength : Z) :
  let r := gen protocols options (Some buffer) maxlength in
  let length := Z.of_nat (String.length (text protocols options)) in
  gen protocols options None maxlength = (None, 0) /\
  (maxlength = 0 -> r = (Some buffer, -1)) /\
  (1 <= maxlength ->
   exists s,
     fst r = Some s /\ prefix s (text protocols options) = true /\
     Z.of_nat (String.length s) < maxlength /\
     (length <= maxlength -> snd r = Z.of_nat (String.length s) + 1) /\
     (maxlength < length ->
      snd r = Z.of_nat (String.length s) /\ snd r = maxlength - 1)).
Proof.
  cbv zeta. split; [ reflexivity | ].
  destruct (protocol_text_shape protocols options) as (s & Hs & Hlen).
  unfold gen, GenProtocolString, snprintf. fold (text protocols options).
  assert (Hl : String.length (text protocols options)
               = (String.length s + 1)%nat)
    by (rewrite Hs, string_length_append; reflexivity).
  split.
  - intros ->. cbn [Z.eqb fst snd]. rewrite Hl.
    assert (H0 : (Z.of_nat (String.length s + 1) <? 0) = false)
      by (apply Z.ltb_ge; lia).
    assert (H1 : (0 <? Z.of_nat (String.length s + 1)) = true)
      by (apply Z.ltb_lt; lia).
    rewrite H0, H1. reflexivity.
  - intros Hmax.
    assert (Hz : (maxlength =? 0) = false) by (apply Z.eqb_neq; lia).
    rewrite Hz. cbn [fst snd].
    destruct (Z.lt_ge_cases (Z.of_nat (String.length (text protocols options)))
                maxlength) as [Hroom | Hfull].
    + exists s.
      assert (Hlt : (Z.of_nat (String.length (text protocols options))
                     <? maxlength) = true) by (apply Z.ltb_lt; lia).
      assert (Hgt : (maxlength
                     <? Z.of_nat (String.length (text protocols options)))
                    = false) by (apply Z.ltb_ge; lia).
      rewrite Hlt, Hgt.
      rewrite substring_0_all by lia.
      rewrite Hl.
      replace (Z.to_nat (Z.of_nat (String.length s + 1) - 1))
        with (String.length s) by lia.
      rewrite Hs, get_last_append, substring_0_append.
      rewrite Ascii.eqb_refl. cbn [andb].
      split; [ reflexivity | ].
      split; [ apply prefix_correct; apply substring_0_append | ].
      split; [ lia | ]. split; [ intros _; lia | intros H; lia ].
    + assert (Hlt : (Z.of_nat (String.length (text protocols options))
                     <? maxlength) = false) by (apply Z.ltb_ge; lia).
      rewrite Hlt. cbn [andb].
      exists (substring 0 (Z.to_nat (maxlength - 1)) (text protocols options)).
      split; [ reflexivity | ].
      split; [ apply substring_0_prefix | ].
      rewrite substring_0_length.
      split; [ lia | ]. split.
      * intros Hle.
        assert (Hgt : (maxlength
                       <? Z.of_nat (String.length (text protocols options)))
                      = false) by (apply Z.ltb_ge; lia).
        rewrite Hgt. lia.
      * intros Hcut.
        assert (Hgt : (maxlength
                       <? Z.of_nat (String.length (text protocols options)))
                      = true) by (apply Z.ltb_lt; lia).
        rewrite Hgt.
        assert (Hi : int_of_size (maxlength - 1) = maxlength - 1).
        { unfold int_of_size, u64.
          rewrite (Z.mod_small (maxlength - 1)) by lia.
          rewrite (Z.mod_small (maxlength - 1)) by lia.
          assert (H31 : (maxlength - 1 <? 2 ^ 31) = true)
            by (apply Z.ltb_lt; lia).
          rewrite H31. reflexivity. }
        rewrite Hi. lia.
Qed.

End ProtocolString.

(** The string for an IPv4 listener that speaks every protocol over
    TLS, in the 100 bytes of [ListenThread]. *)
Lemma GenProtocolString_with_room_witness :
  50 <= 100 /\
  (exists s,
     GenProtocolString PROTO_DATALINK_v4 PROTO_SEEDLINK_v4 PROTO_HTTP_v4
       ENCRYPTION_TLS_v4 FAMILY_IPv4_v4 FAMILY_IPv6_v4 FAMILY_UNIX_v4
       7 3 (Some ""%string) 100
     = (Some s, Z.of_nat (String.length s) + 1) /\
     protocol_text PROTO_DATALINK_v4 PROTO_SEEDLINK_v4 PROTO_HTTP_v4
       ENCRYPTION_TLS_v4 FAMILY_IPv4_v4 FAMILY_IPv6_v4 FAMILY_UNIX_v4 7 3
     = (s ++ " ")%string /\
     0 < Z.of_nat (String.length s) + 1 < 100) /\
  GenProtocolString PROTO_DATALINK_v4 PROTO_SEEDLINK_v4 PROTO_HTTP_v4
    ENCRYPTION_TLS_v4 FAMILY_IPv4_v4 FAMILY_IPv6_v4 FAMILY_UNIX_v4
    7 3 (Some ""%string) 100
  = (Some "IPv4: DataLink SeedLink HTTP over TLS"%string, 38) /\
  GenProtocolString PROTO_DATALINK_v4 PROTO_SEEDLINK_v4 PROTO_HTTP_v4
    ENCRYPTION_TLS_v4 FAMILY_IPv4_v4 FAMILY_IPv6_v4 FAMILY_UNIX_v4
    0 8 (Some ""%string) 100
  = (Some "UNIX:"%string, 6).
Proof.
  assert (H : 50 <= 100) by discriminate.
  split; [ exact H | ].
  split; [ | split; vm_compute; reflexivity ].
  exact (GenProtocolString_with_room PROTO_DATALINK_v4 PROTO_SEEDLINK_v4
           PROTO_HTTP_v4 ENCRYPTION_TLS_v4 FAMILY_IPv4_v4 FAMILY_IPv6_v4
           FAMILY_UNIX_v4 7 3 ""%string 100 H).
Defined.

(** The same string in buffers of 38, 10, 1 and 0 bytes. *)
Example GenProtocolString_examples :
  GenProtocolString PROTO_DATALINK_v4 PROTO_SEEDLINK_v4 PROTO_HTTP_v4
    ENCRYPTION_TLS_v4 FAMILY_IPv4_v4 FAMILY_IPv6_v4 FAMILY_UNIX_v4
    7 3 (Some "old"%string) 38
  = (Some "IPv4: DataLink SeedLink HTTP over TLS"%string, 38) /\
  GenProtocolString PROTO_DATALINK_v4 PROTO_SEEDLINK_v4 PROTO_HTTP_v4
    ENCRYPTION_TLS_v4 FAMILY_IPv4_v4 FAMILY_IPv6_v4 FAMILY_UNIX_v4
    7 3 (Some "old"%string) 10
  = (Some "IPv4: Dat"%string, 9) /\
  GenProtocolString PROTO_DATALINK_v4 PROTO_SEEDLINK_v4 PROTO_HTTP_v4
    ENCRYPTION_TLS_v4 FAMILY_IPv4_v4 FAMILY_IPv6_v4 FAMILY_UNIX_v4
    7 3 (Some "old"%string) 1
  = (Some ""%string, 0) /\
  GenProtocolString PROTO_DATALINK_v4 PROTO_SEEDLINK_v4 PROTO_HTTP_v4
    ENCRYPTION_TLS_v4 FAMILY_IPv4_v4 FAMILY_IPv6_v4 FAMILY_UNIX_v4
    7 3 (Some "old"%string) 0
  = (Some "old"%string, -1).
Proof. repeat split; vm_compute; reflexivity. Qed.

(** ** The accept loop *)

Section AcceptLoop.

Variable FAMILY_UNIX : Z.

Let turn := ListenThread_turn FAMILY_UNIX.
Let loop := ListenThread_loop FAMILY_UNIX.

(** The address that the policy sees. *)
Let seen (lpp : ListenPortParams) (addr_storage : sockaddr) (a : arrival)
  : sockaddr :=
  if has_flag (options lpp) FAMILY_UNIX then addr_storage else peer a.

(** X19.  Every connection that [accept] returns on a descriptor other
    than 0 ends in one of three ways: the descriptor is closed once and
    [param] is as before; or a client thread runs on it, its record is
    at the head of the client list with the count one higher, and the
    listener does not close it; or, when the list node cannot be
    allocated, the thread has been created and the listener closes the
    descriptor under it and leaves the loop.  What the turn does to
    [param] is what [ListenThread_dispatch] does for the address that
    the policy sees. *)
Theorem ListenThread_turn_accounts (cfg : config_s) (mseedarchive : bool)
    (lpp : ListenPortParams) (addr_storage : sockaddr) (p : param_s)
    (a : arrival) (fd : Z) (t : listen_turn) :
  accept_r a = AcceptSocket fd -> fd <> 0 ->
  turn cfg mseedarchive lpp addr_storage p a = Some t ->
  turn_storage t = seen lpp addr_storage a /\
  ((turn_param t = p /\ turn_events t = [LClose fd]) \/
   (turn_events t = [LClientThread fd] /\ turn_ctl t = Continue /\
    clientcount (turn_param t) = clientcount p + 1 /\
    exists c, cthreads (turn_param t) = mkCthread TDS_SPAWNING c :: cthreads p
              /\ addr c = seen lpp addr_storage a) \/
   (turn_param t = p /\ turn_events t = [LClientThread fd; LClose fd] /\
    turn_ctl t = Break /\ cnode_ok a = false)) /\
  (has_flag (options lpp) FAMILY_UNIX = true \/ nameinfo_ok a = true ->
   ListenThread_dispatch cfg p
     (mkConn (seen lpp addr_storage a) (arrival_now a)
        (allocations_ok mseedarchive a) (thread_ok a) (cnode_ok a))
   = Some (turn_param t, turn_ctl t)).
Proof.
  intros Hacc Hfd Ht. unfold turn, ListenThread_turn in Ht. rewrite Hacc in Ht.
  unfold seen, ListenThread_dispatch, allocations_ok, close_nonzero in *.
  cbn [paddr conn_now alloc_ok create_ok node_ok].
  apply Z.eqb_neq in Hfd. rewrite Hfd in Ht.
  destruct (has_flag (options lpp) FAMILY_UNIX); cbn [negb andb] in Ht;
    [ | destruct (nameinfo_ok a); cbn [negb] in Ht;
        [ | injection Ht as <-; cbn; split; [ reflexivity | ];
            split; [ left; split; reflexivity
                   | intros [H | H]; discriminate ] ] ];
    (destruct (accepted _); cbn [negb] in Ht |- *;
     [ | injection Ht as <-; cbn; split; [ reflexivity | ];
         split; [ left; split; reflexivity | intros _; reflexivity ] ]);
    destruct (cinfo_ok a), (addr_ok a), mseedarchive, (mswrite_ok a),
      (tdata_ok a), (thread_ok a), (cnode_ok a);
    cbn [negb andb orb] in Ht |- *;
    first
      [ injection Ht as <-; cbn; split; [ reflexivity | ];
        split; [ | intros _; reflexivity ];
        first [ left; split; reflexivity
              | right; right; repeat split; reflexivity ]
      | destruct (clientcount p <? INT_MAX); [ | discriminate ];
        injection Ht as <-; cbn; split; [ reflexivity | ];
        split; [ | intros _; reflexivity ];
        right; left; repeat split; eexists; split; reflexivity ].
Qed.

Lemma turn_break cfg mseedarchive lpp addr_storage p a t :
  turn cfg mseedarchive lpp addr_storage p a = Some t ->
  turn_ctl t = Break -> hard_failure mseedarchive a.
Proof.
  unfold turn, ListenThread_turn, hard_failure, allocations_ok.
  destruct (accept_r a) as [fd | errno].
  - intros Ht Hb. right. exists fd. split; [ reflexivity | ].
    destruct (negb (has_flag (options lpp) FAMILY_UNIX) && negb (nameinfo_ok a));
      [ injection Ht as <-; discriminate | ].
    destruct (negb (accepted _)); [ injection Ht as <-; discriminate | ].
    destruct (cinfo_ok a), (addr_ok a), mseedarchive, (mswrite_ok a),
      (tdata_ok a), (thread_ok a), (cnode_ok a);
      cbn [negb andb orb] in Ht |- *; auto;
      try (injection Ht as <-; discriminate);
      (destruct (clientcount p <? INT_MAX); [ | discriminate ];
       injection Ht as <-; discriminate).
  - intros Ht Hb. left. exists errno. split; [ reflexivity | ].
    injection Ht as <-. cbn in Hb.
    destruct (errno =? ECONNABORTED) eqn:H1; [ discriminate | ].
    destruct (errno =? EINTR) eqn:H2; [ discriminate | ].
    apply Z.eqb_neq in H1, H2. auto.
Qed.

(** X20.  A listener leaves its accept loop only when the shutdown flag
    is set or when a turn met an error of [accept] other than
    ECONNABORTED and EINTR, or a failed allocation.  A connection that
    the policy rejects, a failure of [getnameinfo] or of
    [pthread_create], and the two transient errors never stop it. *)
Theorem listener_stops_only_for_cause (cfg : config_s) (mseedarchive : bool)
    (lpp : ListenPortParams)
    (arrivals : list (arrival * (param_s -> param_s))) :
  forall (addr_storage : sockaddr) (p p' : param_s)
         (events : list listen_event),
  loop cfg mseedarchive lpp arrivals addr_storage p = Some (p', events, true) ->
  shutdownsig p' <> 0 \/
  Exists (fun step => hard_failure mseedarchive (fst step)) arrivals.
Proof.
  induction arrivals as [| [a others] rest IH];
    intros addr_storage p p' events H; unfold loop in H;
    cbn [ListenThread_loop] in H.
  - destruct (shutdownsig p =? 0) eqn:Hs; cbn [negb] in H; [ discriminate | ].
    injection H as <- _. left. apply Z.eqb_neq. exact Hs.
  - destruct (shutdownsig p =? 0) eqn:Hs; cbn [negb] in H.
    + fold turn in H.
      destruct (turn cfg mseedarchive lpp addr_storage p a) as [t |] eqn:Ht;
        cbn [obind] in H; [ | discriminate ].
      destruct (turn_ctl t) eqn:Hctl.
      * fold loop in H.
        destruct (loop cfg mseedarchive lpp rest (turn_storage t)
                    (others (turn_param t))) as [[[q ev] over] |] eqn:Hl;
          cbn [obind] in H; [ | discriminate ].
        injection H as <- _ ->.
        destruct (IH _ _ _ _ Hl) as [Hsig | Hex]; [ left; exact Hsig | ].
        right. apply Exists_cons_tl. exact Hex.
      * right. apply Exists_cons_hd.
        exact (turn_break cfg mseedarchive lpp addr_storage p a t Ht Hctl).
    + injection H as <- _. left. apply Z.eqb_neq. exact Hs.
Qed.

End AcceptLoop.

(** A connection from 10.0.0.1 on descriptor 7 for which everything
    succeeds, and one for which the list node cannot be allocated. *)
Lemma ListenThread_turn_accounts_witness :
  let p := param_init [] in
  let a := arrival_from (host 0x0A000001) 7 in
  let b := arrival_without_node (host 0x0A000001) 7 in
  exists t,
    accept_r a = AcceptSocket 7 /\ 7 <> 0 /\
    ListenThread_turn FAMILY_UNIX_v4 cfg_cap5 false lpp_18000 blank_storage p a
    = Some t /\
    turn_events t = [LClientThread 7] /\
    clientcount (turn_param t) = 1 /\
    ListenThread_dispatch cfg_cap5 p
      (mkConn (host 0x0A000001) (arrival_now a)
         (allocations_ok false a) (thread_ok a) (cnode_ok a))
    = Some (turn_param t, turn_ctl t) /\
    option_map turn_events
      (ListenThread_turn FAMILY_UNIX_v4 cfg_cap5 false lpp_18000 blank_storage p b)
    = Some [LClientThread 7; LClose 7].
Proof.
  intros p a b.
  destruct (ListenThread_turn FAMILY_UNIX_v4 cfg_cap5 false lpp_18000
              blank_storage p a) as [t |] eqn:Ht; [ | vm_compute in Ht; discriminate ].
  exists t.
  assert (Ha : accept_r a = AcceptSocket 7) by reflexivity.
  assert (H7 : 7 <> 0) by discriminate.
  pose proof (ListenThread_turn_accounts FAMILY_UNIX_v4 cfg_cap5 false
                lpp_18000 blank_storage p a 7 t Ha H7 Ht) as (_ & _ & Hd).
  split; [ exact Ha | ]. split; [ exact H7 | ]. split; [ reflexivity | ].
  vm_compute in Ht. injection Ht as <-.
  split; [ reflexivity | ]. split; [ reflexivity | ].
  split; [ exact (Hd (or_intror eq_refl)) | vm_compute; reflexivity ].
Defined.

(** Three turns: an interrupted [accept], a connection, and an
    [accept] that fails for want of descriptors (EMFILE), which ends the
    loop with one client on the list. *)
Lemma listener_stops_only_for_cause_witness :
  let arrivals := [(arrival_failed EINTR, fun p => p);
                   (arrival_from (host 0x0A000001) 7, fun p => p);
                   (arrival_failed 24, fun p => p)] in
  exists p',
    ListenThread_loop FAMILY_UNIX_v4 cfg_cap5 false lpp_18000 arrivals
      blank_storage (param_init [])
    = Some (p', [LClientThread 7], true) /\
    clientcount p' = 1 /\
    (shutdownsig p' <> 0 \/
     Exists (fun step => hard_failure false (fst step)) arrivals).
Proof.
  intros arrivals.
  destruct (ListenThread_loop FAMILY_UNIX_v4 cfg_cap5 false lpp_18000 arrivals
              blank_storage (param_init [])) as [[[p' ev] over] |] eqn:Hl;
    [ | vm_compute in Hl; discriminate ].
  assert (He : ev = [LClientThread 7] /\ over = true /\ clientcount p' = 1).
  { vm_compute in Hl. injection Hl as <- <- <-. repeat split. }
  destruct He as (-> & -> & Hc).
  exists p'. split; [ reflexivity | ]. split; [ exact Hc | ].
  exact (listener_stops_only_for_cause FAMILY_UNIX_v4 cfg_cap5 false lpp_18000
           arrivals blank_storage (param_init []) p' [LClientThread 7] Hl).
Defined.

(** ** What the auto recovery does to the files *)

Lemma string_append_neq (s t : string) :
  t <> ""%string -> (s ++ t)%string <> s.
Proof.
  intros Ht H. apply (f_equal String.length) in H.
  rewrite string_length_append in H.
  destruct t; [ contradiction | cbn in H; lia ].
Qed.

Lemma string_append_inj (s t u : string) : (s ++ t = s ++ u)%string -> t = u.
Proof.
  induction s as [| c s IH]; cbn; intros H; [ exact H | ].
  injection H as H. exact (IH H).
Qed.

Lemma string_append_assoc (s t u : string) :
  ((s ++ t) ++ u = s ++ (t ++ u))%string.
Proof. induction s as [| c s IH]; cbn; [ reflexivity | rewrite IH; reflexivity ]. Qed.

Lemma backup_suffix_dot ringinit :
  exists rest, backup_suffix ringinit = String "."%char rest.
Proof.
  unfold backup_suffix. destruct (ringinit =? -1); eexists; reflexivity.
Qed.

(** The backup names are names of neither the ring file nor the stream
    index. *)
Lemma backups_are_other_files env :
  ringfile_backup env <> ringfilename env /\
  ringfile_backup env <> streamfilename env /\
  streamfile_backup env <> ringfilename env /\
  streamfile_backup env <> streamfilename env.
Proof.
  destruct (backup_suffix_dot (first_ringinit env)) as (rest & Hs).
  unfold ringfile_backup, streamfile_backup, ringfilename, streamfilename.
  rewrite Hs.
  destruct (ringdir env) as [dir |]; [ destruct (volatilering env) | ];
    try (repeat split; discriminate).
  repeat split; intros H.
  - revert H. apply string_append_neq. discriminate.
  - rewrite string_append_assoc in H. apply string_append_inj in H.
    cbn in H. discriminate H.
  - rewrite string_append_assoc in H. apply string_append_inj in H.
    cbn in H. discriminate H.
  - revert H. apply string_append_neq. discriminate.
Qed.

Ltac startup_cases :=
  unfold ring_startup, set_aside, convert_backup, must, sbind, emit, ret,
    return_1;
  repeat match goal with
         | |- context [match ringdir ?e with _ => _ end] =>
             destruct (ringdir e) eqn:?
         | |- context [if ?b then _ else _] => destruct b eqn:?
         end;
  cbn [fst snd app].

(** X21.  Whatever the file system answers, the start-up touches no file
    when the first initialization succeeds; it renames only in rename
    mode, and then only the ring file and the stream index to their
    backup names; and unless the mode is to delete, it removes neither
    of the two: the only files it removes are the backups, and only
    after the version-1 loader has returned a count of packets that is
    not negative. *)
Theorem recovery_keeps_the_data (env : startup_env) :
  let events := fst (ring_startup env) in
  (first_ringinit env = 0 ->
   forall e, In e events ->
             e = EvRingInitialize (ringfilename env) (streamfilename env)) /\
  (forall a b, In (EvRename a b) events ->
     autorecovery env = 1 /\
     ((a = ringfilename env /\ b = ringfile_backup env) \/
      (a = streamfilename env /\ b = streamfile_backup env))) /\
  (autorecovery env <> 2 ->
   ~ In (EvUnlink (ringfilename env)) events /\
   ~ In (EvUnlink (streamfilename env)) events) /\
  (autorecovery env <> 2 ->
   forall path, In (EvUnlink path) events ->
     (path = ringfile_backup env \/ path = streamfile_backup env) /\
     In (EvLoadBufferV1 (ringfile_backup env)) events /\
     0 <= loaded_packets env (ringfile_backup env)).
Proof.
  cbv zeta.
  destruct (backups_are_other_files env) as (N1 & N2 & N3 & N4).
  assert (Hunlink : autorecovery env <> 2 ->
            forall path, In (EvUnlink path) (fst (ring_startup env)) ->
              (path = ringfile_backup env \/ path = streamfile_backup env) /\
              In (EvLoadBufferV1 (ringfile_backup env)) (fst (ring_startup env))
              /\ 0 <= loaded_packets env (ringfile_backup env)).
  { intros H2 path. startup_cases;
      repeat match goal with
             | H : (_ && _) = true |- _ => apply andb_prop in H; destruct H
             | H : (_ =? _) = true |- _ => apply Z.eqb_eq in H
             | H : (_ <=? _) = true |- _ => apply Z.leb_le in H
             end;
      try congruence;
      cbn [In]; intros Hin;
      repeat match goal with
             | H : _ \/ _ |- _ => destruct H
             | H : False |- _ => destruct H
             | H : EvUnlink _ = EvUnlink _ |- _ => injection H as <-
             | H : _ = EvUnlink _ |- _ => discriminate H
             end;
      (split; [ auto | split; [ cbn [In]; auto 10 | assumption ] ]). }
  split; [ | split; [ | split; [ | exact Hunlink ] ] ].
  - intros H0. apply Z.eqb_eq in H0. startup_cases; try congruence;
      cbn [In]; intros e Hin;
      repeat match goal with
             | H : _ \/ _ |- _ => destruct H
             | H : False |- _ => destruct H
             end; subst; reflexivity.
  - intros a b. startup_cases;
      repeat match goal with
             | H : (_ && _) = true |- _ => apply andb_prop in H; destruct H
             | H : (_ =? _) = true |- _ => apply Z.eqb_eq in H
             end;
      cbn [In]; intros Hin;
      repeat match goal with
             | H : _ \/ _ |- _ => destruct H
             | H : False |- _ => destruct H
             | H : EvRename _ _ = EvRename _ _ |- _ => injection H as <- <-
             | H : _ = EvRename _ _ |- _ => discriminate H
             end;
      auto.
  - intros H2. split; intros Hin;
      destruct (Hunlink H2 _ Hin) as ([E | E] & _); congruence.
Qed.

(** X22.  The start-up goes on to the watchdog loop only after a call of
    [RingInitialize] that returned 0, and calls it once when the first
    call succeeds and at most twice in all. *)
Theorem startup_means_initialised (env : startup_env) :
  (snd (ring_startup env) = Some tt ->
   first_ringinit env = 0 \/
   (second_ringinit env = 0 /\ init_calls (fst (ring_startup env)) = 2%nat)) /\
  (first_ringinit env = 0 ->
   ringdir env <> None \/ volatilering env = true ->
   ring_startup env
   = ([EvRingInitialize (ringfilename env) (streamfilename env)], Some tt)) /\
  (init_calls (fst (ring_startup env)) <= 2)%nat.
Proof.
  split; [ | split ].
  - startup_cases; intros H; try discriminate H;
      repeat match goal with
             | H : (_ =? _) = true |- _ => apply Z.eqb_eq in H
             | H : negb _ = false |- _ => apply negb_false_iff in H
             end; auto.
  - intros H0 Hd. apply Z.eqb_eq in H0. unfold ring_startup.
    rewrite H0. unfold sbind, emit, ret. cbn.
    destruct (ringdir env); [ reflexivity | ].
    destruct (volatilering env); [ reflexivity | ].
    destruct Hd as [Hd | Hd]; [ contradiction | discriminate ].
  - startup_cases; unfold init_calls; cbn; lia.
Qed.

(** A version-1 ring in rename mode whose stream index cannot be
    renamed: the ring file has been moved, nothing is removed, and the
    start-up fails. *)
Example recovery_keeps_the_data_example :
  ring_startup (stream_rename_denied (startup_with 1 1))
  = ([EvRingInitialize "/ring/packetbuf" "/ring/streamidx";
      EvClose 4;
      EvRename "/ring/packetbuf" "/ring/packetbuf.version1";
      EvRename "/ring/streamidx" "/ring/streamidx.version1"],
     None).
Proof. vm_compute. reflexivity. Qed.

(** ** The exit status of main *)

Section MainExit.

Variable RINGID_MAXIMUM : Z.
Variable WriteTLog : ClientInfo -> ClientInfo.

Lemma startup_events_not_shutdown (log : list event) (rest : list main_event) :
  In MRingShutdown (MSignalThread :: map MStartup log ++ rest) ->
  In MRingShutdown rest.
Proof.
  intros [H | H]; [ discriminate H | ].
  apply in_app_or in H. destruct H as [H | H]; [ | exact H ].
  apply in_map_iff in H. destruct H as (e & He & _). discriminate He.
Qed.

Lemma startup_events_no_shutdown (log : list event) :
  ~ In MRingShutdown (MSignalThread :: map MStartup log).
Proof.
  intros H. apply (startup_events_not_shutdown log []).
  rewrite app_nil_r. exact H.
Qed.

(** X23.  main returns 0 only when the start-up succeeded, the watchdog
    loop was left by a shutdown, complete or given up by the safety
    valve, and [RingShutdown], [pthread_cancel] and [pthread_join] all
    succeeded; every other return is 1, a shutdown that the valve gave
    up on returns 0 like a complete one, and main does not return while
    the loop runs.  [RingShutdown] is called only after the loop was
    left by a shutdown: when the loop is left because the log window
    cannot be calculated, main returns 1 without it. *)
Theorem main_exit_status (cfg : config_s) (env : main_env) :
  let r := main RINGID_MAXIMUM WriteTLog cfg env in
  let left := snd (watchdog_loop RINGID_MAXIMUM WriteTLog cfg
                     (main_schedule env) 0 (main_watchdog env)) in
  (forall status, snd r = Some status -> status = 0 \/ status = 1) /\
  (snd r = Some 0 ->
   snd (ring_startup (main_startup env)) = Some tt /\
   (exists n, left = Some (ShutdownComplete, n)
              \/ left = Some (ShutdownStalled, n)) /\
   ringshutdown_r env = 0 /\ cancel_r env = 0 /\ join_r env = 0) /\
  (In MRingShutdown (fst r) ->
   exists n, left = Some (ShutdownComplete, n)
             \/ left = Some (ShutdownStalled, n)) /\
  (forall n, left = Some (IntervalError, n) ->
             snd r = Some 1 /\ ~ In MRingShutdown (fst r)) /\
  (snd r = None -> left = None).
Proof.
  cbv zeta. unfold main, main_finish.
  destruct (processparam_r env <? 0);
    [ cbn; repeat split; try discriminate; try tauto;
      intros status Hs; injection Hs as <-; auto | ].
  destruct (negb (sigfillset_r env =? 0));
    [ cbn; repeat split; try discriminate; try tauto;
      intros status Hs; injection Hs as <-; auto | ].
  destruct (negb (sigmask_r env =? 0));
    [ cbn; repeat split; try discriminate; try tauto;
      intros status Hs; injection Hs as <-; auto | ].
  destruct (negb (sigthread_r env =? 0));
    [ cbn; repeat split; try discriminate; try tauto;
      intros status Hs; injection Hs as <-; auto | ].
  destruct (negb (tcp_known env));
    [ cbn; repeat split; try discriminate; try tauto;
      try (intros status Hs; injection Hs as <-; auto);
      intros [Hin | []]; discriminate Hin | ].
  destruct (ring_startup (main_startup env)) as [log [[] |]]; cbn [fst snd].
  2: { repeat split; try discriminate.
       - intros status Hs; injection Hs as <-; auto.
       - intros Hin. destruct (startup_events_no_shutdown log Hin).
       - intros Hin. destruct (startup_events_no_shutdown log Hin). }
  destruct (tlog_configured env && negb (first_calcintwin_r env =? 0)).
  { cbn [fst snd]. repeat split; try discriminate.
    - intros status Hs; injection Hs as <-; auto.
    - intros Hin. destruct (startup_events_no_shutdown log Hin).
    - intros Hin. destruct (startup_events_no_shutdown log Hin). }
  destruct (watchdog_loop RINGID_MAXIMUM WriteTLog cfg (main_schedule env) 0
              (main_watchdog env)) as [w' [[e n] |]]; cbn [fst snd].
  2: { repeat split; try discriminate.
       intros Hin. destruct (startup_events_no_shutdown log Hin). }
  assert (Hno : ~ In MRingShutdown
                  ((MSignalThread :: map MStartup log) ++ [MWatchdog n])).
  { intros H. apply (startup_events_not_shutdown log [MWatchdog n]) in H.
    destruct H as [H | []]. discriminate H. }
  destruct e.
  - destruct (negb (ringshutdown_r env =? 0)) eqn:H1;
      [ | destruct (negb (cancel_r env =? 0)) eqn:H2;
          [ | destruct (negb (join_r env =? 0)) eqn:H3 ] ];
      cbn [fst snd];
      repeat match goal with
             | H : negb (_ =? _) = false |- _ =>
                 apply negb_false_iff in H; apply Z.eqb_eq in H
             end;
      repeat split; try discriminate; auto;
      try (intros status Hs; injection Hs as <-; auto);
      try (eexists; right; reflexivity).
  - destruct (negb (ringshutdown_r env =? 0)) eqn:H1;
      [ | destruct (negb (cancel_r env =? 0)) eqn:H2;
          [ | destruct (negb (join_r env =? 0)) eqn:H3 ] ];
      cbn [fst snd];
      repeat match goal with
             | H : negb (_ =? _) = false |- _ =>
                 apply negb_false_iff in H; apply Z.eqb_eq in H
             end;
      repeat split; try discriminate; auto;
      try (intros status Hs; injection Hs as <-; auto);
      try (eexists; left; reflexivity).
  - cbn [fst snd]. repeat split; try discriminate; auto.
    + intros status Hs; injection Hs as <-; auto.
    + intros H. contradiction.
Qed.

End MainExit.

(** A listener that never ends after the termination signal: the valve
    gives up in the 100th pass and main returns 0.  A log window that
    cannot be calculated: main returns 1 and the ring is not shut
    down. *)
Example main_exit_examples :
  main RINGID_MAXIMUM_v4 WriteTLog_keep cfg_cap5
    (main_with (startup_with 1 0) false
       [mkSthread (LISTEN_THREAD lpp_18000) None]
       (pass_then_signal :: stuck_schedule 200))
  = ([MSignalThread;
      MStartup (EvRingInitialize "/ring/packetbuf" "/ring/streamidx");
      MWatchdog 100; MRingShutdown; MCancel; MJoin], Some 0) /\
  main RINGID_MAXIMUM_v4 WriteTLog_keep cfg_cap5
    (main_with (startup_with 1 0) true [] [pass_interval_error])
  = ([MSignalThread;
      MStartup (EvRingInitialize "/ring/packetbuf" "/ring/streamidx");
      MWatchdog 1], Some 1) /\
  main RINGID_MAXIMUM_v4 WriteTLog_keep cfg_cap5
    (main_with (startup_with 0 (-1)) false [] [])
  = ([MSignalThread;
      MStartup (EvRingInitialize "/ring/packetbuf" "/ring/streamidx")],
     Some 1).
Proof. repeat split; vm_compute; reflexivity. Qed.

(** ** The client list in memory *)

Lemma store_same h p n : store h p n p = Some n.
Proof. unfold store. rewrite Nat.eqb_refl. reflexivity. Qed.

Lemma store_other h p n q : q <> p -> store h p n q = h q.
Proof. intros H. unfold store. apply Nat.eqb_neq in H. rewrite H. reflexivity. Qed.

Lemma release_same h p : release h p p = None.
Proof. unfold release. rewrite Nat.eqb_refl. reflexivity. Qed.

Lemma release_other h p q : q <> p -> release h p q = h q.
Proof. intros H. unfold release. apply Nat.eqb_neq in H. rewrite H. reflexivity. Qed.

Lemma dllseg_frame h h' : forall l prev cur stop,
  (forall p, In p (map fst l) -> h' p = h p) ->
  dllseg h prev cur l stop -> dllseg h' prev cur l stop.
Proof.
  induction l as [| [p td] l IH]; cbn; intros prev cur stop Hf H; [ exact H | ].
  destruct H as (Hc & next & Hp & Hr). split; [ exact Hc | ].
  exists next. split; [ rewrite Hf by auto; exact Hp | ].
  apply IH; [ | exact Hr ]. intros q Hq. apply Hf. right. exact Hq.
Qed.

Lemma dllseg_app h : forall l1 l2 prev cur stop,
  dllseg h prev cur (l1 ++ l2) stop <->
  exists mid, dllseg h prev cur l1 mid /\
              dllseg h (last_ptr prev l1) mid l2 stop.
Proof.
  induction l1 as [| [p td] l1 IH]; intros l2 prev cur stop; cbn.
  - split.
    + intros H. exists cur. auto.
    + intros (mid & -> & H). exact H.
  - split.
    + intros (Hc & next & Hp & Hr). apply IH in Hr.
      destruct Hr as (mid & H1 & H2). exists mid.
      split; [ split; [ exact Hc | exists next; auto ] | exact H2 ].
    + intros (mid & (Hc & next & Hp & H1) & H2).
      split; [ exact Hc | ]. exists next. split; [ exact Hp | ].
      apply IH. exists mid. auto.
Qed.

Lemma last_ptr_app prev l1 l2 :
  last_ptr prev (l1 ++ l2) = last_ptr (last_ptr prev l1) l2.
Proof.
  revert prev. induction l1 as [| [p td] l1 IH]; intros prev; cbn;
    [ reflexivity | apply IH ].
Qed.

Lemma dllseg_first h prev cur l :
  dllseg h prev cur l None -> cur = first_ptr l.
Proof. destruct l as [| [p td] l]; cbn; [ auto | intros (H & _); exact H ]. Qed.

Lemma dllseg_allocated h : forall l prev cur stop p,
  dllseg h prev cur l stop -> In p (map fst l) -> h p <> None.
Proof.
  induction l as [| [q td] l IH]; cbn; intros prev cur stop p H Hin;
    [ destruct Hin | ].
  destruct H as (_ & next & Hq & Hr). destruct Hin as [<- | Hin].
  - rewrite Hq. discriminate.
  - exact (IH _ _ _ p Hr Hin).
Qed.

Lemma list_last_cases {A : Type} (l : list A) :
  l = [] \/ exists l' a, l = l' ++ [a].
Proof.
  induction l as [| a l IH] using rev_ind; [ left; reflexivity | ].
  right. exists l, a. reflexivity.
Qed.

(** X24.  Putting a freshly allocated node at the beginning of the
    client list, as the listener does, keeps the list well linked: the
    memory then holds the new node followed by the nodes it held. *)
Theorem link_first_inserts (cl : clist) (l : list (nat * cthread))
    (ctp : nat) (td : cthread) :
  represents cl l -> cl_nodes cl ctp = None ->
  exists cl',
    link_first cl ctp td = Some cl' /\
    represents cl' ((ctp, td) :: l) /\
    cl_head cl' = Some ctp.
Proof.
  intros (Hseg & Hnd) Hfresh.
  assert (Hnew : ~ In ctp (map fst l)).
  { intros Hin. exact (dllseg_allocated _ _ _ _ _ _ Hseg Hin Hfresh). }
  unfold link_first. destruct l as [| [f tdf] l]; cbn in Hseg.
  - rewrite Hseg. eexists. split; [ reflexivity | ].
    split; [ | reflexivity ]. split.
    + cbn. split; [ reflexivity | ]. exists None.
      split; [ apply store_same | reflexivity ].
    + cbn. constructor; [ exact Hnew | constructor ].
  - destruct Hseg as (-> & next & Hf & Hr).
    assert (Hne : f <> ctp) by (intros ->; apply Hnew; left; reflexivity).
    rewrite store_other by exact Hne. rewrite Hf. cbn [obind c_td c_next].
    eexists. split; [ reflexivity | ]. split; [ | reflexivity ]. split.
    + cbn. split; [ reflexivity | ]. exists (Some f). split.
      * rewrite store_other by (intros E; apply Hne; symmetry; exact E).
        apply store_same.
      * split; [ reflexivity | ]. exists next. split; [ apply store_same | ].
        apply (dllseg_frame (cl_nodes cl)); [ | exact Hr ].
        intros q Hq. cbn in Hnd. inversion Hnd as [| ? ? Hnf Hnd']; subst.
        rewrite store_other by (intros ->; contradiction).
        apply store_other. intros ->. apply Hnew. right. exact Hq.
    + cbn. constructor; [ exact Hnew | exact Hnd ].
Qed.

Lemma NoDup_app_disjoint (a b : list nat) (x : nat) :
  NoDup (a ++ b) -> In x a -> In x b -> False.
Proof.
  induction a as [| y a IH]; cbn; intros H Ha Hb; [ destruct Ha | ].
  inversion H as [| ? ? Hn Hnd]; subst. destruct Ha as [-> | Ha].
  - apply Hn. apply in_or_app. right. exact Hb.
  - exact (IH Hnd Ha Hb).
Qed.

Lemma NoDup_middle (l1 l2 : list (nat * cthread)) x td :
  NoDup (map fst (l1 ++ (x, td) :: l2)) ->
  ~ In x (map fst l1) /\ ~ In x (map fst l2) /\ NoDup (map fst (l1 ++ l2)).
Proof.
  rewrite !map_app. cbn [map fst]. intros H.
  pose proof (NoDup_remove _ _ _ H) as (Hnd & Hx).
  repeat split; [ | | exact Hnd ];
    intros Hin; apply Hx; apply in_or_app; auto.
Qed.

(** X25.  Unlinking a node from the client list and freeing it, as the
    watchdog does for a CLOSED client, keeps the list well linked
    wherever the node stands, first, last, alone or in the middle: the
    memory then holds the nodes before it followed by the nodes after
    it, and the node is no longer allocated. *)
Theorem unlink_node_removes (cl : clist) (l1 l2 : list (nat * cthread))
    (x : nat) (td : cthread) :
  represents cl (l1 ++ (x, td) :: l2) ->
  exists cl',
    unlink_node cl x = Some cl' /\
    represents cl' (l1 ++ l2) /\
    cl_nodes cl' x = None.
Proof.
  intros (Hseg & Hnd).
  destruct (NoDup_middle l1 l2 x td Hnd) as (Hx1 & Hx2 & Hnd').
  apply dllseg_app in Hseg. destruct Hseg as (mid & H1 & H2).
  cbn [dllseg] in H2. destruct H2 as (-> & next & Hnode & H3).
  unfold unlink_node. rewrite Hnode. cbn [obind c_prev c_next c_td].
  destruct (list_last_cases l1) as [-> | (l1' & [pp tdp] & ->)].
  - cbn [last_ptr app obind] in *. cbn [dllseg] in H1.
    rewrite Hnode. cbn [obind c_prev c_next c_td].
    destruct l2 as [| [nn tdn] l2'].
    + cbn [dllseg] in H3. subst next. cbn [obind].
      eexists. split; [ reflexivity | ].
      split; [ split; [ reflexivity | constructor ] | apply release_same ].
    + cbn [dllseg] in H3. destruct H3 as (-> & next2 & Hnn & H4).
      assert (Hne : nn <> x) by (intros ->; apply Hx2; left; reflexivity).
      rewrite Hnn. cbn [obind c_prev c_next c_td].
      eexists. split; [ reflexivity | ].
      split; [ | apply release_same ]. split; [ | exact Hnd' ].
      cbn. split; [ reflexivity | ]. exists next2. split.
      * rewrite release_other by exact Hne. apply store_same.
      * apply (dllseg_frame (cl_nodes cl)); [ | exact H4 ].
        intros q Hq. cbn in Hnd'. inversion Hnd' as [| ? ? Hnq _]; subst.
        rewrite release_other by (intros ->; apply Hx2; right; exact Hq).
        apply store_other. intros ->. contradiction.
  - rewrite last_ptr_app in *. cbn [last_ptr] in *.
    apply dllseg_app in H1. destruct H1 as (mid' & H0 & Hp).
    cbn [dllseg] in Hp. destruct Hp as (-> & nextp & Hpp & Hnp).
    subst nextp.
    assert (Hpx : pp <> x).
    { intros ->. apply Hx1. rewrite map_app. apply in_or_app. right.
      left. reflexivity. }
    assert (Hnd2 : NoDup (map fst l1' ++ pp :: map fst l2)).
    { rewrite !map_app in Hnd'. cbn [map fst] in Hnd'.
      rewrite <- app_assoc in Hnd'. exact Hnd'. }
    assert (Hfinal : NoDup (map fst ((l1' ++ [(pp, tdp)]) ++ l2)))
      by exact Hnd'.
    rewrite Hpp. cbn [obind c_prev c_next c_td].
    rewrite store_other by (intros E; apply Hpx; symmetry; exact E).
    rewrite Hnode. cbn [obind c_prev c_next c_td].
    assert (Hl1' : forall q, In q (map fst l1') -> q <> pp /\ q <> x).
    { intros q Hq. split; intros ->.
      - apply (NoDup_remove_2 _ _ _ Hnd2). apply in_or_app. left. exact Hq.
      - apply Hx1. rewrite map_app. apply in_or_app. left. exact Hq. }
    destruct l2 as [| [nn tdn] l2'].
    + cbn [dllseg] in H3. subst next. cbn [obind].
      eexists. split; [ reflexivity | ].
      split; [ | apply release_same ]. split; [ | exact Hfinal ].
      cbn [cl_nodes cl_head]. rewrite app_nil_r.
      apply dllseg_app. exists (Some pp). split.
      * apply (dllseg_frame (cl_nodes cl)); [ | exact H0 ].
        intros q Hq. destruct (Hl1' q Hq) as (Hq1 & Hq2).
        rewrite release_other by exact Hq2. apply store_other. exact Hq1.
      * cbn. split; [ reflexivity | ]. exists None. split; [ | reflexivity ].
        rewrite release_other by exact Hpx. apply store_same.
    + cbn [dllseg] in H3. destruct H3 as (-> & next2 & Hnn & H4).
      assert (Hnx : nn <> x) by (intros ->; apply Hx2; left; reflexivity).
      assert (Hnp : nn <> pp).
      { intros ->. apply (NoDup_remove_2 _ _ _ Hnd2).
        apply in_or_app. right. left. reflexivity. }
      assert (Hl2' : forall q, In q (map fst l2') ->
                                q <> x /\ q <> nn /\ q <> pp).
      { intros q Hq. split; [ | split ]; intros ->.
        - apply Hx2. right. exact Hq.
        - apply NoDup_remove_1 in Hnd2. apply NoDup_app_remove_l in Hnd2.
          cbn [map fst] in Hnd2.
          inversion Hnd2 as [| ? ? Hnq _]; subst. contradiction.
        - apply (NoDup_remove_2 _ _ _ Hnd2).
          apply in_or_app. right. right. exact Hq. }
      rewrite store_other by exact Hnp. rewrite Hnn.
      cbn [obind c_prev c_next c_td].
      eexists. split; [ reflexivity | ].
      split; [ | apply release_same ]. split; [ | exact Hfinal ].
      cbn [cl_nodes cl_head]. rewrite <- app_assoc. cbn [app].
      apply dllseg_app. exists (Some pp). split.
      * apply (dllseg_frame (cl_nodes cl)); [ | exact H0 ].
        intros q Hq. destruct (Hl1' q Hq) as (Hq1 & Hq2).
        rewrite release_other by exact Hq2.
        rewrite store_other.
        -- apply store_other. exact Hq1.
        -- intros ->. apply (NoDup_app_disjoint _ _ _ Hnd2 Hq).
           right. left. reflexivity.
      * cbn. split; [ reflexivity | ]. exists (Some nn). split.
        -- rewrite release_other by exact Hpx.
           rewrite store_other by (intros E; apply Hnp; symmetry; exact E).
           apply store_same.
        -- split; [ reflexivity | ]. exists next2. split.
           ++ rewrite release_other by exact Hnx. apply store_same.
           ++ apply (dllseg_frame (cl_nodes cl)); [ | exact H4 ].
              intros q Hq. destruct (Hl2' q Hq) as (Hqx & Hqn & Hqp).
              rewrite release_other by exact Hqx.
              rewrite store_other by exact Hqn.
              apply store_other. exact Hqp.
Qed.

(** Writing the thread data of a node in place keeps the links. *)
Lemma represents_update cl l1 x td l2 td' n :
  represents cl (l1 ++ (x, td) :: l2) ->
  cl_nodes cl x = Some n ->
  represents
    (mkClist (store (cl_nodes cl) x (mkCnode td' (c_prev n) (c_next n)))
       (cl_head cl))
    (l1 ++ (x, td') :: l2).
Proof.
  intros (Hseg & Hnd) Hn.
  destruct (NoDup_middle l1 l2 x td Hnd) as (Hx1 & Hx2 & _).
  split.
  - cbn [cl_nodes cl_head]. apply dllseg_app in Hseg.
    destruct Hseg as (mid & H1 & H2). cbn [dllseg] in H2.
    destruct H2 as (-> & next & Hnode & H3).
    rewrite Hnode in Hn. injection Hn as <-. cbn [c_prev c_next].
    apply dllseg_app. exists (Some x). split.
    + apply (dllseg_frame (cl_nodes cl)); [ | exact H1 ].
      intros q Hq. apply store_other. intros ->. contradiction.
    + cbn [dllseg]. split; [ reflexivity | ]. exists next.
      split; [ apply store_same | ].
      apply (dllseg_frame (cl_nodes cl)); [ | exact H3 ].
      intros q Hq. apply store_other. intros ->. contradiction.
  - rewrite map_app in *. exact Hnd.
Qed.

Section ClientPassProof.

Variable RINGID_MAXIMUM : Z.
Variable WriteTLog : ClientInfo -> ClientInfo.

Lemma client_pass_steps cfg rp env write_tlog : forall l2 l1 cl fuel i count acc,
  represents cl (l1 ++ l2) -> (List.length l2 <= fuel)%nat ->
  let r := watch_clients RINGID_MAXIMUM WriteTLog cfg rp env write_tlog i
             (map snd l2) count acc in
  exists cl' l2',
    client_pass RINGID_MAXIMUM WriteTLog fuel cfg rp env write_tlog i cl
      (first_ptr l2) count acc
    = Some (cl', snd (fst r), snd r) /\
    represents cl' (l1 ++ l2') /\ map snd l2' = fst (fst r).
Proof.
  induction l2 as [| [x td] l2 IH]; intros l1 cl fuel i count acc Hrep Hfuel;
    cbv zeta.
  - destruct fuel; exists cl, []; (split; [ reflexivity | ]);
      (split; [ exact Hrep | reflexivity ]).
  - destruct fuel as [| fuel]; [ cbn in Hfuel; lia | ].
    pose proof Hrep as (Hseg & Hnd). apply dllseg_app in Hseg.
    destruct Hseg as (mid & H1 & H2). cbn [dllseg] in H2.
    destruct H2 as (-> & next & Hnode & H3).
    pose proof (dllseg_first _ _ _ _ H3) as Hnext. subst next.
    cbn [client_pass map snd watch_clients].
    change (first_ptr ((x, td) :: l2)) with (Some x). cbn iota.
    rewrite Hnode.
    cbn [obind c_td c_next c_prev].
    destruct (td_state_eqb (ctd_state td) TDS_CLOSED).
    + destruct (unlink_node_removes cl l1 l2 x td Hrep) as (cl1 & Hu & Hrep1 & _).
      rewrite Hu. cbn [obind].
      apply IH; [ exact Hrep1 | cbn in Hfuel; lia ].
    + pose proof (represents_update cl l1 x td l2
                    (watch_client RINGID_MAXIMUM WriteTLog cfg rp env
                       write_tlog i td)
                    _ Hrep Hnode) as Hrep1.
      cbn [c_prev c_next] in Hrep1.
      replace (l1 ++ (x, watch_client RINGID_MAXIMUM WriteTLog cfg rp env
                           write_tlog i td) :: l2)
        with ((l1 ++ [(x, watch_client RINGID_MAXIMUM WriteTLog cfg rp env
                            write_tlog i td)]) ++ l2) in Hrep1
        by (rewrite <- app_assoc; reflexivity).
      match goal with
      | |- context [watch_clients _ _ _ _ _ _ (S i) _ count ?a] =>
          specialize (IH _ _ fuel (S i) count a Hrep1
                        ltac:(cbn in Hfuel; lia));
          cbv zeta in IH;
          destruct (watch_clients RINGID_MAXIMUM WriteTLog cfg rp env
                      write_tlog (S i) (map snd l2) count a)
            as [[next' count'] acc'']
      end.
      destruct IH as (cl' & l2' & Hc & Hr & Hm). cbn [fst snd] in *.
      rewrite Hc.
      exists cl', ((x, watch_client RINGID_MAXIMUM WriteTLog cfg rp env
                        write_tlog i td) :: l2').
      split; [ reflexivity | ].
      split; [ rewrite <- app_assoc in Hr; exact Hr | ].
      cbn [map snd]. rewrite Hm. reflexivity.
Qed.

(** X26.  The loop over the client list in the watchdog, run on the
    nodes in memory with their two links, does what the pass over the
    list of clients does: it ends within as many turns as there are
    nodes, never goes through a freed node, and leaves a well linked
    list that holds, in order, the clients that the pass over the list
    leaves, with the same count and the same sums. *)
Theorem client_pass_refines (cfg : config_s) (rp : RingParams)
    (env : pass_env) (write_tlog : bool) (cl : clist)
    (l : list (nat * cthread)) (count : Z) (acc : rates) (fuel : nat) :
  represents cl l -> (List.length l <= fuel)%nat ->
  let r := watch_clients RINGID_MAXIMUM WriteTLog cfg rp env write_tlog 0
             (map snd l) count acc in
  exists cl' l',
    client_pass RINGID_MAXIMUM WriteTLog fuel cfg rp env write_tlog 0 cl
      (cl_head cl) count acc
    = Some (cl', snd (fst r), snd r) /\
    represents cl' l' /\ map snd l' = fst (fst r).
Proof.
  intros Hrep Hfuel.
  pose proof (dllseg_first _ _ _ _ (proj1 Hrep)) as Hhead. rewrite Hhead.
  exact (client_pass_steps cfg rp env write_tlog l [] cl fuel 0%nat count acc
           Hrep Hfuel).
Qed.

End ClientPassProof.

Lemma ClientIPCount_nodes_steps h a : forall l prev cur fuel,
  dllseg h prev cur l None -> (List.length l <= fuel)%nat ->
  ClientIPCount_nodes fuel h cur a = Some (ClientIPCount (map snd l) a).
Proof.
  induction l as [| [x td] l IH]; intros prev cur fuel H Hfuel; cbn in H.
  - subst cur. destruct fuel; reflexivity.
  - destruct fuel as [| fuel]; [ cbn in Hfuel; lia | ].
    destruct H as (-> & next & Hx & Hr).
    cbn [ClientIPCount_nodes map snd ClientIPCount]. rewrite Hx.
    cbn [obind c_next c_td].
    rewrite (IH _ _ fuel Hr) by (cbn in Hfuel; lia). reflexivity.
Qed.

(** X27.  [ClientIPCount], run on the nodes in memory, comes to the end
    of a well linked list within as many turns as there are nodes, and
    returns the number of clients of the list with the address asked
    for; after a node has been put at the beginning for a client of that
    address (IPv4 or IPv6), it returns one more. *)
Theorem ClientIPCount_nodes_counts (cl : clist) (l : list (nat * cthread))
    (a : sockaddr) (fuel : nat) :
  represents cl l -> (List.length l <= fuel)%nat ->
  ClientIPCount_nodes fuel (cl_nodes cl) (cl_head cl) a
  = Some (ClientIPCount (map snd l) a) /\
  (forall ctp td cl',
     link_first cl ctp td = Some cl' -> cl_nodes cl ctp = None ->
     ClientIPCount_nodes (S fuel) (cl_nodes cl') (cl_head cl') a
     = Some ((if same_address a td then 1 else 0)
             + ClientIPCount (map snd l) a)).
Proof.
  intros Hrep Hfuel. split.
  - exact (ClientIPCount_nodes_steps _ a l None _ fuel (proj1 Hrep) Hfuel).
  - intros ctp td cl' Hl Hfresh.
    destruct (link_first_inserts cl l ctp td Hrep Hfresh)
      as (cl1 & Hl1 & Hrep1 & _).
    rewrite Hl in Hl1. injection Hl1 as <-.
    rewrite (ClientIPCount_nodes_steps _ a ((ctp, td) :: l) None _ (S fuel)
               (proj1 Hrep1)) by (cbn; lia).
    reflexivity.
Qed.

(** Three nodes at the addresses 30, 20 and 10. *)
Lemma three_nodes_represent : represents three_nodes three_clients.
Proof.
  split.
  - cbn. split; [ reflexivity | ]. eexists. split; [ reflexivity | ].
    split; [ reflexivity | ]. eexists. split; [ reflexivity | ].
    split; [ reflexivity | ]. eexists. split; reflexivity.
  - cbn. repeat constructor; cbn; intuition discriminate.
Qed.

Lemma link_first_inserts_witness :
  exists cl',
    represents three_nodes three_clients /\
    cl_nodes three_nodes 40%nat = None /\
    link_first three_nodes 40%nat idle_client = Some cl' /\
    represents cl' ((40%nat, idle_client) :: three_clients) /\
    cl_head cl' = Some 40%nat /\
    option_map c_prev (cl_nodes cl' 30%nat) = Some (Some 40%nat).
Proof.
  assert (Hf : cl_nodes three_nodes 40%nat = None) by reflexivity.
  destruct (link_first_inserts three_nodes three_clients 40%nat idle_client
              three_nodes_represent Hf) as (cl' & Hl & Hr & Hh).
  exists cl'. split; [ exact three_nodes_represent | ]. split; [ exact Hf | ].
  split; [ exact Hl | ]. split; [ exact Hr | ]. split; [ exact Hh | ].
  cbv in Hl. injection Hl as <-. reflexivity.
Defined.

(** The node in the middle is unlinked: 30 and 10 point at each other,
    and 20 is freed. *)
Lemma unlink_node_removes_witness :
  exists cl',
    represents three_nodes
      ([(30%nat, sending_client)]
       ++ (20%nat, mkCthread TDS_CLOSED (client_with None 0 0 0 0))
       :: [(10%nat, idle_client)]) /\
    unlink_node three_nodes 20%nat = Some cl' /\
    represents cl' ([(30%nat, sending_client)] ++ [(10%nat, idle_client)]) /\
    cl_nodes cl' 20%nat = None /\
    option_map c_next (cl_nodes cl' 30%nat) = Some (Some 10%nat) /\
    option_map c_prev (cl_nodes cl' 10%nat) = Some (Some 30%nat).
Proof.
  destruct (unlink_node_removes three_nodes [(30%nat, sending_client)]
              [(10%nat, idle_client)] 20%nat
              (mkCthread TDS_CLOSED (client_with None 0 0 0 0))
              three_nodes_represent) as (cl' & Hu & Hr & Hn).
  exists cl'. split; [ exact three_nodes_represent | ].
  split; [ exact Hu | ]. split; [ exact Hr | ]. split; [ exact Hn | ].
  cbv in Hu. injection Hu as <-. split; reflexivity.
Defined.

(** The pass over the three nodes frees the one in the middle, and the
    count goes from 3 to 2. *)
Lemma client_pass_refines_witness :
  let env := quiet_pass 1700000003000000000 in
  let r := watch_clients RINGID_MAXIMUM_v4 WriteTLog_keep cfg_cap5 ring_wrapped
             env false 0 (map snd three_clients) 3 (mkRates 0 0 0 0) in
  exists cl' l',
    represents three_nodes three_clients /\
    (List.length three_clients <= 3)%nat /\
    client_pass RINGID_MAXIMUM_v4 WriteTLog_keep 3 cfg_cap5 ring_wrapped env
      false 0 three_nodes (cl_head three_nodes) 3 (mkRates 0 0 0 0)
    = Some (cl', snd (fst r), snd r) /\
    represents cl' l' /\ map snd l' = fst (fst r) /\
    snd (fst r) = 2 /\ List.length l' = 2%nat.
Proof.
  intros env r.
  assert (Hlen : (List.length three_clients <= 3)%nat) by (cbn; lia).
  destruct (client_pass_refines RINGID_MAXIMUM_v4 WriteTLog_keep cfg_cap5
              ring_wrapped env false three_nodes three_clients 3
              (mkRates 0 0 0 0) 3%nat three_nodes_represent Hlen)
    as (cl' & l' & Hp & Hr & Hm).
  exists cl', l'. split; [ exact three_nodes_represent | ].
  split; [ exact Hlen | ]. split; [ exact Hp | ]. split; [ exact Hr | ].
  split; [ exact Hm | ]. split; [ vm_compute; reflexivity | ].
  apply (f_equal (@List.length cthread)) in Hm. rewrite length_map in Hm.
  rewrite Hm. vm_compute. reflexivity.
Defined.

(** The three clients are all from 10.0.0.1. *)
Lemma ClientIPCount_nodes_counts_witness :
  let a := mkSockaddr AF_INET 0x0A000001 [] in
  represents three_nodes three_clients /\
  (List.length three_clients <= 3)%nat /\
  ClientIPCount_nodes 3 (cl_nodes three_nodes) (cl_head three_nodes) a
  = Some (ClientIPCount (map snd three_clients) a) /\
  ClientIPCount (map snd three_clients) a = 3.
Proof.
  intros a.
  assert (Hlen : (List.length three_clients <= 3)%nat) by (cbn; lia).
  split; [ exact three_nodes_represent | ]. split; [ exact Hlen | ].
  split; [ | reflexivity ].
  exact (proj1 (ClientIPCount_nodes_counts three_nodes three_clients a 3%nat
                  three_nodes_represent Hlen)).
Defined.


(** * The percent lag against the exact percentage *)

(** Rounding to 53 bits moves a mantissa by less than one unit of the
    last place kept. *)
Lemma binary_round_aux_close s p e l :
  2 ^ 52 <= Zpos p -> -1000 <= e -> e + Zpos (digits2_pos p) <= 1000 ->
  let k := Zpos (digits2_pos p) - 53 in
  exists m' t,
    binary_round_aux prec emax s (Zpos p) e l = S754_finite s m' (e + t) /\
    2 ^ 52 <= Zpos m' < 2 ^ 53 /\
    k <= t <= k + 1 /\
    - 2 ^ k < Zpos m' * 2 ^ t - Zpos p <= 2 ^ k.
Proof.
  intros Hp He Hmax k.
  destruct (binary_round_aux_normal s p e l Hp He Hmax)
    as (m' & e' & Hres & Hm & Hcase).
  fold k in Hcase.
  assert (Hk : 0 <= k).
  { subst k. destruct (Z.lt_ge_cases (Zpos (digits2_pos p)) 53) as [Hlt | Hge];
      [ | lia ].
    exfalso.
    pose proof (digits2_pos_bounds p) as (_ & Hb).
    assert (2 ^ Zpos (digits2_pos p) <= 2 ^ 52)
      by (apply Z.pow_le_mono_r; lia).
    lia. }
  assert (Hpow : 0 < 2 ^ k) by (apply Z.pow_pos_nonneg; lia).
  pose proof (Z.div_mod (Zpos p) (2 ^ k) ltac:(lia)) as Hdm.
  pose proof (Z.mod_pos_bound (Zpos p) (2 ^ k) Hpow) as Hmod.
  destruct Hcase as [(He' & Hlo & Hhi) | (He' & Hm52 & Hc)].
  - exists m', k. replace (e + k) with e' by lia.
    split; [ exact Hres | ]. split; [ exact Hm | ]. split; [ lia | ]. nia.
  - exists m', (k + 1). replace (e + (k + 1)) with e' by lia.
    split; [ exact Hres | ]. split; [ exact Hm | ]. split; [ lia | ].
    rewrite Z.pow_add_r by lia. change (2 ^ 1) with 2. nia.
Qed.

Lemma SFdiv_close mx ex my ey :
  2 ^ 52 <= Zpos mx < 2 ^ 53 -> 2 ^ 52 <= Zpos my < 2 ^ 53 ->
  -400 <= ex <= 400 -> -400 <= ey <= 400 ->
  exists m t,
    SFdiv prec emax (S754_finite false mx ex) (S754_finite false my ey)
    = S754_finite false m (ex - ey - 53 + t) /\
    2 ^ 52 <= Zpos m < 2 ^ 53 /\ 0 <= t <= 2 /\
    - (3 * Zpos my) <= Zpos my * (Zpos m * 2 ^ t) - Zpos mx * 2 ^ 53
    <= 2 * Zpos my.
Proof.
  intros Hx Hy Hex Hey. cbn [SFdiv xorb]. unfold SFdiv_core_binary.
  cbn [Zdigits2]. rewrite (digits2_pos_unique mx 53), (digits2_pos_unique my 53)
    by lia.
  unfold fexp, SpecFloat.emin, prec, emax.
  replace (Z.min (Z.max (53 + ex - (53 + ey) - 53) (3 - 1024 - 53)) (ex - ey))
    with (ex - ey - 53) by lia.
  replace (ex - ey - (ex - ey - 53)) with 53 by lia.
  rewrite Z.shiftl_mul_pow2 by lia.
  pose proof (Z_div_mod (Zpos mx * 2 ^ 53) (Zpos my) ltac:(lia)) as Hdm.
  destruct (Z.div_eucl (Zpos mx * 2 ^ 53) (Zpos my)) as [q r].
  destruct Hdm as [Hq Hr].
  assert (Hqb : 2 ^ 52 <= q < 2 ^ 54) by nia.
  destruct q as [| qp | qp]; try lia.
  assert (Hd : 53 <= Zpos (digits2_pos qp) <= 54)
    by (destruct (mantissa_digits qp Hqb) as [[_ Hd] | [_ Hd]]; lia).
  destruct (binary_round_aux_close false qp (ex - ey - 53)
              (new_location (Zpos my) r) ltac:(lia) ltac:(lia) ltac:(lia))
    as (m & t & Hres & Hm & Ht & Hclose).
  exists m, t. split; [ exact Hres | ]. split; [ exact Hm | ].
  split; [ lia | ].
  assert (Hk : 2 ^ (Zpos (digits2_pos qp) - 53) <= 2).
  { change 2 with (2 ^ 1) at 2. apply Z.pow_le_mono_r; lia. }
  nia.
Qed.

Lemma SFmul_close mq eq :
  2 ^ 52 <= Zpos mq < 2 ^ 53 -> -900 <= eq <= 0 ->
  exists m t,
    SFmul prec emax (S754_finite false mq eq) (S754_finite false M100 (-46))
    = S754_finite false m (eq - 46 + t) /\
    2 ^ 52 <= Zpos m < 2 ^ 53 /\ 52 <= t <= 54 /\
    - 2 ^ 53 <= Zpos m * 2 ^ t - Zpos mq * (100 * 2 ^ 46) <= 2 ^ 53.
Proof.
  intros Hq He. cbn [SFmul xorb].
  set (P := Pos.mul mq M100).
  assert (HP : Zpos P = Zpos mq * Zpos M100) by reflexivity.
  assert (HM : Zpos M100 = 100 * 2 ^ 46) by reflexivity.
  assert (HPb : 2 ^ 104 <= Zpos P < 2 ^ 106) by (rewrite HP, HM; lia).
  assert (Hd : Zpos (digits2_pos P) = 105 \/ Zpos (digits2_pos P) = 106).
  { destruct (Z.lt_ge_cases (Zpos P) (2 ^ 105)).
    - left. apply digits2_pos_unique; lia.
    - right. apply digits2_pos_unique; lia. }
  destruct (binary_round_aux_close false P (eq + -46) loc_Exact
              ltac:(lia) ltac:(lia) ltac:(lia))
    as (m & t & Hres & Hm & Ht & Hclose).
  exists m, t. replace (eq - 46 + t) with (eq + -46 + t) by lia.
  split; [ exact Hres | ]. split; [ exact Hm | ]. split; [ lia | ].
  assert (Hk : 2 ^ (Zpos (digits2_pos P) - 53) <= 2 ^ 53)
    by (apply Z.pow_le_mono_r; lia).
  rewrite <- HM, <- HP. lia.
Qed.


(** A part of a whole below 2^43: the two roundings of the quotient and
    of the product, and the truncation, leave the percentage at the
    exact one rounded down, or one below it when the exact one is
    whole. *)
Lemma percent_rounds_down num den :
  0 < num < den -> den < 2 ^ 43 ->
  exists p, double_percent num den = Some p /\
            p * den <= 100 * num <= (p + 1) * den.
Proof.
  intros Hnum Hden.
  destruct (double_of_Z_exact num ltac:(lia))
    as (pn & mx & En & Hx & Hmx & Hbx & Hdx).
  destruct (double_of_Z_exact den ltac:(lia))
    as (pd & my & Ed & Hy & Hmy & Hby & Hdy).
  pose proof (digits2_pos_mono pn pd ltac:(lia)) as Hmono.
  set (dx := Zpos (digits2_pos pn)) in *.
  set (dy := Zpos (digits2_pos pd)) in *.
  destruct (SFdiv_close mx (dx - 53) my (dy - 53))
    as (mq & t & Hq & Hmq & Ht & Hdiv); try lia.
  assert (HQ : Prim2SF (double_of_Z num / double_of_Z den)
               = S754_finite false mq (dx - 53 - (dy - 53) - 53 + t))
    by (rewrite div_spec, Hx, Hy; exact Hq).
  assert (H100 : Prim2SF (double_of_Z 100) = S754_finite false M100 (-46))
    by (vm_compute; reflexivity).
  destruct (SFmul_close mq (dx - 53 - (dy - 53) - 53 + t) Hmq ltac:(lia))
    as (m & t' & Hmul & Hm & Ht' & Hprod).
  assert (HR : Prim2SF (double_of_Z num / double_of_Z den * double_of_Z 100)
               = S754_finite false m (dx - 53 - (dy - 53) - 53 + t - 46 + t'))
    by (rewrite mul_spec, HQ, H100; exact Hmul).
  set (b := 99 + (dy - dx) - t - t').
  assert (Hb : 43 <= b) by (subst b; lia).
  assert (He : dx - 53 - (dy - 53) - 53 + t - 46 + t' = - b) by (subst b; lia).
  rewrite He in HR.
  unfold double_percent, double_to_int, double_trunc. rewrite HR.
  assert (Hneg : (0 <=? - b) = false) by (apply Z.leb_gt; lia).
  rewrite Hneg, Z.opp_involutive, Z.shiftr_div_pow2 by lia.
  set (p := Zpos m / 2 ^ b).
  (* the powers of two involved *)
  set (W := 2 ^ (dy - dx)).
  set (Sy := 2 ^ (53 - dy)).
  set (T := 2 ^ t) in *.
  set (T' := 2 ^ t') in *.
  set (B := 2 ^ b).
  assert (HW : 1 <= W).
  { assert (0 < W) by (subst W; apply Z.pow_pos_nonneg; lia). lia. }
  assert (HSy : 0 < Sy) by (subst Sy; apply Z.pow_pos_nonneg; lia).
  assert (HT : 1 <= T <= 4).
  { assert (0 < T) by (subst T; apply Z.pow_pos_nonneg; lia).
    split; [ lia | ]. subst T.
    change 4 with (2 ^ 2). apply Z.pow_le_mono_r; lia. }
  assert (HT' : 0 < T') by (subst T'; apply Z.pow_pos_nonneg; lia).
  assert (HB : 0 < B) by (subst B; apply Z.pow_pos_nonneg; lia).
  assert (HBTT : B * T * T' = 2 ^ 99 * W).
  { subst B T T' W b. rewrite <- !Z.pow_add_r by lia. f_equal. lia. }
  assert (Emx : Zpos mx = num * Sy * W).
  { rewrite Hmx. subst Sy W. rewrite <- Z.mul_assoc, <- Z.pow_add_r by lia.
    do 2 f_equal. lia. }
  assert (Emy : Zpos my = den * Sy) by (rewrite Hmy; reflexivity).
  (* the quotient, in units of den *)
  set (X := Zpos mq * T) in *.
  assert (E1 : - (3 * den) <= den * X - num * W * 2 ^ 53 <= 2 * den).
  { rewrite Emx, Emy in Hdiv.
    replace (den * Sy * X - num * Sy * W * 2 ^ 53)
      with ((den * X - num * W * 2 ^ 53) * Sy) in Hdiv by ring.
    replace (- (3 * (den * Sy))) with (- (3 * den) * Sy) in Hdiv by ring.
    replace (2 * (den * Sy)) with (2 * den * Sy) in Hdiv by ring.
    destruct Hdiv as (Hlo & Hhi).
    apply Z.mul_le_mono_pos_r in Hlo, Hhi; try exact HSy. lia. }
  (* truncation *)
  pose proof (Z.mul_div_le (Zpos m) B HB) as Hlo.
  pose proof (Z.mul_succ_div_gt (Zpos m) B HB) as Hhi.
  change (Zpos m / B) with p in Hlo, Hhi.
  assert (Hp0 : 0 <= p) by (subst p; apply Z.div_pos; lia).
  clearbody p T T' B W Sy.
  clear Hx Hy Hq HQ H100 Hmul HR Hneg He Hmx Hmy Emx Emy Hbx Hby Hdiv.
  set (c := 100 * 2 ^ 46) in *.
  assert (U1 : p * B * T' <= Zpos mq * c + 2 ^ 53).
  { assert (p * B * T' <= Zpos m * T').
    { apply Z.mul_le_mono_nonneg_r; lia. }
    lia. }
  assert (L1 : Zpos mq * c - 2 ^ 53 < (p + 1) * B * T').
  { assert (Zpos m * T' < (p + 1) * B * T').
    { apply Z.mul_lt_mono_pos_r; lia. }
    lia. }
  assert (U2 : p * (2 ^ 99 * W) <= X * c + 2 ^ 53 * T).
  { rewrite <- HBTT.
    replace (p * (B * T * T')) with (p * B * T' * T) by ring.
    replace (X * c + 2 ^ 53 * T) with ((Zpos mq * c + 2 ^ 53) * T)
      by (subst X; ring).
    apply Z.mul_le_mono_nonneg_r; lia. }
  assert (L2 : X * c - 2 ^ 53 * T < (p + 1) * (2 ^ 99 * W)).
  { rewrite <- HBTT.
    replace ((p + 1) * (B * T * T')) with ((p + 1) * B * T' * T) by ring.
    replace (X * c - 2 ^ 53 * T) with ((Zpos mq * c - 2 ^ 53) * T)
      by (subst X; ring).
    apply Z.mul_lt_mono_pos_r; lia. }
  set (G := 2 ^ 99 * W) in *.
  assert (HG : 2 ^ 99 <= G) by (subst G; lia).
  assert (U3 : p * den * G <= 100 * num * G + den * (200 * 2 ^ 46 + 2 ^ 55)).
  { assert (A1 : p * G * den <= (X * c + 2 ^ 53 * T) * den)
      by (apply Z.mul_le_mono_nonneg_r; lia).
    assert (A2 : den * X * c <= (num * W * 2 ^ 53 + 2 * den) * c)
      by (apply Z.mul_le_mono_nonneg_r; [ subst c; lia | lia ]).
    assert (A3 : 2 ^ 53 * T * den <= 2 ^ 53 * 4 * den).
    { apply Z.mul_le_mono_nonneg_r; [ lia | ].
      apply Z.mul_le_mono_nonneg_l; lia. }
    replace (100 * num * G) with (num * W * 2 ^ 53 * c)
      by (subst G c; ring).
    replace ((X * c + 2 ^ 53 * T) * den)
      with (den * X * c + 2 ^ 53 * T * den) in A1 by ring.
    replace (p * den * G) with (p * G * den) by ring.
    subst c. lia. }
  assert (L3 : 100 * num * G - den * (300 * 2 ^ 46 + 2 ^ 55)
               < (p + 1) * den * G).
  { assert (A1 : (X * c - 2 ^ 53 * T) * den < (p + 1) * G * den)
      by (apply Z.mul_lt_mono_pos_r; lia).
    assert (A2 : (num * W * 2 ^ 53 - 3 * den) * c <= den * X * c)
      by (apply Z.mul_le_mono_nonneg_r; [ subst c; lia | lia ]).
    assert (A3 : 2 ^ 53 * T * den <= 2 ^ 53 * 4 * den).
    { apply Z.mul_le_mono_nonneg_r; [ lia | ].
      apply Z.mul_le_mono_nonneg_l; lia. }
    replace (100 * num * G) with (num * W * 2 ^ 53 * c)
      by (subst G c; ring).
    replace ((X * c - 2 ^ 53 * T) * den)
      with (den * X * c - 2 ^ 53 * T * den) in A1 by ring.
    replace ((p + 1) * den * G) with ((p + 1) * G * den) by ring.
    subst c. lia. }
  assert (Hsmall : den * (300 * 2 ^ 46 + 2 ^ 55) < G) by lia.
  assert (Hle : p * den <= 100 * num).
  { destruct (Z.le_gt_cases (p * den) (100 * num)) as [H | H]; [ exact H | ].
    exfalso.
    assert ((100 * num + 1) * G <= p * den * G)
      by (apply Z.mul_le_mono_nonneg_r; lia).
    lia. }
  assert (Hge : 100 * num <= (p + 1) * den).
  { destruct (Z.le_gt_cases (100 * num) ((p + 1) * den)) as [H | H];
      [ exact H | ].
    exfalso.
    assert ((p + 1) * den * G <= (100 * num - 1) * G)
      by (apply Z.mul_le_mono_nonneg_r; lia).
    lia. }
  assert (Hp100 : p <= 100).
  { destruct (Z.le_gt_cases p 100) as [H | H]; [ exact H | ]. exfalso.
    assert (101 * den <= p * den) by (apply Z.mul_le_mono_nonneg_r; lia).
    lia. }
  assert (Hin : (INT_MIN <=? p) && (p <=? INT_MAX) = true).
  { apply andb_true_iff. unfold INT_MIN, INT_MAX. split; apply Z.leb_le; lia. }
  rewrite Hin. exists p. split; [ reflexivity | lia ].
Qed.

(** A percentage [p] that brackets the exact one is the exact one
    rounded down, or one below it when the exact one is whole. *)
Lemma bracket_is_quotient p n d :
  0 < d -> p * d <= n <= (p + 1) * d ->
  p = n / d \/ (n mod d = 0 /\ p = n / d - 1).
Proof.
  intros Hd [Hlo Hhi].
  assert (H1 : p <= n / d) by (apply Z.div_le_lower_bound; lia).
  assert (H2 : n / d <= p + 1) by (apply Z.div_le_upper_bound; lia).
  pose proof (Z.div_mod n d ltac:(lia)) as Hdm.
  pose proof (Z.mod_pos_bound n d Hd) as Hmod.
  destruct (Z.eq_dec p (n / d)) as [E | N]; [ left; exact E | right ].
  assert (Hq : n / d = p + 1) by lia.
  rewrite Hq in Hdm. split; lia.
Qed.

Section LagExact.

Variable RINGID_MAXIMUM : Z.

(** The value [CalcStats] computes for a reader inside the window of a
    ring with offsets below 2^42 brackets the exact percentage. *)
Lemma CalcStats_percentlag_bracket (rp : RingParams) (c : ClientInfo)
    (rd : RingReader) :
  tebi_ring rp -> tebi_offset (pktoffset rd) ->
  reader c = Some rd -> pktid rd <= RINGID_MAXIMUM ->
  earliestoffset rp < unwrap_offset rp (latestoffset rp) ->
  earliestoffset rp <= unwrap_offset rp (pktoffset rd)
                    <= unwrap_offset rp (latestoffset rp) ->
  exists p,
    CalcStats_percentlag RINGID_MAXIMUM rp c = Some p /\
    p * (unwrap_offset rp (latestoffset rp) - earliestoffset rp)
    <= 100 * (unwrap_offset rp (latestoffset rp)
              - unwrap_offset rp (pktoffset rd))
    <= (p + 1) * (unwrap_offset rp (latestoffset rp) - earliestoffset rp).
Proof.
  intros (Hl & He & Hm) Hrd E Hid Hspan Hwin.
  unfold tebi_offset in *.
  assert (Hrp : ring_offsets rp) by (unfold ring_offsets, ring_offset; lia).
  assert (Hrd' : ring_offset (pktoffset rd)) by (unfold ring_offset; lia).
  rewrite (CalcStats_percentlag_valid RINGID_MAXIMUM rp c rd Hrp Hrd' E Hid).
  unfold double_percent_lag.
  assert (Hlu : unwrap_offset rp (latestoffset rp) < 2 ^ 43)
    by (unfold unwrap_offset; destruct (_ <? _); lia).
  set (lu := unwrap_offset rp (latestoffset rp)) in *.
  set (ru := unwrap_offset rp (pktoffset rd)) in *.
  destruct (Z.eq_dec ru lu) as [E0 | N0];
    [ | destruct (Z.eq_dec ru (earliestoffset rp)) as [E1 | N1] ].
  - rewrite E0, Z.sub_diag. exists 0. split; [ | lia ].
    apply percent_of_nothing. lia.
  - rewrite E1. exists 100. split; [ | lia ]. apply percent_of_all. lia.
  - apply percent_rounds_down; lia.
Qed.

(** C5.  [CalcStats] stores exactly 0 when the client has no reader or
    the reader's packet id is above the largest valid id.  For a reader
    with a valid packet id, in a ring whose offsets are below 2^42 and
    whose unwrapped latest offset is above its earliest offset, when the
    unwrapped reader offset lies between the earliest and the unwrapped
    latest offset (unwrapping adds the ring's max offset exactly when
    the offset is below the earliest offset): the stored value is the
    formula 100 * (latest - reader) / (latest - earliest) over the
    unwrapped offsets, rounded down to a whole number, or one below it,
    which can happen only when the exact percentage is whole. *)
Theorem CalcStats_percentlag_rounded (rp : RingParams) (nsnow : Z)
    (c : ClientInfo) :
  (reader c = None ->
   percentlag (CalcStats RINGID_MAXIMUM rp nsnow c) = Some 0) /\
  (forall rd, reader c = Some rd -> RINGID_MAXIMUM < pktid rd ->
   percentlag (CalcStats RINGID_MAXIMUM rp nsnow c) = Some 0) /\
  (forall rd, reader c = Some rd -> pktid rd <= RINGID_MAXIMUM ->
   tebi_ring rp -> tebi_offset (pktoffset rd) ->
   earliestoffset rp < unwrap_offset rp (latestoffset rp) ->
   earliestoffset rp <= unwrap_offset rp (pktoffset rd)
                     <= unwrap_offset rp (latestoffset rp) ->
   exists p,
     percentlag (CalcStats RINGID_MAXIMUM rp nsnow c) = Some p /\
     (p = lag_percentage rp (pktoffset rd) \/
      (whole_percentage rp (pktoffset rd) /\
       p = lag_percentage rp (pktoffset rd) - 1))).
Proof.
  cbn [percentlag CalcStats].
  destruct (CalcStats_percentlag_no_position RINGID_MAXIMUM rp c)
    as [Hnone Hbad].
  split; [ exact Hnone | ]. split; [ exact Hbad | ].
  intros rd E Hid Hrp Hrd Hspan Hwin.
  destruct (CalcStats_percentlag_bracket rp c rd Hrp Hrd E Hid Hspan Hwin)
    as (p & Hp & Hbr).
  exists p. split; [ exact Hp | ].
  unfold lag_percentage, whole_percentage.
  apply bracket_is_quotient; [ lia | exact Hbr ].
Qed.

(** X28.  In a ring whose offsets are below 2^42 and whose unwrapped
    latest offset is above its earliest offset: for a reader with a
    valid packet id positioned between the earliest and the latest
    packet, the percent lag [p] that [CalcStats] stores brackets the
    exact percentage: p * (latest - earliest) <= 100 * (latest - reader)
    <= (p + 1) * (latest - earliest), all offsets unwrapped. *)
Theorem percentlag_rounds_down (rp : RingParams) (nsnow : Z) (c : ClientInfo)
    (rd : RingReader) :
  tebi_ring rp -> tebi_offset (pktoffset rd) ->
  reader c = Some rd -> pktid rd <= RINGID_MAXIMUM ->
  earliestoffset rp < unwrap_offset rp (latestoffset rp) ->
  earliestoffset rp <= unwrap_offset rp (pktoffset rd)
                    <= unwrap_offset rp (latestoffset rp) ->
  exists p,
    percentlag (CalcStats RINGID_MAXIMUM rp nsnow c) = Some p /\
    p * (unwrap_offset rp (latestoffset rp) - earliestoffset rp)
    <= 100 * (unwrap_offset rp (latestoffset rp)
              - unwrap_offset rp (pktoffset rd))
    <= (p + 1) * (unwrap_offset rp (latestoffset rp) - earliestoffset rp).
Proof.
  intros Hrp Hrd E Hid Hspan Hwin. cbn [percentlag CalcStats].
  exact (CalcStats_percentlag_bracket rp c rd Hrp Hrd E Hid Hspan Hwin).
Qed.

End LagExact.

(** A reader half-way through a wrapped ring of a mebibyte: the latest
    packet unwraps to 1056768, the reader at 790528 lags by half of the
    532480 bytes between earliest and latest, and 50 is stored. *)
Lemma CalcStats_percentlag_rounded_witness :
  let c := client_with (Some (mkReader 7 790528)) 0 0 0 0 in
  tebi_ring ring_wrapped /\ tebi_offset 790528 /\
  earliestoffset ring_wrapped
  < unwrap_offset ring_wrapped (latestoffset ring_wrapped) /\
  earliestoffset ring_wrapped
  <= unwrap_offset ring_wrapped 790528
  <= unwrap_offset ring_wrapped (latestoffset ring_wrapped) /\
  (exists p,
     percentlag (CalcStats RINGID_MAXIMUM_v4 ring_wrapped 1700000001000000000 c)
     = Some p /\
     (p = lag_percentage ring_wrapped 790528 \/
      (whole_percentage ring_wrapped 790528 /\
       p = lag_percentage ring_wrapped 790528 - 1))) /\
  lag_percentage ring_wrapped 790528 = 50 /\
  percentlag (CalcStats RINGID_MAXIMUM_v4 ring_wrapped 1700000001000000000 c)
  = Some 50.
Proof.
  cbv zeta.
  assert (H1 : tebi_ring ring_wrapped)
    by (unfold tebi_ring, tebi_offset; cbn; lia).
  assert (H2 : tebi_offset 790528) by (unfold tebi_offset; lia).
  assert (H3 : earliestoffset ring_wrapped
               < unwrap_offset ring_wrapped (latestoffset ring_wrapped))
    by reflexivity.
  assert (H4 : earliestoffset ring_wrapped
               <= unwrap_offset ring_wrapped 790528
               <= unwrap_offset ring_wrapped (latestoffset ring_wrapped))
    by (vm_compute; split; discriminate).
  assert (H5 : pktid (mkReader 7 790528) <= RINGID_MAXIMUM_v4)
    by (vm_compute; discriminate).
  split; [ exact H1 | ]. split; [ exact H2 | ]. split; [ exact H3 | ].
  split; [ exact H4 | ]. split; [ | split; vm_compute; reflexivity ].
  exact (proj2 (proj2 (CalcStats_percentlag_rounded RINGID_MAXIMUM_v4
                         ring_wrapped 1700000001000000000
                         (client_with (Some (mkReader 7 790528)) 0 0 0 0)))
           (mkReader 7 790528) eq_refl H5 H1 H2 H3 H4).
Defined.

(** C5, the claim as stated fails.  A reader 57 bytes behind the latest
    packet of a ring of 100 bytes: the formula gives 57, the quotient
    57/100 taken in double precision and multiplied by 100 is just
    below 57, and 56 is stored. *)
Lemma percentlag_57_stored_as_56 :
  let c := client_with (Some (mkReader 7 43)) 0 0 0 0 in
  unwrap_offset ring_100 (latestoffset ring_100) = 100 /\
  unwrap_offset ring_100 43 = 43 /\
  lag_percentage ring_100 43 = 57 /\
  percentlag (CalcStats RINGID_MAXIMUM_v4 ring_100 1700000001000000000 c)
  = Some 56.
Proof.
  cbv zeta. repeat apply conj; vm_compute; reflexivity.
Qed.

(** A reader 29 bytes behind the latest packet of a ring of 100 bytes:
    the exact percentage is 29 and the stored one is 28. *)
Lemma percentlag_rounds_down_witness :
  let c := client_with (Some (mkReader 7 71)) 0 0 0 0 in
  tebi_ring ring_100 /\ tebi_offset 71 /\
  earliestoffset ring_100 < unwrap_offset ring_100 (latestoffset ring_100) /\
  earliestoffset ring_100 <= unwrap_offset ring_100 71
                          <= unwrap_offset ring_100 (latestoffset ring_100) /\
  (exists p,
     percentlag (CalcStats RINGID_MAXIMUM_v4 ring_100 1700000001000000000 c)
     = Some p /\
     p * (unwrap_offset ring_100 (latestoffset ring_100)
          - earliestoffset ring_100)
     <= 100 * (unwrap_offset ring_100 (latestoffset ring_100)
               - unwrap_offset ring_100 71)
     <= (p + 1) * (unwrap_offset ring_100 (latestoffset ring_100)
                   - earliestoffset ring_100)) /\
  percentlag (CalcStats RINGID_MAXIMUM_v4 ring_100 1700000001000000000 c)
  = Some 28.
Proof.
  cbv zeta.
  assert (H1 : tebi_ring ring_100)
    by (unfold tebi_ring, tebi_offset; cbn; lia).
  assert (H2 : tebi_offset 71) by (unfold tebi_offset; lia).
  assert (H3 : earliestoffset ring_100
               < unwrap_offset ring_100 (latestoffset ring_100))
    by reflexivity.
  assert (H4 : earliestoffset ring_100
               <= unwrap_offset ring_100 71
               <= unwrap_offset ring_100 (latestoffset ring_100))
    by (vm_compute; split; discriminate).
  assert (H5 : pktid (mkReader 7 71) <= RINGID_MAXIMUM_v4)
    by (vm_compute; discriminate).
  split; [ exact H1 | ]. split; [ exact H2 | ]. split; [ exact H3 | ].
  split; [ exact H4 | ]. split.
  - exact (percentlag_rounds_down RINGID_MAXIMUM_v4 ring_100
             1700000001000000000
             (client_with (Some (mkReader 7 71)) 0 0 0 0)
             (mkReader 7 71) H1 H2 eq_refl H5 H3 H4).
  - vm_compute. reflexivity.
Defined.
